(** * Wallet core of yupost: ledger mirror, coin selection, send preparation

    A shallow embedding of the wallet transaction record ([CWalletTx] and its
    [Confirmation] state machine, src/yupost/yupostutils.h) and of the wallet
    model's [prepareTransaction] and [pollBalanceChanged] (qt/walletmodel.cpp),
    with the properties the design document states about them. *)

From stdpp Require Import gmap strings list sorting pretty.
From Stdlib Require Import ZArith Lia.

Local Open Scope Z_scope.

(** ** Primitive data *)

(** [uint256]: an opaque 256-bit blob, read as the number its bytes spell.
    The wallet only compares hashes for equality and tests them for null. *)
Abbreviation uint256 := N.

(** [uint256()] : the default constructed, all-zero hash. *)
Definition uint256_zero : uint256 := 0%N.

Definition IsNull (h : uint256) : bool := N.eqb h 0%N.

(** [CAmount] is [int64_t], held as the integer it denotes. *)
Abbreviation CAmount := Z.

(** The value an [int64_t] holds after an addition whose exact result is [z]:
    [z] wrapped into [-2^63, 2^63). *)
Definition to_int64 (z : Z) : Z := (z + 2 ^ 63) mod 2 ^ 64 - 2 ^ 63.

(** [std::numeric_limits<int64_t>::max()] *)
Definition INT64_MAX : Z := 2 ^ 63 - 1.

(** [(unsigned int) x] for a 64-bit [x]: reduction modulo 2^32. *)
Definition to_unsigned_int (x : Z) : Z := x mod 2 ^ 32.

Abbreviation mapValue_t := (gmap string string).

(** Modelled from the spec: [CachableAmount] (wallet/ismine.h is not among
    the sources).  "Cached derived amounts ... are memoized per filter
    class and invalidated on mutation": a finite map from the filter class to
    the memoized amount; [Reset] forgets every entry. *)
Abbreviation CachableAmount := (gmap N Z).

Definition CachableAmount_Reset (c : CachableAmount) : CachableAmount := ∅.

(** ** CWalletTx *)

Module CWalletTx.

(** [enum AmountType { DEBIT, CREDIT, IMMATURE_CREDIT, AVAILABLE_CREDIT }] *)
Inductive AmountType : Set := DEBIT | CREDIT | IMMATURE_CREDIT | AVAILABLE_CREDIT.

(** [enum Status] *)
Inductive Status : Set := UNCONFIRMED | CONFIRMED | CONFLICTED | ABANDONED.

#[global] Instance Status_eq_dec : EqDecision Status.
Proof. solve_decision. Defined.

(** [struct Confirmation] *)
Record Confirmation : Set := mkConfirmation {
  status : Status;
  block_height : Z;
  hashBlock : uint256;
  nIndex : Z
}.

(** [Confirmation(Status s = UNCONFIRMED, int b = 0, uint256 h = uint256(), int i = 0)]
    called with no argument. *)
Definition Confirmation_default : Confirmation :=
  mkConfirmation UNCONFIRMED 0 uint256_zero 0.

(** [mutable CachableAmount m_amounts[AMOUNTTYPE_ENUM_ELEMENTS]] : one cache
    per [AmountType]. *)
Record AmountCaches : Type := mkAmountCaches {
  amt_debit : CachableAmount;
  amt_credit : CachableAmount;
  amt_immature_credit : CachableAmount;
  amt_available_credit : CachableAmount
}.

Definition amounts_get (a : AmountCaches) (ty : AmountType) : CachableAmount :=
  match ty with
  | DEBIT => amt_debit a
  | CREDIT => amt_credit a
  | IMMATURE_CREDIT => amt_immature_credit a
  | AVAILABLE_CREDIT => amt_available_credit a
  end.

(** [m_amounts[ty].Reset()] *)
Definition amounts_reset (a : AmountCaches) (ty : AmountType) : AmountCaches :=
  match ty with
  | DEBIT =>
      mkAmountCaches (CachableAmount_Reset (amt_debit a)) (amt_credit a)
        (amt_immature_credit a) (amt_available_credit a)
  | CREDIT =>
      mkAmountCaches (amt_debit a) (CachableAmount_Reset (amt_credit a))
        (amt_immature_credit a) (amt_available_credit a)
  | IMMATURE_CREDIT =>
      mkAmountCaches (amt_debit a) (amt_credit a)
        (CachableAmount_Reset (amt_immature_credit a)) (amt_available_credit a)
  | AVAILABLE_CREDIT =>
      mkAmountCaches (amt_debit a) (amt_credit a) (amt_immature_credit a)
        (CachableAmount_Reset (amt_available_credit a))
  end.

(** The default constructed array: nothing memoized. *)
Definition amounts_default : AmountCaches := mkAmountCaches ∅ ∅ ∅ ∅.

Section WithTransaction.

(** [CTransactionRef], a shared pointer to an immutable transaction
    (primitives/transaction.h); the wallet record only stores and hands it on. *)
Context {CTransactionRef : Type}.

(** The fields of [class CWalletTx], in declaration order.  [pwallet] is the
    back pointer to the owning wallet ([None] is [nullptr]); the iterator
    [m_it_wtxOrdered] into the wallet's ordered list carries no data of the
    transaction and is left out. *)
Record t : Type := mk {
  pwallet : option N;
  mapValue : mapValue_t;
  vOrderForm : list (string * string);
  fTimeReceivedIsTxTime : Z;
  nTimeReceived : Z;
  nTimeSmart : Z;
  fFromMe : bool;
  nOrderPos : Z;
  m_amounts : AmountCaches;
  m_is_cache_empty : bool;
  fChangeCached : bool;
  fInMempool : bool;
  nChangeCached : CAmount;
  tx : CTransactionRef;
  m_confirm : Confirmation
}.

Definition set_confirm (c : Confirmation) (w : t) : t :=
  mk (pwallet w) (mapValue w) (vOrderForm w) (fTimeReceivedIsTxTime w)
     (nTimeReceived w) (nTimeSmart w) (fFromMe w) (nOrderPos w) (m_amounts w)
     (m_is_cache_empty w) (fChangeCached w) (fInMempool w) (nChangeCached w)
     (tx w) c.

(** [void Init(const CWallet* pwalletIn)] *)
Definition Init (pwalletIn : option N) (w : t) : t :=
  mk pwalletIn                      (* pwallet = pwalletIn *)
     ∅                              (* mapValue.clear() *)
     []                             (* vOrderForm.clear() *)
     0                              (* fTimeReceivedIsTxTime = false *)
     0                              (* nTimeReceived = 0 *)
     0                              (* nTimeSmart = 0 *)
     false                          (* fFromMe = false *)
     (-1)                           (* nOrderPos = -1 *)
     (m_amounts w)
     (m_is_cache_empty w)
     false                          (* fChangeCached = false *)
     false                          (* fInMempool = false *)
     0                              (* nChangeCached = 0 *)
     (tx w)
     Confirmation_default.          (* m_confirm = Confirmation{} *)

(** [CWalletTx(const CWallet* pwalletIn, CTransactionRef arg) : tx(std::move(arg))
    { Init(pwalletIn); }].  Before [Init] runs only [tx], the default
    constructed [m_amounts] and [m_is_cache_empty{true}] have a value; every
    other field is assigned by [Init]. *)
Definition create (pwalletIn : option N) (arg : CTransactionRef) : t :=
  Init pwalletIn
    (mk None ∅ [] 0 0 0 false 0 amounts_default true false false 0 arg
        Confirmation_default).

(** *** Status accessors and setters *)

Definition isAbandoned (w : t) : bool := bool_decide (status (m_confirm w) = ABANDONED).
Definition isConflicted (w : t) : bool := bool_decide (status (m_confirm w) = CONFLICTED).
Definition isUnconfirmed (w : t) : bool := bool_decide (status (m_confirm w) = UNCONFIRMED).
Definition isConfirmed (w : t) : bool := bool_decide (status (m_confirm w) = CONFIRMED).

Definition set_status (s : Status) (c : Confirmation) : Confirmation :=
  mkConfirmation s (block_height c) (hashBlock c) (nIndex c).

Definition setAbandoned (w : t) : t :=
  set_confirm (mkConfirmation ABANDONED 0 uint256_zero 0) w.

Definition setConflicted (w : t) : t :=
  set_confirm (set_status CONFLICTED (m_confirm w)) w.

Definition setUnconfirmed (w : t) : t :=
  set_confirm (set_status UNCONFIRMED (m_confirm w)) w.

Definition setConfirmed (w : t) : t :=
  set_confirm (set_status CONFIRMED (m_confirm w)) w.

(** [void MarkDirty()] *)
Definition MarkDirty (w : t) : t :=
  let a1 := amounts_reset (m_amounts w) DEBIT in
  let a2 := amounts_reset a1 CREDIT in
  let a3 := amounts_reset a2 IMMATURE_CREDIT in
  let a4 := amounts_reset a3 AVAILABLE_CREDIT in
  mk (pwallet w) (mapValue w) (vOrderForm w) (fTimeReceivedIsTxTime w)
     (nTimeReceived w) (nTimeSmart w) (fFromMe w) (nOrderPos w)
     a4
     true                           (* m_is_cache_empty = true *)
     false                          (* fChangeCached = false *)
     (fInMempool w) (nChangeCached w) (tx w) (m_confirm w).

(** [void BindWallet(CWallet *pwalletIn)] *)
Definition BindWallet (pwalletIn : option N) (w : t) : t :=
  let w' := MarkDirty w in
  mk pwalletIn (mapValue w') (vOrderForm w') (fTimeReceivedIsTxTime w')
     (nTimeReceived w') (nTimeSmart w') (fFromMe w') (nOrderPos w')
     (m_amounts w') (m_is_cache_empty w') (fChangeCached w') (fInMempool w')
     (nChangeCached w') (tx w') (m_confirm w').

(** The pairing of status and block hash that the data model asks for:
    [CONFIRMED] and [CONFLICTED] carry a non-null hash, [UNCONFIRMED] and
    [ABANDONED] a null one. *)
Definition confirm_paired (c : Confirmation) : bool :=
  match status c with
  | CONFIRMED | CONFLICTED => negb (IsNull (hashBlock c))
  | UNCONFIRMED | ABANDONED => IsNull (hashBlock c)
  end.

(** *** Serialization

    The byte encoding of the stream is the serialization framework's; what
    [Serialize] hands to it, and [Unserialize] gets back, is this sequence of
    values, in stream order. *)
Record Stream : Type := mkStream {
  s_tx : CTransactionRef;
  s_hashBlock : uint256;
  s_vMerkleBranch : list uint256;   (* dummy_vector1 *)
  s_nIndex : Z;
  s_vtxPrev : list uint256;         (* dummy_vector2, contents discarded *)
  s_mapValue : mapValue_t;
  s_vOrderForm : list (string * string);
  s_fTimeReceivedIsTxTime : Z;
  s_nTimeReceived : Z;
  s_fFromMe : bool;
  s_fSpent : bool                   (* dummy_bool *)
}.

Section Serialization.

(** [static const uint256 ABANDON_HASH]: declared in the class, its value is
    given in wallet.cpp. *)
Variable ABANDON_HASH : uint256.

(** String conversions of util/strencodings.h and tinyformat.h:
    [ToString(int64_t)], [strprintf("%u", unsigned)] and [atoi64]. *)
Variable ToString : Z -> string.
Variable strprintf_u : Z -> string.
Variable atoi64 : string -> Z.

(** [static inline void ReadOrderPos(int64_t& nOrderPos, mapValue_t& mapValue)] *)
Definition ReadOrderPos (mv : mapValue_t) : Z :=
  match mv !! "n"%string with
  | None => -1
  | Some v => atoi64 v
  end.

(** [static inline void WriteOrderPos(const int64_t& nOrderPos, mapValue_t& mapValue)] *)
Definition WriteOrderPos (pos : Z) (mv : mapValue_t) : mapValue_t :=
  if bool_decide (pos = -1) then mv else <["n"%string := ToString pos]> mv.

(** [template<typename Stream> void Serialize(Stream& s) const] *)
Definition Serialize (w : t) : Stream :=
  let mapValueCopy := <["fromaccount"%string := EmptyString]> (mapValue w) in
  let mapValueCopy := WriteOrderPos (nOrderPos w) mapValueCopy in
  let mapValueCopy :=
    if bool_decide (nTimeSmart w = 0) then mapValueCopy
    else <["timesmart"%string := strprintf_u (nTimeSmart w)]> mapValueCopy in
  let serializedHash :=
    if isAbandoned w then ABANDON_HASH else hashBlock (m_confirm w) in
  let serializedIndex :=
    if isAbandoned w || isConflicted w then -1 else nIndex (m_confirm w) in
  mkStream (tx w) serializedHash [] serializedIndex [] mapValueCopy
    (vOrderForm w) (fTimeReceivedIsTxTime w) (nTimeReceived w) (fFromMe w) false.

(** The object right after the [s >> ...] line of [Unserialize]: [Init(nullptr)]
    has run and the streamed fields are stored, [m_confirm.hashBlock] among
    them. *)
Definition read_fields (s : Stream) (w : t) : t :=
  let w0 := Init None w in
  mk (pwallet w0) (s_mapValue s) (s_vOrderForm s) (s_fTimeReceivedIsTxTime s)
     (s_nTimeReceived s) (nTimeSmart w0) (s_fFromMe s) (nOrderPos w0)
     (m_amounts w0) (m_is_cache_empty w0) (fChangeCached w0) (fInMempool w0)
     (nChangeCached w0) (s_tx s)
     (mkConfirmation (status (m_confirm w0)) (block_height (m_confirm w0))
        (s_hashBlock s) (nIndex (m_confirm w0))).

(** The [if / else if / else if] on [serializedIndex] and the stored hash. *)
Definition restore_status (serializedIndex : Z) (w : t) : t :=
  if bool_decide (serializedIndex = -1)
     && bool_decide (hashBlock (m_confirm w) = ABANDON_HASH)
  then setAbandoned w
  else if bool_decide (serializedIndex = -1) then setConflicted w
  else if negb (IsNull (hashBlock (m_confirm w))) then
    setConfirmed
      (set_confirm
         (mkConfirmation (status (m_confirm w)) (block_height (m_confirm w))
            (hashBlock (m_confirm w)) serializedIndex) w)
  else w.

(** [template<typename Stream> void Unserialize(Stream& s)], run on the
    object [w]. *)
Definition Unserialize (s : Stream) (w : t) : t :=
  let w1 := restore_status (s_nIndex s) (read_fields s w) in
  let pos := ReadOrderPos (mapValue w1) in
  let smart :=
    match mapValue w1 !! "timesmart"%string with
    | Some v => to_unsigned_int (atoi64 v)
    | None => 0
    end in
  let mv :=
    delete "timesmart"%string
      (delete "n"%string
         (delete "spent"%string (delete "fromaccount"%string (mapValue w1)))) in
  mk (pwallet w1) mv (vOrderForm w1) (fTimeReceivedIsTxTime w1)
     (nTimeReceived w1) smart (fFromMe w1) pos (m_amounts w1)
     (m_is_cache_empty w1) (fChangeCached w1) (fInMempool w1)
     (nChangeCached w1) (tx w1) (m_confirm w1).

End Serialization.

End WithTransaction.

Arguments t : clear implicits.
Arguments Stream : clear implicits.

End CWalletTx.

(** ** WalletModel (qt/walletmodel.cpp) *)

Module WalletModel.

(** [enum StatusCode], the values [prepareTransaction] returns. *)
Inductive StatusCode : Set :=
  | OK
  | InvalidAmount
  | InvalidAddress
  | AmountExceedsBalance
  | AmountWithFeeExceedsBalance
  | DuplicateAddress
  | TransactionCreationFailed
  | AbsurdFee.

#[global] Instance StatusCode_eq_dec : EqDecision StatusCode.
Proof. solve_decision. Defined.

(** [class SendCoinsRecipient], the fields the model reads. *)
Record SendCoinsRecipient : Type := mkRecipient {
  address : string;
  label : string;
  amount : CAmount;
  message : string;
  fSubtractFeeFromAmount : bool
}.

Section WithWallet.

Context {CTransactionRef CScript CCoinControl WalletBalances : Type}.

(** [struct CRecipient] (yupostutils.h) *)
Record CRecipient : Type := mkCRecipient {
  scriptPubKey : CScript;
  nAmount : CAmount;
  rFSubtractFeeFromAmount : bool
}.

(** What [createTransaction] leaves behind: the returned transaction
    ([None] is a null pointer) and its three reference arguments. *)
Record Created : Type := mkCreated {
  newTx : option CTransactionRef;
  nChangePosRet : Z;
  nFeeRequired : CAmount;
  strFailReason : string
}.

(** [interfaces::Wallet], the member functions the two modelled slots call.
    [tryGetBalances numBlocks force cachedNumBlocks] is [None] when the call
    returns [false], else the balances and [numBlocks] after the call. *)
Record Wallet : Type := mkWallet {
  getAvailableBalance : CCoinControl -> CAmount;
  createTransaction : list CRecipient -> CCoinControl -> bool -> Created;
  getDefaultMaxTxFee : CAmount;
  privateKeysDisabled : bool;
  tryGetBalances : Z -> bool -> Z -> option (WalletBalances * Z)
}.

(** [interfaces::Node]: [tryGetSyncInfo(numBlocks, isSyncing)], [None] when
    it returns [false]. *)
Record Node : Type := mkNode {
  tryGetSyncInfo : option (Z * bool)
}.

(** [class WalletModelTransaction] (qt/walletmodeltransaction.h): recipients,
    the created transaction and the fee. *)
Record WalletModelTransaction : Type := mkWMT {
  recipients : list SendCoinsRecipient;
  wtx : option CTransactionRef;
  fee : CAmount
}.

(** What the slot does to the outside, in program order: calls into the
    wallet that create a transaction, and the [message] signal. *)
Inductive Event : Type :=
  | CallCreateTransaction (vecSend : list CRecipient) (sign : bool)
  | EmitMessage (title text : string).

Section Prepare.

(** [IsValidDestinationString] and
    [GetScriptForDestination(DecodeDestination(.))] of key_io.h, and
    [WalletModelTransaction::reassignAmounts]. *)
Variable IsValidDestinationString : string -> bool.
Variable scriptForAddress : string -> CScript.
Variable reassignAmounts : Z -> WalletModelTransaction -> WalletModelTransaction.

Definition validateAddress (a : string) : bool := IsValidDestinationString a.

(** The locals the pre-check loop updates. *)
Record Checked : Type := mkChecked {
  c_fSubtractFeeFromAmount : bool;
  c_setAddress : gset string;
  c_nAddresses : Z;
  c_vecSend : list CRecipient;
  c_total : CAmount
}.

Definition checked_init : Checked := mkChecked false ∅ 0 [] 0.

(** [for (const SendCoinsRecipient &rcp : recipients) { ... }]: [inl] is an
    early [return]. *)
Fixpoint precheck (rs : list SendCoinsRecipient) (st : Checked)
  : StatusCode + Checked :=
  match rs with
  | [] => inr st
  | rcp :: rest =>
      let fSub := if fSubtractFeeFromAmount rcp then true
                  else c_fSubtractFeeFromAmount st in
      if negb (validateAddress (address rcp)) then inl InvalidAddress
      else if bool_decide (amount rcp <= 0) then inl InvalidAmount
      else
        let recipient :=
          mkCRecipient (scriptForAddress (address rcp)) (amount rcp)
            (fSubtractFeeFromAmount rcp) in
        precheck rest
          (* total += rcp.amount *)
          (mkChecked fSub ({[ address rcp ]} ∪ c_setAddress st)
             (c_nAddresses st + 1) (c_vecSend st ++ [recipient])
             (to_int64 (c_total st + amount rcp)))
  end.

(** [WalletModel::prepareTransaction(transaction, coinControl)]: the status
    returned, the transaction object afterwards and the events, oldest
    first. *)
Definition prepareTransaction (m_wallet : Wallet)
    (transaction : WalletModelTransaction) (coinControl : CCoinControl)
  : StatusCode * WalletModelTransaction * list Event :=
  if bool_decide (recipients transaction = []) then (OK, transaction, [])
  else
    match precheck (recipients transaction) checked_init with
    | inl code => (code, transaction, [])
    | inr st =>
        if bool_decide (Z.of_nat (size (c_setAddress st)) ≠ c_nAddresses st)
        then (DuplicateAddress, transaction, [])
        else
          let nBalance := getAvailableBalance m_wallet coinControl in
          if bool_decide (c_total st > nBalance)
          then (AmountExceedsBalance, transaction, [])
          else
            let sign := negb (privateKeysDisabled m_wallet) in
            let r := createTransaction m_wallet (c_vecSend st) coinControl sign in
            let call := CallCreateTransaction (c_vecSend st) sign in
            (* newTx = ...; transaction.setTransactionFee(nFeeRequired) *)
            let t1 := mkWMT (recipients transaction) (newTx r) (nFeeRequired r) in
            let t2 :=
              if c_fSubtractFeeFromAmount st && bool_decide (is_Some (newTx r))
              then reassignAmounts (nChangePosRet r) t1 else t1 in
            match newTx r with
            | None =>
                if negb (c_fSubtractFeeFromAmount st)
                   && bool_decide
                        (to_int64 (c_total st + nFeeRequired r) > nBalance)
                then (AmountWithFeeExceedsBalance, t2, [call])
                else
                  (TransactionCreationFailed, t2,
                   [call; EmitMessage "Send Coins" (strFailReason r)])
            | Some _ =>
                if bool_decide (nFeeRequired r > getDefaultMaxTxFee m_wallet)
                then (AbsurdFee, t2, [call])
                else (OK, t2, [call])
            end
    end.

(** *** Vocabulary for the properties of [prepareTransaction] *)

(** A recipient that passes the pre-check loop. *)
Definition well_formed (rcp : SendCoinsRecipient) : Prop :=
  IsValidDestinationString (address rcp) = true ∧ 0 < amount rcp.

(** The [CRecipient] the loop pushes for [rcp]. *)
Definition to_CRecipient (rcp : SendCoinsRecipient) : CRecipient :=
  mkCRecipient (scriptForAddress (address rcp)) (amount rcp)
    (fSubtractFeeFromAmount rcp).

(** The exact sum of the amounts. *)
Definition total_amount (rs : list SendCoinsRecipient) : CAmount :=
  foldr (λ rcp acc, amount rcp + acc) 0 rs.

(** What the local [total] holds after the loop has added the amounts of
    [rs] to [acc], one [int64_t] addition each. *)
Definition total_after (acc : CAmount) (rs : list SendCoinsRecipient)
  : CAmount :=
  foldl (λ acc rcp, to_int64 (acc + amount rcp)) acc rs.

Definition subtracts_fee (rs : list SendCoinsRecipient) : bool :=
  existsb fSubtractFeeFromAmount rs.

(** How often a run called [createTransaction]. *)
Definition create_calls (ev : list Event) : nat :=
  length (List.filter
            (λ e, match e with CallCreateTransaction _ _ => true | _ => false end)
            ev).

End Prepare.

(** The members of [WalletModel] that [pollBalanceChanged] reads or writes.
    The table-model pointers are set once in the constructor and never
    cleared. *)
Record t : Type := mk {
  pollNum : Z;
  cachedNumBlocks : Z;
  fForceCheckBalanceChanged : bool;
  m_cached_balances : WalletBalances;
  updateCoinAddresses : bool;
  updateStakeWeight : bool
}.

(** [static int pollSyncSkip = 30] *)
Definition pollSyncSkip : Z := 30.

(** Signals and calls into the table models made by a poll. *)
Inductive PollEvent : Type :=
  | EmitBalanceChanged (b : WalletBalances)
  | UpdateConfirmations
  | TokenUpdateConfirmations
  | CheckTokenBalanceChanged
  | CheckDelegationChanged
  | CheckSuperStakerChanged.

Section Poll.

(** [interfaces::WalletBalances::balanceChanged(prev)] *)
Variable balanceChanged : WalletBalances -> WalletBalances -> bool.

(** [bool WalletModel::checkBalanceChanged(const interfaces::WalletBalances&)] *)
Definition checkBalanceChanged (new_balances : WalletBalances) (m : t)
  : bool * t * list PollEvent :=
  if balanceChanged new_balances (m_cached_balances m) then
    (true,
     mk (pollNum m) (cachedNumBlocks m) (fForceCheckBalanceChanged m)
        new_balances (updateCoinAddresses m) (updateStakeWeight m),
     [EmitBalanceChanged new_balances])
  else (false, m, []).

(** [void WalletModel::pollBalanceChanged()], with every table model set. *)
Definition pollBalanceChanged (m_node : Node) (m_wallet : Wallet) (m : t)
  : t * list PollEvent :=
  (* pollNum++ *)
  let m := mk (pollNum m + 1) (cachedNumBlocks m) (fForceCheckBalanceChanged m)
              (m_cached_balances m) (updateCoinAddresses m) (updateStakeWeight m) in
  match tryGetSyncInfo m_node with
  | None => (m, [])
  | Some (numBlocks, isSyncing) =>
      if isSyncing && bool_decide (pollNum m < pollSyncSkip) then (m, [])
      else
        match tryGetBalances m_wallet numBlocks (fForceCheckBalanceChanged m)
                (cachedNumBlocks m) with
        | None => (m, [])
        | Some (new_balances, numBlocks) =>
            let cachedNumBlocksChanged :=
              bool_decide (numBlocks ≠ cachedNumBlocks m) in
            (* pollNum = 0; fForceCheckBalanceChanged = false;
               cachedNumBlocks = numBlocks *)
            let m := mk 0 numBlocks false (m_cached_balances m)
                        (updateCoinAddresses m) (updateStakeWeight m) in
            let '(changed, m, ev) := checkBalanceChanged new_balances m in
            let ev := ev ++ [UpdateConfirmations; TokenUpdateConfirmations] in
            let ev :=
              if cachedNumBlocksChanged
              then ev ++ [CheckTokenBalanceChanged; CheckDelegationChanged;
                          CheckSuperStakerChanged]
              else ev in
            let m :=
              if changed
              then mk (pollNum m) (cachedNumBlocks m) (fForceCheckBalanceChanged m)
                      (m_cached_balances m) true (updateStakeWeight m)
              else m in
            let m :=
              if negb isSyncing && (changed || cachedNumBlocksChanged)
              then mk (pollNum m) (cachedNumBlocks m) (fForceCheckBalanceChanged m)
                      (m_cached_balances m) (updateCoinAddresses m) true
              else m in
            (m, ev)
        end
  end.

End Poll.

End WithWallet.

Arguments Wallet : clear implicits.
Arguments Created : clear implicits.
Arguments CRecipient : clear implicits.
Arguments WalletModelTransaction : clear implicits.
Arguments Event : clear implicits.
Arguments t : clear implicits.
Arguments PollEvent : clear implicits.

End WalletModel.

(** ** CWallet: the ledger mirror *)

Module CWallet.

Import CWalletTx.

(** [COutPoint]: transaction id and output index. *)
Abbreviation COutPoint := (uint256 * N)%type.

Section WithTransaction.

Context {CTransactionRef : Type}.

(** [tx->GetHash()], the outpoints a transaction consumes ([tx->vin]), and the
    wallet's test "touches one of the owned scripts" ([IsMine] or [IsFromMe]). *)
Variable GetHash : CTransactionRef -> uint256.
Variable vin : CTransactionRef -> list COutPoint.
Variable involvesMe : CTransactionRef -> bool.

(** The members of [class CWallet] that the ledger operations touch:
    [mapWallet], [mapTxSpends] (a multimap, here the set of spenders per
    outpoint) and [m_last_block_processed_height]. *)
Record t : Type := mk {
  mapWallet : gmap uint256 (CWalletTx.t CTransactionRef);
  mapTxSpends : gmap COutPoint (gset uint256);
  m_last_block_processed_height : Z
}.

(** Modelled from the spec: [CWallet::AddToSpends] (declared at
    yupostutils.h:712, body not in the sources).  SpendIndex is "a multi-valued
    mapping from (transaction id, output index) to the set of
    wallet-transaction ids that spend it": [wtxid] joins the spenders of
    [outpoint]. *)
Definition AddToSpends (outpoint : COutPoint) (wtxid : uint256)
    (spends : gmap COutPoint (gset uint256)) : gmap COutPoint (gset uint256) :=
  <[outpoint := {[ wtxid ]} ∪ default ∅ (spends !! outpoint)]> spends.

(** Modelled from the spec: [CWallet::MarkInputsDirty] (declared at
    yupostutils.h:736, body not in the sources).  "marks overlapping
    transactions' derived caches dirty": every tracked transaction one of whose
    outputs is consumed gets [MarkDirty]. *)
Definition MarkInputsDirty (ptx : CTransactionRef)
    (m : gmap uint256 (CWalletTx.t CTransactionRef))
  : gmap uint256 (CWalletTx.t CTransactionRef) :=
  foldr (λ (o : COutPoint) acc, alter MarkDirty o.1 acc) m (vin ptx).

(** "new non-conflicting evidence ... (fresh mempool sighting or chain
    inclusion)": a report that the transaction is unconfirmed or confirmed. *)
Definition non_conflicting (confirm : Confirmation) : bool :=
  bool_decide (status confirm = UNCONFIRMED ∨ status confirm = CONFIRMED).

(** Modelled from the spec: [CWallet::AddToWalletIfInvolvingMe] (declared at
    yupostutils.h:730, body not in the sources), the spec's
    [recordObservedTransaction(tx, confirmation, allow_update)].  It "inserts
    or updates a transaction relevant to owned scripts" and "fails silently
    (returns false / no-op) if the transaction touches none of the owned
    scripts and isn't already tracked".  The declaration's comment says "If
    fUpdate is true, existing transactions will be updated", with "one
    exception": "the abandoned state is cleared under the assumption that any
    further notification of a transaction that was considered abandoned is an
    indication that it is not safe to be considered abandoned"; in the spec,
    "abandonment is cleared if new non-conflicting evidence arrives (fresh
    mempool sighting or chain inclusion)".  So a tracked transaction is
    updated when [fUpdate] is true, and also when it is abandoned and the
    report is such evidence; an update stores the reported confirmation.
    Side effects: "registers consumed outpoints in SpendIndex and marks
    overlapping transactions' derived caches dirty". *)
Definition AddToWalletIfInvolvingMe (ptx : CTransactionRef)
    (confirm : Confirmation) (fUpdate : bool) (w : t) : bool * t :=
  let hash := GetHash ptx in
  let store (wtx : CWalletTx.t CTransactionRef) : t :=
    mk (MarkInputsDirty ptx (<[hash := wtx]> (mapWallet w)))
       (foldr (λ o acc, AddToSpends o hash acc) (mapTxSpends w) (vin ptx))
       (m_last_block_processed_height w) in
  match mapWallet w !! hash with
  | Some wtx =>
      if fUpdate || (isAbandoned wtx && non_conflicting confirm)
      then (true, store (set_confirm confirm (MarkDirty wtx)))
      else (false, w)
  | None =>
      if involvesMe ptx then (true, store (set_confirm confirm (create None ptx)))
      else (false, w)
  end.



End WithTransaction.

Arguments t : clear implicits.

End CWallet.

(** ** Coin selection *)

Module CoinSelection.

Import CWallet.

(** [class COutput] (yupostutils.h), with what selection reads through its
    [tx] pointer: the outpoint, the value of output [i] and the owning
    transaction's from-me flag. *)
Record COutput : Set := mkCOutput {
  outpoint : COutPoint;
  nValue : CAmount;
  fFromMe : bool;
  nDepth : Z;
  nInputBytes : Z;
  fSpendable : bool;
  fSolvable : bool;
  use_max_sig : bool;
  fSafe : bool
}.

(** The summed value of a selection ([nValueRet]). *)
Fixpoint total (l : list COutput) : CAmount :=
  match l with
  | [] => 0
  | o :: rest => nValue o + total rest
  end.

(** "an unconfirmed output that did not originate from this wallet" *)
Definition foreign_unconfirmed (o : COutput) : Prop :=
  nDepth o <= 0 ∧ fFromMe o = false.

#[global] Instance foreign_unconfirmed_dec o : Decision (foreign_unconfirmed o).
Proof. unfold foreign_unconfirmed. apply _. Defined.

(** Modelled from the spec: the fallback of the selector, "a greedy
    largest-first ... heuristic that accumulates outputs ... until the target
    plus estimated fee is met".  The caller supplies the fee, so the target
    handed in already holds it. *)
Fixpoint accumulate (cs : list COutput) (target : CAmount)
  : option (list COutput) :=
  if bool_decide (target <= 0) then Some []
  else
    match cs with
    | [] => None
    | c :: rest => cons c <$> accumulate rest (target - nValue c)
    end.

(** The order of the greedy pass: larger values first. *)
Definition larger_first (a b : COutput) : Prop := nValue b <= nValue a.

#[global] Instance larger_first_dec a b : Decision (larger_first a b).
Proof. unfold larger_first. apply _. Defined.

Definition largest_first (cs : list COutput) (target : CAmount)
  : option (list COutput) :=
  accumulate (merge_sort larger_first cs) target.

(** A search answers with part of what it was offered, and reaches the
    target. *)
Definition search_sound
    (search : list COutput -> CAmount -> option (list COutput)) : Prop :=
  ∀ cs target ch, search cs target = Some ch → ch ⊆+ cs ∧ target <= total ch.

Section Select.

(** Modelled from the spec: [class CCoinControl] (declared at
    yupostutils.h:133; wallet/coincontrol.h is not in the sources), by the
    two things the spec's [select] asks of it: which outputs are "explicitly
    pinned via coin_control", and whether "coin_control explicitly allows
    unsafe inputs". *)
Context {CCoinControl : Type}.
Variable pinned : CCoinControl -> gset COutPoint.
Variable allow_unsafe : CCoinControl -> bool.

(** "explicitly pinned via coin_control" *)
Definition is_pinned (cc : CCoinControl) (o : COutput) : Prop :=
  outpoint o ∈ pinned cc.

#[global] Instance is_pinned_dec cc o : Decision (is_pinned cc o).
Proof. unfold is_pinned. apply _. Defined.

(** What the search may pick: anything when unsafe inputs are allowed, else
    only outputs that are confirmed or from this wallet. *)
Definition eligible (cc : CCoinControl) (o : COutput) : Prop :=
  allow_unsafe cc = true ∨ ¬ foreign_unconfirmed o.

(** The candidates left to the search once the pinned ones are set aside. *)
Definition searchable (cc : CCoinControl) (o : COutput) : Prop :=
  ¬ is_pinned cc o ∧ eligible cc o.

#[global] Instance searchable_dec cc o : Decision (searchable cc o).
Proof. unfold searchable, eligible, is_pinned. apply _. Defined.

(** Every pinned output is among the coins handed in. *)
Definition pinned_at_hand (cc : CCoinControl) (cs : list COutput) : Prop :=
  pinned cc ⊆ list_to_set (outpoint <$> cs).

#[global] Instance pinned_at_hand_dec cc cs : Decision (pinned_at_hand cc cs).
Proof. unfold pinned_at_hand. apply _. Defined.

(** Modelled from the spec: the first stage, a "branch-and-bound search for an
    exact or near-exact match minimizing waste ..., bounded by a search-node
    budget".  The spec fixes neither the waste metric nor the budget; any
    search is allowed that answers with a selection drawn from the candidates
    it was offered and reaching the target. *)
Variable branch_and_bound : list COutput -> CAmount -> option (list COutput).

(** Modelled from the spec: [CWallet::SelectCoinsMinConf] (declared at
    yupostutils.h:934).  "if no match is found within budget, falls back to a
    greedy largest-first / knapsack heuristic". *)
Definition SelectCoinsMinConf (nTargetValue : CAmount) (cs : list COutput)
  : option (list COutput) :=
  match branch_and_bound cs nTargetValue with
  | Some ch => Some ch
  | None => largest_first cs nTargetValue
  end.

(** Modelled from the spec: [CWallet::SelectCoins] (declared at
    yupostutils.h:821, with the comment "Select a set of coins such that
    nValueRet >= nTargetValue and at least all coins from coinControl are
    selected; Never select unconfirmed coins if they are not ours"), the
    spec's [select].  "Any outputs explicitly pinned via coin_control are
    always included, their value subtracted from the remaining target": they
    are looked up among the coins handed in, and as a chosen set must hold
    every one of them, selection fails when one is not there.  The search
    runs over the other candidates, without those that are unconfirmed and
    not from this wallet "unless coin_control explicitly allows unsafe
    inputs"; it "fails (returns false) when no combination reaches
    target_value".  [Some (setCoinsRet, nValueRet)] is a [true] return. *)
Definition SelectCoins (vAvailableCoins : list COutput)
    (nTargetValue : CAmount) (coin_control : CCoinControl)
  : option (list COutput * CAmount) :=
  if bool_decide (pinned_at_hand coin_control vAvailableCoins) then
    let preset := filter (is_pinned coin_control) vAvailableCoins in
    let others := filter (searchable coin_control) vAvailableCoins in
    if bool_decide (nTargetValue - total preset <= 0)
    then Some (preset, total preset)
    else
      match SelectCoinsMinConf (nTargetValue - total preset) others with
      | Some ch => Some (preset ++ ch, total preset + total ch)
      | None => None
      end
  else None.

End Select.

End CoinSelection.

(** ** The transaction builder, between the sender and the selector *)

Module TransactionBuilder.

Import CWallet CoinSelection WalletModel.

(** The calls the builder makes into the selector. *)
Inductive BuilderEvent : Set :=
  | CallSelectCoins (nTargetValue : CAmount).

Section Builder.

Context {CTransactionRef CScript CCoinControl : Type}.
Variable pinned : CCoinControl -> gset COutPoint.
Variable allow_unsafe : CCoinControl -> bool.
Variable branch_and_bound : list COutput -> CAmount -> option (list COutput).

(** What the builder takes from its collaborators: the Output Catalog's
    coins for a coin control ([CWallet::AvailableCoins]), the estimated fee
    ("supplied by the caller, not computed here"), the signed transaction
    made of "a selected coin set + recipients" with the position of its
    change output, and the "human-readable reason" of a failed selection. *)
Variable AvailableCoins : CCoinControl -> list COutput.
Variable estimated_fee : list (CRecipient CScript) -> CAmount.
Variable build :
  list COutput -> list (CRecipient CScript) -> bool -> CTransactionRef * Z.
Variable insufficient_funds : string.

(** The value the recipients are to receive. *)
Definition send_value (vecSend : list (CRecipient CScript)) : CAmount :=
  foldr (λ recipient acc, nAmount recipient + acc) 0 vecSend.

(** The target handed to the selector: the value to send "plus estimated
    fees". *)
Definition selection_target (vecSend : list (CRecipient CScript)) : CAmount :=
  send_value vecSend + estimated_fee vecSend.

(** Modelled from the spec: [CWallet::CreateTransaction] (declared at
    yupostutils.h:1083, "Create a new transaction paying the recipients with
    a set of coins selected by SelectCoins()"; body not in the sources), the
    spec's Transaction Builder, which "turns a selected coin set + recipients
    into a signed transaction" and is "described only at the interface
    level".  A selection that fails is a policy failure, "reported
    synchronously to the caller as a typed failure with a human-readable
    reason" and "never silently retried": no transaction comes back, the
    reason is set, and the selector has been asked once.  The result is what
    the call leaves in its reference arguments, with the calls made. *)
Definition CreateTransaction (vecSend : list (CRecipient CScript))
    (coin_control : CCoinControl) (sign : bool)
  : Created CTransactionRef * list BuilderEvent :=
  let nFeeRet := estimated_fee vecSend in
  let nTargetValue := selection_target vecSend in
  match SelectCoins pinned allow_unsafe branch_and_bound
          (AvailableCoins coin_control) nTargetValue coin_control with
  | Some (setCoins, _) =>
      let built := build setCoins vecSend sign in
      (mkCreated (Some built.1) built.2 nFeeRet EmptyString,
       [CallSelectCoins nTargetValue])
  | None =>
      (mkCreated None (-1) nFeeRet insufficient_funds,
       [CallSelectCoins nTargetValue])
  end.

(** Modelled from the spec: [interfaces::Wallet::createTransaction]
    (interfaces/wallet.cpp is not in the sources) is the "transaction-creation
    entry point" the core exposes to the UI layer: a wallet interface is
    backed by the builder when its [createTransaction] answers with what
    [CreateTransaction] leaves. *)
Definition backed_by_builder {WalletBalances : Type}
    (m_wallet : Wallet CTransactionRef CScript CCoinControl WalletBalances)
  : Prop :=
  ∀ vecSend coin_control sign,
    createTransaction m_wallet vecSend coin_control sign
    = (CreateTransaction vecSend coin_control sign).1.

End Builder.

End TransactionBuilder.

(** ** Sample data

    Concrete transactions, wallets and requests on which the properties below
    are run.  Transactions are named by a number, which is also their hash. *)

Module Samples.

Import CWalletTx.

Definition ABANDON_HASH : uint256 := 1%N.
Definition ToString (z : Z) : string := pretty z.
Definition atoi64 (s : string) : Z := 0.

Definition fresh : CWalletTx.t N := create None 7%N.

(** Confirmed in block 5 at height 100, third in the block. *)
Definition confirmed : CWalletTx.t N :=
  set_confirm (mkConfirmation CONFIRMED 100 5%N 2) fresh.

(** Confirmed, with the index field holding -1. *)
Definition confirmed_marker : CWalletTx.t N :=
  set_confirm (mkConfirmation CONFIRMED 100 5%N (-1)) fresh.

(** Conflicting with block 9 at height 118. *)
Definition conflicted : CWalletTx.t N :=
  set_confirm (mkConfirmation CONFLICTED 118 9%N 0) fresh.


Definition stored : Stream N :=
  mkStream 7%N 5%N [] 2 [] ∅ [] 0 1700000000 true false.

(** A wallet that tracks transaction 7 as abandoned; its tip is at 120. *)
Definition wallet : CWallet.t N :=
  CWallet.mk {[ 7%N := setAbandoned fresh ]} ∅ 120.

Definition GetHash (ptx : N) : uint256 := ptx.
Definition vin (ptx : N) : list CWallet.COutPoint := [].
Definition involvesMe (ptx : N) : bool := false.

(** Candidates: one confirmed output and one unconfirmed output received from
    outside. *)
Definition settled : CoinSelection.COutput :=
  CoinSelection.mkCOutput (1%N, 0%N) 50 false 3 148 true true false true.

Definition foreign : CoinSelection.COutput :=
  CoinSelection.mkCOutput (2%N, 0%N) 70 false 0 148 true true false false.

Definition candidates : list CoinSelection.COutput := [settled; foreign].

(** A search for a subset with exactly the target value, standing in for the
    first stage of the selector. *)
Fixpoint exact_match (cs : list CoinSelection.COutput) (target : CAmount)
  : option (list CoinSelection.COutput) :=
  match cs with
  | [] => if bool_decide (target = 0) then Some [] else None
  | c :: rest =>
      match exact_match rest (target - CoinSelection.nValue c) with
      | Some ch => Some (c :: ch)
      | None => exact_match rest target
      end
  end.

(** A coin control as the samples need it: the pinned outpoints, and whether
    unsafe inputs are allowed. *)
Record Control : Type := mkControl {
  pins : gset CWallet.COutPoint;
  unsafe : bool
}.

Definition no_control : Control := mkControl ∅ false.


(** A wallet with 100 available, a maximum fee of 50, whose transaction
    creation fails asking for a fee of 95, and whose locks are taken. *)
Definition short_wallet : WalletModel.Wallet N string unit Z :=
  WalletModel.mkWallet
    (λ _, 100)
    (λ _ _ _, WalletModel.mkCreated None (-1) 95 "Insufficient funds")
    50 false
    (λ _ _ _, None).

Definition IsValidDestinationString (a : string) : bool := true.
Definition scriptForAddress (a : string) : string := a.
Definition reassignAmounts (pos : Z)
    (t : WalletModel.WalletModelTransaction N)
  : WalletModel.WalletModelTransaction N := t.

Definition plain_request : WalletModel.WalletModelTransaction N :=
  WalletModel.mkWMT
    [WalletModel.mkRecipient "A" "alice" 10 EmptyString false] None 0.

Definition fee_subtracted_request : WalletModel.WalletModelTransaction N :=
  WalletModel.mkWMT
    [WalletModel.mkRecipient "A" "alice" 10 EmptyString true] None 0.

(** A builder over the two candidates: an estimated fee of 5, transaction 8
    with its change at position 1 as the built transaction; and a wallet
    interface with 1000 available that is backed by it. *)
Definition AvailableCoins (cc : Control) : list CoinSelection.COutput :=
  candidates.

Definition estimated_fee (vecSend : list (WalletModel.CRecipient string))
  : CAmount := 5.

Definition build (ch : list CoinSelection.COutput)
    (vecSend : list (WalletModel.CRecipient string)) (sign : bool) : N * Z :=
  (8%N, 1).

Definition built_wallet : WalletModel.Wallet N string Control Z :=
  WalletModel.mkWallet
    (λ _, 1000)
    (λ vecSend cc sign,
       (TransactionBuilder.CreateTransaction pins unsafe exact_match
          AvailableCoins estimated_fee build "Insufficient funds"
          vecSend cc sign).1)
    50 false
    (λ _ _ _, None).

(** 500 to one address, more than the candidates hold. *)
Definition large_request : WalletModel.WalletModelTransaction N :=
  WalletModel.mkWMT
    [WalletModel.mkRecipient "A" "alice" 500 EmptyString false] None 0.

Definition balanceChanged (a b : Z) : bool := negb (a =? b).

Definition synced_node : WalletModel.Node := WalletModel.mkNode (Some (101, false)).

Definition model : WalletModel.t Z := WalletModel.mk 4 100 true 42 false false.

End Samples.

(** ** CWallet: inline members of the class (yupostutils.h) *)

Module CWalletInline.

(** *** Wallet format version *)

(** [nWalletVersion] and [nWalletMaxVersion]; both start at [FEATURE_BASE]
    (wallet/walletutil.h). *)
Record Versions : Set := mkVersions {
  nWalletVersion : Z;
  nWalletMaxVersion : Z
}.

Definition Versions_initial (FEATURE_BASE : Z) : Versions :=
  mkVersions FEATURE_BASE FEATURE_BASE.

(** [bool CanSupportFeature(enum WalletFeature wf) const] *)
Definition CanSupportFeature (wf : Z) (v : Versions) : bool :=
  bool_decide (nWalletMaxVersion v >= wf).

(** [bool LoadMinVersion(int nVersion)]: always returns [true]. *)
Definition LoadMinVersion (nVersion : Z) (v : Versions) : bool * Versions :=
  (true, mkVersions nVersion (Z.max (nWalletMaxVersion v) nVersion)).

(** [int GetVersion() const] *)
Definition GetVersion (v : Versions) : Z := nWalletVersion v.

(** *** Last block processed *)

(** [m_last_block_processed] and [m_last_block_processed_height], the latter
    initialized to -1. *)
Record Tip : Set := mkTip {
  m_last_block_processed : uint256;
  m_last_block_processed_height : Z
}.

Definition Tip_initial : Tip := mkTip uint256_zero (-1).

(** [int GetLastBlockHeight() const]: [None] is the failed
    [assert(m_last_block_processed_height >= 0)]. *)
Definition GetLastBlockHeight (t : Tip) : option Z :=
  if bool_decide (m_last_block_processed_height t >= 0)
  then Some (m_last_block_processed_height t) else None.

(** [void SetLastBlockProcessed(int block_height, uint256 block_hash)] *)
Definition SetLastBlockProcessed (block_height : Z) (block_hash : uint256)
    (t : Tip) : Tip :=
  mkTip block_hash block_height.

(** *** Display name *)

(** [const std::string GetDisplayName() const], on the wallet's name
    [GetName()]; [strprintf("[%s]", wallet_name)] puts the name in square
    brackets. *)
Definition GetDisplayName (name : string) : string :=
  let wallet_name :=
    if bool_decide (String.length name = 0%nat) then "default wallet"%string
    else name in
  ("[" +:+ wallet_name +:+ "]")%string.

(** *** Rescan state and its reservation *)

Section WithDouble.

(** [double], of which only the literal 0 is used here. *)
Context {double : Type}.
Variable double_zero : double.

(** [fAbortRescan], [fScanningWallet], [m_scanning_start] and
    [m_scanning_progress]; a new wallet has them false, false, 0 and 0. *)
Record Scanning : Type := mkScanning {
  fAbortRescan : bool;
  fScanningWallet : bool;
  m_scanning_start : Z;
  m_scanning_progress : double
}.

Definition Scanning_initial : Scanning := mkScanning false false 0 double_zero.

(** [void AbortRescan()] *)
Definition AbortRescan (s : Scanning) : Scanning :=
  mkScanning true (fScanningWallet s) (m_scanning_start s) (m_scanning_progress s).

Definition IsAbortingRescan (s : Scanning) : bool := fAbortRescan s.
Definition IsScanning (s : Scanning) : bool := fScanningWallet s.

(** [int64_t ScanningDuration() const], [now] being [GetTimeMillis()]. *)
Definition ScanningDuration (now : Z) (s : Scanning) : Z :=
  if fScanningWallet s then now - m_scanning_start s else 0.

(** [double ScanningProgress() const] *)
Definition ScanningProgress (s : Scanning) : double :=
  if fScanningWallet s then m_scanning_progress s else double_zero.

(** [class WalletRescanReserver]; its [m_wallet] is the wallet whose
    [Scanning] members the functions below are handed. *)
Record WalletRescanReserver : Set := mkReserver {
  m_could_reserve : bool
}.

(** [explicit WalletRescanReserver(CWallet* w)] *)
Definition Reserver_new : WalletRescanReserver := mkReserver false.

(** [bool reserve()], run at time [now]; [None] is the failed
    [assert(!m_could_reserve)].  The body runs under [mutexScanning]. *)
Definition reserve (now : Z) (s : Scanning) (r : WalletRescanReserver)
  : option (bool * Scanning * WalletRescanReserver) :=
  if m_could_reserve r then None
  else if fScanningWallet s then Some (false, s, r)
  else
    Some (true,
          mkScanning (fAbortRescan s) true now double_zero,
          mkReserver true).

(** [bool isReserved() const] *)
Definition isReserved (s : Scanning) (r : WalletRescanReserver) : bool :=
  m_could_reserve r && fScanningWallet s.

(** [~WalletRescanReserver()]: what it leaves of the wallet. *)
Definition Reserver_destroy (s : Scanning) (r : WalletRescanReserver)
  : Scanning :=
  if m_could_reserve r
  then mkScanning (fAbortRescan s) false (m_scanning_start s)
         (m_scanning_progress s)
  else s.

(** A wallet together with the reservers alive on it, each under a name, and
    what a program may do with them: construct a reserver, call [reserve] on
    one, let one go out of scope, and, as the class declares no copy
    operations of its own, copy-construct reserver [j] from reserver [i]
    or assign [i] to [j]; the implicit operations copy both members. *)
Record Reservers : Type := mkReservers {
  scanning : Scanning;
  alive : gmap nat WalletRescanReserver
}.

Inductive ReserverOp : Set :=
  | Construct (i : nat)
  | Reserve (i : nat) (now : Z)
  | Destroy (i : nat)
  | Copy (i j : nat)
  | Assign (i j : nat).

(** Whether an operation copies a reserver. *)
Definition copies (op : ReserverOp) : bool :=
  match op with
  | Copy _ _ | Assign _ _ => true
  | _ => false
  end.

(** One operation; [None] when a name to be introduced is not free (for
    [Construct] and the target of [Copy]), a name used is not alive, or the
    assertion of [reserve] fails. *)
Definition reserver_step (sys : Reservers) (op : ReserverOp)
  : option Reservers :=
  match op with
  | Construct i =>
      match alive sys !! i with
      | None => Some (mkReservers (scanning sys) (<[i := Reserver_new]> (alive sys)))
      | Some _ => None
      end
  | Reserve i now =>
      r ← alive sys !! i;
      '(_, s', r') ← reserve now (scanning sys) r;
      Some (mkReservers s' (<[i := r']> (alive sys)))
  | Destroy i =>
      r ← alive sys !! i;
      Some (mkReservers (Reserver_destroy (scanning sys) r) (delete i (alive sys)))
  | Copy i j =>
      r ← alive sys !! i;
      match alive sys !! j with
      | None => Some (mkReservers (scanning sys) (<[j := r]> (alive sys)))
      | Some _ => None
      end
  | Assign i j =>
      r ← alive sys !! i;
      _ ← alive sys !! j;
      Some (mkReservers (scanning sys) (<[j := r]> (alive sys)))
  end.

Fixpoint reserver_run (sys : Reservers) (ops : list ReserverOp)
  : option Reservers :=
  match ops with
  | [] => Some sys
  | op :: rest => sys' ← reserver_step sys op; reserver_run sys' rest
  end.

(** At most one reserver alive holds the reservation, and the wallet is
    scanning exactly when one does. *)
Definition reservation_consistent (sys : Reservers) : Prop :=
  (∀ i j ri rj,
     alive sys !! i = Some ri → alive sys !! j = Some rj →
     m_could_reserve ri = true → m_could_reserve rj = true → i = j)
  ∧ (fScanningWallet (scanning sys) = true
     ↔ ∃ i r, alive sys !! i = Some r ∧ m_could_reserve r = true).

End WithDouble.

Arguments Scanning : clear implicits.
Arguments Reservers : clear implicits.

(** *** Address book entry *)

(** [class CAddressBookData] *)
Record CAddressBookData : Type := mkAddressBookData {
  m_change : bool;
  m_label : string;
  purpose : string;
  destdata : gmap string string
}.

(** [CAddressBookData() : purpose("unknown") {}], with [m_change{true}]. *)
Definition CAddressBookData_new : CAddressBookData :=
  mkAddressBookData true EmptyString "unknown" ∅.

Definition IsChange (d : CAddressBookData) : bool := m_change d.
Definition GetLabel (d : CAddressBookData) : string := m_label d.

(** [void SetLabel(const std::string& label)] *)
Definition SetLabel (label : string) (d : CAddressBookData) : CAddressBookData :=
  mkAddressBookData false label (purpose d) (destdata d).

End CWalletInline.

(** ** Token, delegation and super staker records (yupostutils.h)

    Each class describes its stored form once, in [SerializationOp], which
    [ADD_SERIALIZE_METHODS] runs for writing and for reading.  The stream is
    the sequence of values that [READWRITE] hands over, in order; a stream of
    type [SER_GETHASH] is the one the identifying hash is taken of. *)

Module DataStream.

(** What [READWRITE] writes for the field types in use: integers of any
    width, strings, 160- and 256-bit blobs, booleans, vectors of blobs. *)
Inductive Item : Set :=
  | IInt (z : Z)
  | IStr (s : string)
  | IBlob (h : N)
  | IBool (b : bool)
  | IVec (v : list N).

Definition read_int (s : list Item) : option (Z * list Item) :=
  match s with IInt z :: rest => Some (z, rest) | _ => None end.

Definition read_str (s : list Item) : option (string * list Item) :=
  match s with IStr x :: rest => Some (x, rest) | _ => None end.

Definition read_blob (s : list Item) : option (N * list Item) :=
  match s with IBlob h :: rest => Some (h, rest) | _ => None end.

Definition read_bool (s : list Item) : option (bool * list Item) :=
  match s with IBool b :: rest => Some (b, rest) | _ => None end.

Definition read_vec (s : list Item) : option (list N * list Item) :=
  match s with IVec v :: rest => Some (v, rest) | _ => None end.

(** Reading through [LIMITED_STRING(., limit)] (serialize.h): the string is
    taken when [accepts limit] lets it pass; writing is that of a string. *)
Definition read_limited (accepts : Z → string → bool) (limit : Z)
    (s : list Item) : option (string * list Item) :=
  match s with
  | IStr x :: rest => if accepts limit x then Some (x, rest) else None
  | _ => None
  end.

End DataStream.

Module CTokenInfo.

Import DataStream.

Record t : Set := mk {
  nVersion : Z;
  strContractAddress : string;
  strTokenName : string;
  strTokenSymbol : string;
  nDecimals : Z;
  strSenderAddress : string;
  nCreateTime : Z;
  blockHash : uint256;
  blockNumber : Z
}.

(** [static const int CURRENT_VERSION=1] *)
Definition CURRENT_VERSION : Z := 1.

(** [void SetNull()], which is also the state after the constructor. *)
Definition SetNull : t :=
  mk CURRENT_VERSION EmptyString EmptyString EmptyString 0 EmptyString 0
     uint256_zero (-1).

(** [SerializationOp] run for writing. *)
Definition Serialize (for_hash : bool) (x : t) : list Item :=
  (if for_hash then []
   else [IInt (nVersion x); IInt (nCreateTime x); IStr (strTokenName x);
         IStr (strTokenSymbol x); IBlob (blockHash x); IInt (blockNumber x)])
  ++ [IInt (nDecimals x); IStr (strContractAddress x);
      IStr (strSenderAddress x)].

(** [SerializationOp] run for reading into [x]: the object read and the rest
    of the stream; [None] when the stream does not hold the next field. *)
Definition Unserialize (for_hash : bool) (s : list Item) (x : t)
  : option (t * list Item) :=
  '(x, s) ←
    (if for_hash then Some (x, s)
     else
       '(version, s) ← read_int s;
       '(create_time, s) ← read_int s;
       '(name, s) ← read_str s;
       '(symbol, s) ← read_str s;
       '(hash, s) ← read_blob s;
       '(number, s) ← read_int s;
       Some (mk version (strContractAddress x) name symbol (nDecimals x)
               (strSenderAddress x) create_time hash number, s));
  '(decimals, s) ← read_int s;
  '(contract, s) ← read_str s;
  '(sender, s) ← read_str s;
  Some (mk (nVersion x) contract (strTokenName x) (strTokenSymbol x) decimals
          sender (nCreateTime x) (blockHash x) (blockNumber x), s).

End CTokenInfo.

Module CTokenTx.

Import DataStream.

Record t : Set := mk {
  nVersion : Z;
  strContractAddress : string;
  strSenderAddress : string;
  strReceiverAddress : string;
  nValue : uint256;
  transactionHash : uint256;
  nCreateTime : Z;
  blockHash : uint256;
  blockNumber : Z;
  strLabel : string
}.

Definition CURRENT_VERSION : Z := 1.

Definition SetNull : t :=
  mk CURRENT_VERSION EmptyString EmptyString EmptyString uint256_zero
     uint256_zero 0 uint256_zero (-1) EmptyString.

Definition Serialize (for_hash : bool) (x : t) : list Item :=
  (if for_hash then []
   else [IInt (nVersion x); IInt (nCreateTime x); IBlob (blockHash x);
         IInt (blockNumber x); IStr (strLabel x)])
  ++ [IStr (strContractAddress x); IStr (strSenderAddress x);
      IStr (strReceiverAddress x); IBlob (nValue x);
      IBlob (transactionHash x)].

Definition Unserialize (accepts : Z → string → bool) (for_hash : bool)
    (s : list Item) (x : t) : option (t * list Item) :=
  '(x, s) ←
    (if for_hash then Some (x, s)
     else
       '(version, s) ← read_int s;
       '(create_time, s) ← read_int s;
       '(hash, s) ← read_blob s;
       '(number, s) ← read_int s;
       '(label, s) ← read_limited accepts 65536 s;
       Some (mk version (strContractAddress x) (strSenderAddress x)
               (strReceiverAddress x) (nValue x) (transactionHash x)
               create_time hash number label, s));
  '(contract, s) ← read_str s;
  '(sender, s) ← read_str s;
  '(receiver, s) ← read_str s;
  '(value, s) ← read_blob s;
  '(txhash, s) ← read_blob s;
  Some (mk (nVersion x) contract sender receiver value txhash (nCreateTime x)
          (blockHash x) (blockNumber x) (strLabel x), s).

End CTokenTx.

Module CDelegationInfo.

Import DataStream.

Record t : Set := mk {
  nVersion : Z;
  nCreateTime : Z;
  nFee : Z;
  delegateAddress : N;
  stakerAddress : N;
  strStakerName : string;
  blockNumber : Z;
  createTxHash : uint256;
  removeTxHash : uint256
}.

Definition CURRENT_VERSION : Z := 1.

Definition SetNull : t :=
  mk CURRENT_VERSION 0 0 0%N 0%N EmptyString (-1) uint256_zero uint256_zero.

Definition Serialize (for_hash : bool) (x : t) : list Item :=
  (if for_hash then []
   else [IInt (nVersion x); IInt (nCreateTime x); IInt (nFee x);
         IInt (blockNumber x); IBlob (createTxHash x);
         IBlob (removeTxHash x)])
  ++ [IBlob (delegateAddress x); IBlob (stakerAddress x);
      IStr (strStakerName x)].

Definition Unserialize (for_hash : bool) (s : list Item) (x : t)
  : option (t * list Item) :=
  '(x, s) ←
    (if for_hash then Some (x, s)
     else
       '(version, s) ← read_int s;
       '(create_time, s) ← read_int s;
       '(fee, s) ← read_int s;
       '(number, s) ← read_int s;
       '(created, s) ← read_blob s;
       '(removed, s) ← read_blob s;
       Some (mk version create_time fee (delegateAddress x) (stakerAddress x)
               (strStakerName x) number created removed, s));
  '(delegate, s) ← read_blob s;
  '(staker, s) ← read_blob s;
  '(name, s) ← read_str s;
  Some (mk (nVersion x) (nCreateTime x) (nFee x) delegate staker name
          (blockNumber x) (createTxHash x) (removeTxHash x), s).

End CDelegationInfo.

Module CSuperStakerInfo.

Import DataStream.

Record t : Set := mk {
  nVersion : Z;
  nCreateTime : Z;
  stakerAddress : N;
  strStakerName : string;
  fCustomConfig : bool;
  nMinFee : Z;
  nMinDelegateUtxo : CAmount;
  delegateAddressList : list N;
  nDelegateAddressType : Z
}.

Definition CURRENT_VERSION : Z := 1.

Definition SetNull : t :=
  mk CURRENT_VERSION 0 0%N EmptyString false 0 0 [] 0.

Definition Serialize (for_hash : bool) (x : t) : list Item :=
  (if for_hash then []
   else [IInt (nVersion x); IInt (nCreateTime x); IInt (nMinFee x);
         IBool (fCustomConfig x); IInt (nMinDelegateUtxo x);
         IVec (delegateAddressList x); IInt (nDelegateAddressType x)])
  ++ [IBlob (stakerAddress x); IStr (strStakerName x)].

Definition Unserialize (for_hash : bool) (s : list Item) (x : t)
  : option (t * list Item) :=
  '(x, s) ←
    (if for_hash then Some (x, s)
     else
       '(version, s) ← read_int s;
       '(create_time, s) ← read_int s;
       '(min_fee, s) ← read_int s;
       '(custom, s) ← read_bool s;
       '(min_utxo, s) ← read_int s;
       '(delegates, s) ← read_vec s;
       '(address_type, s) ← read_int s;
       Some (mk version create_time (stakerAddress x) (strStakerName x)
               custom min_fee min_utxo delegates address_type, s));
  '(staker, s) ← read_blob s;
  '(name, s) ← read_str s;
  Some (mk (nVersion x) (nCreateTime x) staker name (fCustomConfig x)
          (nMinFee x) (nMinDelegateUtxo x) (delegateAddressList x)
          (nDelegateAddressType x), s).

End CSuperStakerInfo.

(** ** WalletModel: the other slots (qt/walletmodel.cpp) *)

Module WalletModelMore.

Import WalletModel.

(** *** Encryption status *)

(** [enum EncryptionStatus] *)
Inductive EncryptionStatus : Set := Unencrypted | Locked | Unlocked.

#[global] Instance EncryptionStatus_eq_dec : EqDecision EncryptionStatus.
Proof. solve_decision. Defined.

(** [EncryptionStatus WalletModel::getEncryptionStatus() const], on the
    answers of [m_wallet->isCrypted()] and [m_wallet->isLocked()]. *)
Definition getEncryptionStatus (isCrypted isLocked : bool) : EncryptionStatus :=
  if negb isCrypted then Unencrypted
  else if isLocked then Locked
  else Unlocked.

(** [void WalletModel::updateStatus()]: the member [cachedEncryptionStatus]
    afterwards, and how often [encryptionStatusChanged] was emitted. *)
Definition updateStatus (isCrypted isLocked : bool)
    (cachedEncryptionStatus : EncryptionStatus) : EncryptionStatus * nat :=
  let newEncryptionStatus := getEncryptionStatus isCrypted isLocked in
  if bool_decide (cachedEncryptionStatus ≠ newEncryptionStatus)
  then (cachedEncryptionStatus, 1%nat)
  else (cachedEncryptionStatus, 0%nat).

(** [updateStatus] called once per observed wallet state, oldest first. *)
Definition updateStatus_each (observed : list (bool * bool))
    (cached : EncryptionStatus) : EncryptionStatus * nat :=
  foldl (λ acc o, let r := updateStatus o.1 o.2 acc.1 in (r.1, (acc.2 + r.2)%nat))
        (cached, 0%nat) observed.

(** *** Unsigned transactions and the hardware tool *)

(** What the three predicates below ask their surroundings:
    [::Params().HasHardwareWalletSupport()], [wallet().privateKeysDisabled()],
    [gArgs.GetBoolArg("-signpsbtwithhwitool", ...)] and
    [QFile::exists(GUIUtil::getHwiToolPath())]. *)
Record Signing : Set := mkSigning {
  HasHardwareWalletSupport : bool;
  keysDisabled : bool;
  signpsbtwithhwitool : bool;
  hwiToolExists : bool
}.

(** [bool WalletModel::getSignPsbtWithHwiTool()] *)
Definition getSignPsbtWithHwiTool (e : Signing) : bool :=
  if negb (HasHardwareWalletSupport e) then false
  else keysDisabled e && signpsbtwithhwitool e.

(** [bool WalletModel::createUnsigned()] *)
Definition createUnsigned (e : Signing) : bool :=
  if keysDisabled e then
    if negb (HasHardwareWalletSupport e) then true
    else if hwiToolExists e then negb (getSignPsbtWithHwiTool e)
    else true
  else false.

(** *** The worker's checks *)

Section Worker.

Context {WalletBalances : Type}.

Inductive WorkerEvent : Type :=
  | CallTryGetAvailableAddresses
  | CallTryGetStakeWeight
  | EmitAvailableAddressesChanged (spendable all : list string)
      (includeZeroValue : bool).

(** [void WalletModel::checkCoinAddresses()] *)
Definition checkCoinAddresses (m : WalletModel.t WalletBalances)
  : WalletModel.t WalletBalances :=
  WalletModel.mk (pollNum m) (cachedNumBlocks m) (fForceCheckBalanceChanged m)
    (m_cached_balances m) true (updateStakeWeight m).

(** [void WalletModel::checkCoinAddressesChanged()].
    [tryGetAvailableAddresses] is the wallet's answer when asked: [None] for
    [false], else the two address lists and [includeZeroValue] after the
    call. *)
Definition checkCoinAddressesChanged
    (tryGetAvailableAddresses : option (list string * list string * bool))
    (m : WalletModel.t WalletBalances)
  : WalletModel.t WalletBalances * list WorkerEvent :=
  if updateCoinAddresses m then
    match tryGetAvailableAddresses with
    | Some (spendableAddresses, allAddresses, includeZeroValue) =>
        (WalletModel.mk (pollNum m) (cachedNumBlocks m)
           (fForceCheckBalanceChanged m) (m_cached_balances m) false
           (updateStakeWeight m),
         [CallTryGetAvailableAddresses;
          EmitAvailableAddressesChanged spendableAddresses allAddresses
            includeZeroValue])
    | None => (m, [CallTryGetAvailableAddresses])
    end
  else (m, []).

(** [void WalletModel::checkStakeWeightChanged()].  [tryGetStakeWeight] takes
    the member [nWeight] and gives the call's result and [nWeight] after
    it. *)
Definition checkStakeWeightChanged (tryGetStakeWeight : Z → bool * Z)
    (m : WalletModel.t WalletBalances) (nWeight : Z)
  : WalletModel.t WalletBalances * Z * list WorkerEvent :=
  if updateStakeWeight m then
    let r := tryGetStakeWeight nWeight in
    if r.1 then
      (WalletModel.mk (pollNum m) (cachedNumBlocks m)
         (fForceCheckBalanceChanged m) (m_cached_balances m)
         (updateCoinAddresses m) false,
       r.2, [CallTryGetStakeWeight])
    else (m, r.2, [CallTryGetStakeWeight])
  else (m, nWeight, []).

(** [checkCoinAddressesChanged] run once per answer of the wallet, oldest
    first: the model after the last run and all events. *)
Fixpoint checkCoinAddressesChanged_each
    (answers : list (option (list string * list string * bool)))
    (m : WalletModel.t WalletBalances)
  : WalletModel.t WalletBalances * list WorkerEvent :=
  match answers with
  | [] => (m, [])
  | answer :: rest =>
      let r := checkCoinAddressesChanged answer m in
      let r' := checkCoinAddressesChanged_each rest r.1 in
      (r'.1, r.2 ++ r'.2)
  end.

(** [pollBalanceChanged] run [n] times against the same node and wallet: the
    model after the last run and all events, oldest first. *)
Fixpoint poll_times (balanceChanged : WalletBalances → WalletBalances → bool)
    {CTransactionRef CScript CCoinControl : Type}
    (m_node : Node)
    (m_wallet : Wallet CTransactionRef CScript CCoinControl WalletBalances)
    (n : nat) (m : WalletModel.t WalletBalances)
  : WalletModel.t WalletBalances * list (PollEvent WalletBalances) :=
  match n with
  | O => (m, [])
  | S n' =>
      let r := pollBalanceChanged balanceChanged m_node m_wallet m in
      let r' := poll_times balanceChanged m_node m_wallet n' r.1 in
      (r'.1, r.2 ++ r'.2)
  end.

End Worker.

Arguments WorkerEvent : clear implicits.

(** *** Receive requests *)

Inductive DestDataCall : Type :=
  | EraseDestData (address key : string)
  | AddDestData (address key value : string).

(** The key a call names. *)
Definition call_key (c : DestDataCall) : string :=
  match c with
  | EraseDestData _ key => key
  | AddDestData _ key _ => key
  end.

(** The key under which request [nId] is kept: "rr" and the number in
    decimal ([ss << nId]). *)
Definition receive_request_key (nId : Z) : string := ("rr" +:+ pretty nId)%string.

(** [bool WalletModel::saveReceiveRequest(sAddress, nId, sRequest)]: the call
    made on the wallet, whose result is returned. *)
Definition saveReceiveRequest (sAddress : string) (nId : Z) (sRequest : string)
  : DestDataCall :=
  let key := receive_request_key nId in
  if bool_decide (String.length sRequest = 0%nat)
  then EraseDestData sAddress key
  else AddDestData sAddress key sRequest.

(** *** Hardware wallet set-up *)

(** The members that [importAddressesData] sets and [checkHardwareWallet]
    reads, with [fingerprint]. *)
Record Hardware : Set := mkHardware {
  hardwareWalletInitRequired : bool;
  fingerprint : string;
  rescan : bool;
  importPKH : bool;
  importP2SH : bool;
  importBech32 : bool;
  pathPKH : string;
  pathP2SH : string;
  pathBech32 : string
}.

(** [void WalletModel::importAddressesData(...)] *)
Definition importAddressesData (_rescan _importPKH _importP2SH _importBech32 : bool)
    (_pathPKH _pathP2SH _pathBech32 : string) (h : Hardware) : Hardware :=
  mkHardware true (fingerprint h) _rescan _importPKH _importP2SH _importBech32
    _pathPKH _pathP2SH _pathBech32.

Inductive KeyKind : Set := PKH | P2SH | Bech32.

(** [class YuPostHwiTool] (qt/yuposthwitool.h), as one run of
    [checkHardwareWallet] sees the tool it creates: the answers of
    [isConnected], of the three [getKeyPool...] calls (result and
    descriptors) and of [importMulti], and the text [errorMessage()] gives
    when read after a failed import of each kind. *)
Record HwiTool : Type := mkHwiTool {
  isConnected : string → bool → bool;
  getKeyPool : KeyKind → string → string → bool * list string;
  importMulti : list string → bool;
  errorMessage : KeyKind → string
}.

Inductive HardwareEvent : Set :=
  | ImportMulti (desc : list string)
  | RescanBlockchain
  | EmitImportMessage (title text : string).

Definition newline : string := String (Ascii.ascii_of_nat 10) EmptyString.

(** The source text of the three "Import ... failed.\n" messages. *)
Definition import_failed (kind : KeyKind) : string :=
  match kind with
  | PKH => "Import PKH failed." +:+ newline
  | P2SH => "Import P2SH failed." +:+ newline
  | Bech32 => "Import Bech32 failed." +:+ newline
  end%string.

(** One of the three [if(import...) { ... }] blocks: the locals [error] and
    [errorMessage] and the events so far go in and come out. *)
Definition import_block (tool : HwiTool) (h : Hardware) (kind : KeyKind)
    (requested : bool) (path : string) (first : bool)
    (st : bool * string * list HardwareEvent)
  : bool * string * list HardwareEvent :=
  let '(error, message, events) := st in
  if requested then
    let r := getKeyPool tool kind (fingerprint h) path in
    let imported := if r.1 then Some (importMulti tool r.2) else None in
    let events := match imported with
                  | Some _ => events ++ [ImportMulti r.2]
                  | None => events
                  end in
    let OK := match imported with Some ok => ok | None => false end in
    if negb OK then
      let message :=
        if first then import_failed kind +:+ errorMessage tool kind
        else
          (if bool_decide (String.length message = 0%nat) then message
           else message +:+ newline +:+ newline)
          +:+ import_failed kind +:+ errorMessage tool kind in
      (true, message, events)
    else (error, message, events)
  else st.

(** [void WalletModel::checkHardwareWallet()]; [tr] leaves the source text as
    it is. *)
Definition checkHardwareWallet (tool : HwiTool) (h : Hardware)
  : Hardware * list HardwareEvent :=
  if hardwareWalletInitRequired h then
    let '(error, message, events) :=
      if isConnected tool (fingerprint h) false then
        let st := (false, EmptyString, []) in
        let st := import_block tool h PKH (importPKH h) (pathPKH h) true st in
        let st := import_block tool h P2SH (importP2SH h) (pathP2SH h) false st in
        let st := import_block tool h Bech32 (importBech32 h) (pathBech32 h) false st in
        let '(error, message, events) := st in
        if rescan h && negb error
        then (error, message, events ++ [RescanBlockchain])
        else st
      else (true, "Ledger not connected."%string, []) in
    let events :=
      if error then
        let message :=
          if bool_decide (String.length message = 0%nat)
          then "unknown error"%string else message in
        events ++ [EmitImportMessage "Import addresses" message]
      else events in
    (mkHardware false (fingerprint h) (rescan h) (importPKH h) (importP2SH h)
       (importBech32 h) (pathPKH h) (pathP2SH h) (pathBech32 h),
     events)
  else (h, []).

(** Whether the import of one kind, if asked for, goes through: the key pool
    is read and [importMulti] takes it. *)
Definition import_succeeds (tool : HwiTool) (h : Hardware) (kind : KeyKind)
    (requested : bool) (path : string) : bool :=
  negb requested
  || (let r := getKeyPool tool kind (fingerprint h) path in
      r.1 && importMulti tool r.2).

Definition imports_succeed (tool : HwiTool) (h : Hardware) : bool :=
  import_succeeds tool h PKH (importPKH h) (pathPKH h)
  && import_succeeds tool h P2SH (importP2SH h) (pathP2SH h)
  && import_succeeds tool h Bech32 (importBech32 h) (pathBech32 h).

(** *** Hardware devices *)

Section Devices.

(** [class HWDevice]: what is used of it are [fingerprint] and [isValid()]. *)
Context {HWDevice : Type}.
Variable device_fingerprint : HWDevice → string.
Variable isValid : HWDevice → bool.

(** [DEVICE_UPDATE_DELAY] (qt/walletmodel.h) *)
Variable DEVICE_UPDATE_DELAY : Z.

(** The [for] loop over the enumerated devices. *)
Definition matching_devices (wanted : string) (found : list HWDevice)
  : list HWDevice :=
  List.filter
    (λ device, isValid device && bool_decide (device_fingerprint device = wanted))
    found.

(** One of the two "Get ... device" blocks; [enumerate] is the tool's answer
    (result and list). *)
Definition devices_for (wanted : string) (enumerate : bool * list HWDevice)
  : list HWDevice :=
  if negb (bool_decide (String.length wanted = 0%nat)) then
    if enumerate.1 then matching_devices wanted enumerate.2 else []
  else [].

(** [void WalletModel::checkHardwareDevice()]: the members [deviceTime] and
    [devices] afterwards.  [time] and [time_after] are the two readings of
    [GetTimeMillis()], [fingerprint_stake] is [getFingerprint(true)],
    [fingerprint_not_stake] is [getFingerprint()], [enumerate stake] what a
    tool answers to [enumerate(_devices, stake)]. *)
Definition checkHardwareDevice (time time_after : Z)
    (fingerprint_stake fingerprint_not_stake : string)
    (enumerate : bool → bool * list HWDevice)
    (deviceTime : Z) (devices : list HWDevice) : Z * list HWDevice :=
  if bool_decide (time > DEVICE_UPDATE_DELAY + deviceTime) then
    let tmpDevices :=
      devices_for fingerprint_stake (enumerate true)
      ++ devices_for fingerprint_not_stake (enumerate false) in
    (time_after, tmpDevices)
  else (deviceTime, devices).

End Devices.

End WalletModelMore.

(** ** Qt widgets (qt/yupostversionchecker.cpp, qt/yupostpushbutton.cpp) *)

Module YuPostVersionChecker.

(** [QString::mid(position, n)] for a position that is not negative: the [n]
    characters from [position] on, or all that are left when [n] is negative
    or reaches past the end; nothing when [position] is past the end. *)
Definition mid (position n : Z) (s : string) : string :=
  let len := Z.of_nat (String.length s) in
  if bool_decide (position > len) then EmptyString
  else if bool_decide (n < 0 ∨ n > len - position)
       then String.substring (Z.to_nat position) (Z.to_nat (len - position)) s
       else String.substring (Z.to_nat position) (Z.to_nat n) s.

(** [match.captured().mid(5, match.captured().length() - 6)] *)
Definition versionString (captured : string) : string :=
  mid 5 (Z.of_nat (String.length captured) - 6) captured.

(** The text [paternVersion] matches around a version [v]. *)
Definition release_name (v : string) : string := ("yupost-" +:+ v +:+ "-")%string.

Section WithVersion.

(** [class Version] (qt/yupostversionchecker.h): its constructor from a
    string, [operator==], [operator<], [operator>] and the
    default-constructed value. *)
Context {Version : Type}.
Variable Version_of_string : string → Version.
Variable Version_eq Version_lt Version_gt : Version → Version → bool.
Variable Version_default : Version.

(** The [while] loop of [getVersions], over the matches of [paternVersion]
    in the downloaded page, in their order. *)
Definition getVersions (captures : list string) : list Version :=
  foldl (λ versions captured,
           let version := Version_of_string (versionString captured) in
           if negb (existsb (λ v, Version_eq v version) versions)
           then versions ++ [version]
           else versions)
        [] captures.

(** [std::max_element(first, last)] past its first element: [largest] moves
    on to an element only when it is smaller than that element. *)
Fixpoint max_element_from (largest : Version) (rest : list Version) : Version :=
  match rest with
  | [] => largest
  | first :: rest =>
      max_element_from (if Version_lt largest first then first else largest) rest
  end.

(** [Version YuPostVersionChecker::getMaxReleaseVersion()] *)
Definition getMaxReleaseVersion (captures : list string) : Version :=
  match getVersions captures with
  | [] => Version_default
  | first :: rest => max_element_from first rest
  end.

(** [bool YuPostVersionChecker::newVersionAvailable()] *)
Definition newVersionAvailable (currentVersion : Version)
    (captures : list string) : bool :=
  Version_gt (getMaxReleaseVersion captures) currentVersion.

End WithVersion.

End YuPostVersionChecker.

Module YuPostPushButton.

Section WithIcons.

(** [QIcon] and [QSize]; [isNull] is [QIcon::isNull], [selected_icon icon
    size] is [QIcon(icon.pixmap(size, QIcon::Selected, QIcon::On))]. *)
Context {QIcon QSize : Type}.
Variable isNull : QIcon → bool.
Variable selected_icon : QIcon → QSize → QIcon.

(** The two members of [YuPostPushButton]. *)
Record t : Type := mk {
  m_iconCached : bool;
  m_downIcon : QIcon
}.

(** [QStyleOptionButton], the fields read: [state & QStyle::State_Enabled],
    [icon] and [iconSize]. *)
Record QStyleOptionButton : Type := mkOption {
  enabled : bool;
  icon : QIcon;
  iconSize : QSize
}.

(** [void YuPostPushButton::updateIcon(QStyleOptionButton &pushbutton)]:
    the members and the option afterwards. *)
Definition updateIcon (isDown : bool) (b : t) (pushbutton : QStyleOptionButton)
  : t * QStyleOptionButton :=
  if enabled pushbutton && negb (isNull (icon pushbutton)) && isDown then
    let b :=
      if negb (m_iconCached b)
      then mk true (selected_icon (icon pushbutton) (iconSize pushbutton))
      else b in
    if negb (isNull (m_downIcon b))
    then (b, mkOption (enabled pushbutton) (m_downIcon b) (iconSize pushbutton))
    else (b, pushbutton)
  else (b, pushbutton).

(** [paintEvent] once per entry of [paints] -- whether the button is down
    and the option [initStyleOption] fills in -- oldest first: the members
    afterwards and the options handed to [drawControl]. *)
Fixpoint paint_each (paints : list (bool * QStyleOptionButton)) (b : t)
  : t * list QStyleOptionButton :=
  match paints with
  | [] => (b, [])
  | (isDown, option) :: rest =>
      let r := updateIcon isDown b option in
      let r' := paint_each rest r.1 in
      (r'.1, r.2 :: r'.2)
  end.

(** Whether a paint shows the button sunken with an icon. *)
Definition sunken (paint : bool * QStyleOptionButton) : bool :=
  enabled paint.2 && negb (isNull (icon paint.2)) && paint.1.

(** What a paint draws once the sunken icon [down] has been made. *)
Definition drawn_with (down : QIcon) (paint : bool * QStyleOptionButton)
  : QStyleOptionButton :=
  if sunken paint && negb (isNull down)
  then mkOption (enabled paint.2) down (iconSize paint.2)
  else paint.2.

End WithIcons.

Arguments t : clear implicits.
Arguments QStyleOptionButton : clear implicits.

End YuPostPushButton.

(** ** Vocabulary for the further properties *)

Module Storage.

(** The keys that [CWalletTx::Serialize] adds to the map and [Unserialize]
    takes out again. *)
Definition reserved_key (k : string) : Prop :=
  k = "fromaccount"%string ∨ k = "spent"%string ∨ k = "n"%string
  ∨ k = "timesmart"%string.

End Storage.

(** More sample data: a decimal reader for the stored numbers, and a
    transaction with an order position and a smart time. *)

Module MoreSamples.

Import CWalletTx.

Definition digit_value (c : Ascii.ascii) : option Z :=
  let n := Z.of_nat (Ascii.nat_of_ascii c) in
  if bool_decide (48 <= n <= 57) then Some (n - 48) else None.

Fixpoint read_digits (s : string) (acc : Z) : Z :=
  match s with
  | EmptyString => acc
  | String c rest =>
      match digit_value c with
      | Some d => read_digits rest (10 * acc + d)
      | None => acc
      end
  end.

(** Reads an optional minus sign and the decimal digits that follow. *)
Definition read_decimal (s : string) : Z :=
  match s with
  | String c rest =>
      if bool_decide (Ascii.nat_of_ascii c = 45%nat) then - read_digits rest 0
      else read_digits s 0
  | EmptyString => 0
  end.

(** Position 12 in the ordered list, smart time 1700000000, one comment. *)
Definition ordered : CWalletTx.t N :=
  mk None {[ "comment"%string := "rent"%string ]} [("Message", "thanks")]%string
     1 1700000123 1700000000 true 12 amounts_default true false false 0 7%N
     (mkConfirmation CONFIRMED 100 5%N 2).

(** A wallet with 100 available and a maximum fee of 50 that creates
    transaction 8 for a fee of 2, and reports a balance of 90. *)
Definition funded_wallet : WalletModel.Wallet N string unit Z :=
  WalletModel.mkWallet
    (λ _, 100)
    (λ _ _ _, WalletModel.mkCreated (Some 8%N) 1 2 EmptyString)
    50 false
    (λ numBlocks _ _, Some (90, numBlocks)).

(** Addresses of one letter are the valid ones. *)
Definition one_letter (a : string) : bool :=
  bool_decide (String.length a = 1%nat).

Definition alice : WalletModel.SendCoinsRecipient :=
  WalletModel.mkRecipient "A" "alice" 10 EmptyString false.
Definition bob : WalletModel.SendCoinsRecipient :=
  WalletModel.mkRecipient "B" "bob" 20 EmptyString false.
(** Neither a valid address nor an amount. *)
Definition nobody : WalletModel.SendCoinsRecipient :=
  WalletModel.mkRecipient "nowhere" EmptyString 0 EmptyString false.
(** A valid address without an amount. *)
Definition carol : WalletModel.SendCoinsRecipient :=
  WalletModel.mkRecipient "C" "carol" 0 EmptyString false.

Definition two_request : WalletModel.WalletModelTransaction N :=
  WalletModel.mkWMT [alice; bob] None 0.
Definition bad_address_request : WalletModel.WalletModelTransaction N :=
  WalletModel.mkWMT [alice; nobody; bob] None 0.
Definition bad_amount_request : WalletModel.WalletModelTransaction N :=
  WalletModel.mkWMT [alice; carol; nobody] None 0.
Definition twice_request : WalletModel.WalletModelTransaction N :=
  WalletModel.mkWMT [alice; bob; alice] None 0.
(** Two amounts whose sum is one more than [INT64_MAX]. *)
Definition overflowing_request : WalletModel.WalletModelTransaction N :=
  WalletModel.mkWMT
    [WalletModel.mkRecipient "A" "alice" INT64_MAX EmptyString false;
     WalletModel.mkRecipient "B" "bob" 1 EmptyString false] None 0.

Definition syncing_node : WalletModel.Node :=
  WalletModel.mkNode (Some (101, true)).
Definition idle_model : WalletModel.t Z :=
  WalletModel.mk 0 100 false 42 false false.

(** Two reservers on a wallet at rest; the first reserves at time 100, the
    second tries at 200. *)
Definition two_reservers : list CWalletInline.ReserverOp :=
  [CWalletInline.Construct 0; CWalletInline.Construct 1;
   CWalletInline.Reserve 0 100; CWalletInline.Reserve 1 200].

(** Devices as fingerprint and validity; both enumerations report the same
    three. *)
Definition enumerate (stake : bool) : bool * list (string * bool) :=
  (true, [("abcd", true); ("ffff", true); ("abcd", false)]%string).

(** Icons as numbers, 0 the null icon; the selected pixmap of an icon is
    told apart by adding the size. *)
Definition icon_isNull (icon : nat) : bool := Nat.eqb icon 0.
Definition icon_selected (icon size : nat) : nat := (icon + size)%nat.
Definition plain_button : YuPostPushButton.t nat :=
  YuPostPushButton.mk false 0%nat.

End MoreSamples.

(** * Properties *)

(** ** The wallet transaction record *)

Section CWalletTxFacts.

Import CWalletTx.

Context {CTransactionRef : Type}.

Implicit Types (w : CWalletTx.t CTransactionRef) (c : Confirmation).

Lemma m_confirm_set_confirm c w : m_confirm (set_confirm c w) = c.
Proof. reflexivity. Qed.

Lemma m_confirm_MarkDirty w : m_confirm (MarkDirty w) = m_confirm w.
Proof. reflexivity. Qed.

Lemma IsNull_true (h : uint256) : IsNull h = true ↔ h = 0%N.
Proof. unfold IsNull. apply N.eqb_eq. Qed.

Lemma IsNull_false (h : uint256) : IsNull h = false ↔ h ≠ 0%N.
Proof. unfold IsNull. apply N.eqb_neq. Qed.

(** C7: a newly created wallet transaction is Unconfirmed -- after the
    constructor, and after any call of [Init], the Confirmation record has
    status [UNCONFIRMED], block height 0, a null block hash and index 0. *)
Theorem new_transaction_unconfirmed (pwalletIn : option N)
    (arg : CTransactionRef) w :
  let fresh := m_confirm (create pwalletIn arg) in
  let reinit := m_confirm (Init pwalletIn w) in
  (status fresh = UNCONFIRMED ∧ block_height fresh = 0
   ∧ IsNull (hashBlock fresh) = true ∧ nIndex fresh = 0)
  ∧ (status reinit = UNCONFIRMED ∧ block_height reinit = 0
     ∧ IsNull (hashBlock reinit) = true ∧ nIndex reinit = 0)
  ∧ isUnconfirmed (create pwalletIn arg) = true.
Proof. cbn. repeat split. Qed.

(** C8: [MarkDirty] resets the four memoized amount caches (debit, credit,
    immature credit, available credit), clears the cached-change flag and
    sets the caches-empty flag, and leaves every other field as it was: the
    raw transaction, the confirmation record, the timestamps and the
    metadata. *)
Theorem MarkDirty_resets_caches_only w :
  let w' := MarkDirty w in
  (∀ ty, amounts_get (m_amounts w') ty
         = CachableAmount_Reset (amounts_get (m_amounts w) ty))
  ∧ (∀ ty (filter : N), amounts_get (m_amounts w') ty !! filter = None)
  ∧ fChangeCached w' = false
  ∧ m_is_cache_empty w' = true
  ∧ tx w' = tx w
  ∧ m_confirm w' = m_confirm w
  ∧ fTimeReceivedIsTxTime w' = fTimeReceivedIsTxTime w
  ∧ nTimeReceived w' = nTimeReceived w
  ∧ nTimeSmart w' = nTimeSmart w
  ∧ mapValue w' = mapValue w
  ∧ vOrderForm w' = vOrderForm w
  ∧ fFromMe w' = fFromMe w
  ∧ nOrderPos w' = nOrderPos w
  ∧ pwallet w' = pwallet w
  ∧ fInMempool w' = fInMempool w
  ∧ nChangeCached w' = nChangeCached w.
Proof.
  cbn. split; [by intros []|]. split; [by intros [] ?|]. repeat split.
Qed.

(** *** Status and block hash *)

Lemma paired_setAbandoned w : confirm_paired (m_confirm (setAbandoned w)) = true.
Proof. reflexivity. Qed.

Lemma paired_setConfirmed w :
  confirm_paired (m_confirm (setConfirmed w)) = negb (IsNull (hashBlock (m_confirm w))).
Proof. reflexivity. Qed.

Lemma paired_setConflicted w :
  confirm_paired (m_confirm (setConflicted w)) = negb (IsNull (hashBlock (m_confirm w))).
Proof. reflexivity. Qed.

Lemma paired_setUnconfirmed w :
  confirm_paired (m_confirm (setUnconfirmed w)) = IsNull (hashBlock (m_confirm w)).
Proof. reflexivity. Qed.

Section SerializationFacts.

Variable ABANDON_HASH : uint256.
Variables ToString strprintf_u : Z → string.
Variable atoi64 : string → Z.

Local Abbreviation Serialize := (Serialize ABANDON_HASH ToString strprintf_u).
Local Abbreviation Unserialize := (Unserialize ABANDON_HASH atoi64).
Local Abbreviation restore_status := (restore_status ABANDON_HASH).

Lemma m_confirm_Unserialize (s : Stream CTransactionRef) w :
  m_confirm (Unserialize s w)
  = m_confirm (restore_status (s_nIndex s) (read_fields s w)).
Proof. reflexivity. Qed.

Lemma m_confirm_read_fields (s : Stream CTransactionRef) w :
  m_confirm (read_fields s w) = mkConfirmation UNCONFIRMED 0 (s_hashBlock s) 0.
Proof. reflexivity. Qed.

(** The four outcomes of the status decision in [Unserialize]. *)
Lemma restore_status_cases (i : Z) w :
  m_confirm (restore_status i w)
  = if bool_decide (i = -1) then
      if bool_decide (hashBlock (m_confirm w) = ABANDON_HASH)
      then mkConfirmation ABANDONED 0 uint256_zero 0
      else set_status CONFLICTED (m_confirm w)
    else if IsNull (hashBlock (m_confirm w)) then m_confirm w
    else mkConfirmation CONFIRMED (block_height (m_confirm w))
           (hashBlock (m_confirm w)) i.
Proof.
  unfold CWalletTx.restore_status.
  repeat case_bool_decide; cbn; try done; by destruct (IsNull _).
Qed.

(** C1 (as the code has it): [setAbandoned] always leaves status and block
    hash paired.  [setConfirmed], [setConflicted] and [setUnconfirmed] write
    the status alone, so they leave the two paired when the recorded hash
    already fits the new status: non-null for Confirmed and Conflicted, null
    for Unconfirmed.  Deserialization leaves them paired for every stored
    record other than a null hash stored with index -1. *)
Theorem status_hash_pairing w (s : Stream CTransactionRef) :
  confirm_paired (m_confirm (setAbandoned w)) = true
  ∧ (IsNull (hashBlock (m_confirm w)) = false →
     confirm_paired (m_confirm (setConfirmed w)) = true
     ∧ confirm_paired (m_confirm (setConflicted w)) = true)
  ∧ (IsNull (hashBlock (m_confirm w)) = true →
     confirm_paired (m_confirm (setUnconfirmed w)) = true)
  ∧ (¬ (IsNull (s_hashBlock s) = true ∧ s_nIndex s = -1) →
     confirm_paired (m_confirm (Unserialize s w)) = true).
Proof.
  split; [apply paired_setAbandoned|].
  split; [intros Hh; by rewrite paired_setConfirmed, paired_setConflicted, Hh|].
  split; [intros Hh; by rewrite paired_setUnconfirmed|].
  intros Hs. rewrite m_confirm_Unserialize, restore_status_cases.
  rewrite m_confirm_read_fields; cbn.
  repeat case_bool_decide; cbn; try done.
  - destruct (IsNull (s_hashBlock s)) eqn:Hn; [|done]. by destruct Hs.
  - by destruct (IsNull (s_hashBlock s)) eqn:Hn; cbn; rewrite ?Hn.
Qed.

(** C10 (as the code has it): writing a transaction out and reading it back
    restores the confirmation status -- and, for a Confirmed transaction, the
    block hash and the index in the block -- when status and hash are paired,
    the index of an Unconfirmed or Confirmed transaction is not the stored
    marker -1, and the hash of a Conflicted one is not [ABANDON_HASH]. *)
Theorem serialize_roundtrip_status w w0 :
  confirm_paired (m_confirm w) = true →
  (status (m_confirm w) = UNCONFIRMED ∨ status (m_confirm w) = CONFIRMED →
   nIndex (m_confirm w) ≠ -1) →
  (status (m_confirm w) = CONFLICTED → hashBlock (m_confirm w) ≠ ABANDON_HASH) →
  let w' := Unserialize (Serialize w) w0 in
  status (m_confirm w') = status (m_confirm w)
  ∧ (status (m_confirm w) = CONFIRMED →
     hashBlock (m_confirm w') = hashBlock (m_confirm w)
     ∧ nIndex (m_confirm w') = nIndex (m_confirm w)).
Proof.
  intros Hp Hi Hh w'. subst w'.
  rewrite m_confirm_Unserialize, restore_status_cases, m_confirm_read_fields.
  unfold confirm_paired in Hp. unfold CWalletTx.Serialize.
  unfold isAbandoned, isConflicted. cbn.
  destruct (m_confirm w) as [st bh hb ix]; cbn in *.
  destruct st; cbn in *; repeat case_bool_decide; cbn;
    try rewrite Hp; try done.
  all: try (exfalso; apply Hi; [by left|done]).
  all: try (exfalso; apply Hi; [by right|done]).
  all: try (exfalso; by apply Hh).
  apply negb_true_iff in Hp. by rewrite Hp.
Qed.

End SerializationFacts.

End CWalletTxFacts.

(** ** The ledger mirror *)

Section CWalletFacts.

Import CWalletTx CWallet.

Context {CTransactionRef : Type}.
Variable GetHash : CTransactionRef → uint256.
Variable vin : CTransactionRef → list COutPoint.
Variable involvesMe : CTransactionRef → bool.

Implicit Types (w : CWallet.t CTransactionRef) (wtx : CWalletTx.t CTransactionRef).

(** Marking inputs dirty touches caches only: every tracked transaction keeps
    its confirmation. *)
Lemma MarkInputsDirty_confirm ptx
    (m : gmap uint256 (CWalletTx.t CTransactionRef)) (k : uint256) :
  m_confirm <$> (MarkInputsDirty vin ptx m !! k) = m_confirm <$> (m !! k).
Proof.
  unfold MarkInputsDirty. induction (vin ptx) as [|o os IH]; cbn; [done|].
  destruct (decide (o.1 = k)) as [->|Hne].
  - rewrite lookup_alter_eq, <- IH.
    by destruct (foldr _ m os !! k).
  - by rewrite lookup_alter_ne.
Qed.

Lemma AddToWalletIfInvolvingMe_update ptx confirm (fUpdate : bool) w wtx :
  mapWallet w !! GetHash ptx = Some wtx →
  fUpdate || (isAbandoned wtx && non_conflicting confirm) = true →
  let r := AddToWalletIfInvolvingMe GetHash vin involvesMe ptx confirm fUpdate w in
  r.1 = true
  ∧ m_confirm <$> (mapWallet r.2 !! GetHash ptx) = Some confirm.
Proof.
  intros Hw Hup. unfold AddToWalletIfInvolvingMe. rewrite Hw, Hup. cbn.
  split; [done|].
  by rewrite MarkInputsDirty_confirm, lookup_insert_eq.
Qed.

(** A tracked transaction that is not to be updated, and is not an abandoned
    one seen again, is left as it is. *)
Lemma AddToWalletIfInvolvingMe_kept ptx confirm w wtx :
  mapWallet w !! GetHash ptx = Some wtx →
  isAbandoned wtx && non_conflicting confirm = false →
  AddToWalletIfInvolvingMe GetHash vin involvesMe ptx confirm false w
  = (false, w).
Proof.
  intros Hw Hkeep. unfold AddToWalletIfInvolvingMe. by rewrite Hw, Hkeep.
Qed.

(** The spec's idempotence property: a second call with the same transaction
    and confirmation and [fUpdate] false changes nothing. *)
Lemma AddToWalletIfInvolvingMe_idempotent ptx confirm w :
  let r := AddToWalletIfInvolvingMe GetHash vin involvesMe ptx confirm false w in
  AddToWalletIfInvolvingMe GetHash vin involvesMe ptx confirm false r.2
  = (false, r.2).
Proof.
  assert (∀ wtx, m_confirm wtx = confirm →
                 isAbandoned wtx && non_conflicting confirm = false) as Hsettled.
  { intros wtx <-. unfold isAbandoned, non_conflicting.
    destruct (status (m_confirm wtx)); repeat case_bool_decide; try done.
    all: by destruct H0. }
  assert (∀ w' wtx, mapWallet w' !! GetHash ptx = Some wtx →
                    m_confirm wtx = confirm →
                    AddToWalletIfInvolvingMe GetHash vin involvesMe ptx confirm
                      false w' = (false, w')) as Hkept.
  { intros w' wtx Hw Hc. apply (AddToWalletIfInvolvingMe_kept _ _ _ wtx Hw).
    by apply Hsettled. }
  assert (∀ wtx m,
            ∃ wtx', MarkInputsDirty vin ptx (<[GetHash ptx := set_confirm confirm wtx]> m)
                    !! GetHash ptx = Some wtx'
                    ∧ m_confirm wtx' = confirm) as Hstored.
  { intros wtx m.
    pose proof (MarkInputsDirty_confirm ptx
                  (<[GetHash ptx := set_confirm confirm wtx]> m) (GetHash ptx))
      as Hm.
    rewrite lookup_insert_eq in Hm.
    destruct (MarkInputsDirty vin ptx _ !! GetHash ptx) as [wtx'|]; [|done].
    exists wtx'. split; [done|]. by injection Hm. }
  intros r. subst r.
  destruct (mapWallet w !! GetHash ptx) as [wtx|] eqn:Hw.
  - destruct (isAbandoned wtx && non_conflicting confirm) eqn:Hup.
    + destruct (Hstored (MarkDirty wtx) (mapWallet w)) as (wtx' & Hl & Hc).
      unfold AddToWalletIfInvolvingMe at 2 3. rewrite Hw, Hup. cbn [orb snd].
      by apply (Hkept _ wtx').
    + rewrite (AddToWalletIfInvolvingMe_kept _ _ _ wtx Hw Hup). cbn [snd].
      by apply (AddToWalletIfInvolvingMe_kept _ _ _ wtx).
  - destruct (involvesMe ptx) eqn:Hi.
    + destruct (Hstored (create None ptx) (mapWallet w)) as (wtx' & Hl & Hc).
      unfold AddToWalletIfInvolvingMe at 2 3. rewrite Hw, Hi. cbn [snd].
      by apply (Hkept _ wtx').
    + unfold AddToWalletIfInvolvingMe. rewrite Hw, Hi. cbn [snd].
      by rewrite Hw.
Qed.

(** C2: an Abandoned transaction that is reported again, seen in the mempool
    (Unconfirmed) or in a block (Confirmed), leaves the Abandoned state and
    takes the reported status, whether or not the call may update tracked
    transactions. *)
Theorem abandoned_overridden_when_seen_again ptx confirm (fUpdate : bool) w wtx :
  mapWallet w !! GetHash ptx = Some wtx →
  status (m_confirm wtx) = ABANDONED →
  status confirm = UNCONFIRMED ∨ status confirm = CONFIRMED →
  let r := AddToWalletIfInvolvingMe GetHash vin involvesMe ptx confirm fUpdate w in
  r.1 = true
  ∧ ∃ wtx', mapWallet r.2 !! GetHash ptx = Some wtx'
            ∧ status (m_confirm wtx') = status confirm
            ∧ isAbandoned wtx' = false.
Proof.
  intros Hw Hab Hc r.
  assert (fUpdate || (isAbandoned wtx && non_conflicting confirm) = true) as Hup.
  { unfold isAbandoned, non_conflicting.
    rewrite (bool_decide_eq_true_2 _ Hab), (bool_decide_eq_true_2 _ Hc).
    apply orb_true_r. }
  destruct (AddToWalletIfInvolvingMe_update ptx confirm fUpdate w wtx Hw Hup)
    as [Hr Hm].
  fold r in Hr, Hm. split; [done|].
  destruct (mapWallet r.2 !! GetHash ptx) as [wtx'|]; [|done].
  exists wtx'. injection Hm as Hm. split; [done|]. rewrite Hm. split; [done|].
  unfold isAbandoned. rewrite Hm.
  apply bool_decide_eq_false. destruct Hc as [-> | ->]; discriminate.
Qed.


End CWalletFacts.

(** ** Preparing a send and polling the balance *)

Section WalletModelFacts.

Import WalletModel.

Context {CTransactionRef CScript CCoinControl WalletBalances : Type}.

Abbreviation Wallet' :=
  (Wallet CTransactionRef CScript CCoinControl WalletBalances).
Abbreviation Transaction' := (WalletModelTransaction CTransactionRef).

Variable IsValidDestinationString : string → bool.
Variable scriptForAddress : string → CScript.
Variable reassignAmounts : Z → Transaction' → Transaction'.

Local Abbreviation prepare :=
  (prepareTransaction IsValidDestinationString scriptForAddress reassignAmounts).
Local Abbreviation precheck' :=
  (precheck IsValidDestinationString scriptForAddress).
Local Abbreviation well_formed := (well_formed IsValidDestinationString).
Local Abbreviation to_CRecipient := (to_CRecipient scriptForAddress).

Lemma Checked_eq (f f' : bool) (sa sa' : gset string) (n n' : Z)
    (v v' : list (CRecipient CScript)) (t t' : CAmount) :
  f = f' → sa = sa' → n = n' → v = v' → t = t' →
  mkChecked f sa n v t = mkChecked f' sa' n' v' t'.
Proof. by intros -> -> -> -> ->. Qed.

Lemma to_int64_small (z : Z) : - 2 ^ 63 <= z <= INT64_MAX → to_int64 z = z.
Proof.
  unfold to_int64, INT64_MAX. intros Hz. rewrite Z.mod_small by lia. lia.
Qed.

(** Positive amounts whose exact sum fits [int64_t] are summed exactly. *)
Lemma total_after_exact (acc : CAmount) rs :
  0 <= acc → Forall well_formed rs → acc + total_amount rs <= INT64_MAX →
  total_after acc rs = acc + total_amount rs.
Proof.
  intros Hacc Hrs. revert acc Hacc. unfold total_after, total_amount.
  induction Hrs as [|rcp rs [_ Ha] Hrs IH]; intros acc Hacc Hfit; cbn.
  - lia.
  - cbn in Hfit.
    assert (0 <= foldr (λ rcp acc, amount rcp + acc) 0 rs) as Hpos.
    { clear -Hrs. induction Hrs as [|? ? [_ ?] _ IH]; cbn; lia. }
    rewrite to_int64_small by (unfold INT64_MAX in *; lia).
    rewrite IH by lia. lia.
Qed.

(** What the loop has computed when no recipient is turned down. *)
Lemma precheck_well_formed rs (st : Checked) :
  Forall well_formed rs →
  precheck' rs st
  = inr (mkChecked
           (subtracts_fee rs || c_fSubtractFeeFromAmount st)
           (list_to_set (address <$> rs) ∪ c_setAddress st)
           (c_nAddresses st + Z.of_nat (length rs))
           (c_vecSend st ++ (to_CRecipient <$> rs))
           (total_after (c_total st) rs)).
Proof.
  intros Hrs. revert st. unfold subtracts_fee, total_after.
  induction Hrs as [|rcp rs [Hv Ha] _ IH]; intros st.
  - destruct st as [f sa n v t]; cbn. f_equal. apply Checked_eq.
    + done.
    + by rewrite (left_id_L ∅ (∪)).
    + lia.
    + by rewrite app_nil_r.
    + done.
  - cbn [precheck]. unfold validateAddress. rewrite Hv. cbn [negb].
    rewrite bool_decide_eq_false_2 by lia.
    rewrite IH. cbn. f_equal. apply Checked_eq.
    + by destruct (fSubtractFeeFromAmount rcp),
        (existsb fSubtractFeeFromAmount rs), (c_fSubtractFeeFromAmount st).
    + by rewrite (assoc_L (∪)), (comm_L (∪) (list_to_set _)).
    + lia.
    + by rewrite <- app_assoc.
    + done.
Qed.

(** A run that passes the pre-checks: what is left of the function is the
    balance check and the single call of [createTransaction]. *)
Lemma prepare_well_formed (m_wallet : Wallet') (transaction : Transaction')
    (coinControl : CCoinControl) :
  let rs := recipients transaction in
  let total := total_after 0 rs in
  let nBalance := getAvailableBalance m_wallet coinControl in
  let sign := negb (privateKeysDisabled m_wallet) in
  let vecSend := to_CRecipient <$> rs in
  let r := createTransaction m_wallet vecSend coinControl sign in
  let t1 := mkWMT rs (newTx r) (nFeeRequired r) in
  let t2 := if subtracts_fee rs && bool_decide (is_Some (newTx r))
            then reassignAmounts (nChangePosRet r) t1 else t1 in
  rs ≠ [] → Forall well_formed rs → NoDup (address <$> rs) →
  prepare m_wallet transaction coinControl
  = if bool_decide (total > nBalance)
    then (AmountExceedsBalance, transaction, [])
    else
      match newTx r with
      | None =>
          if negb (subtracts_fee rs)
             && bool_decide (to_int64 (total + nFeeRequired r) > nBalance)
          then (AmountWithFeeExceedsBalance, t2,
                [CallCreateTransaction vecSend sign])
          else (TransactionCreationFailed, t2,
                [CallCreateTransaction vecSend sign;
                 EmitMessage "Send Coins" (strFailReason r)])
      | Some _ =>
          if bool_decide (nFeeRequired r > getDefaultMaxTxFee m_wallet)
          then (AbsurdFee, t2, [CallCreateTransaction vecSend sign])
          else (OK, t2, [CallCreateTransaction vecSend sign])
      end.
Proof.
  intros rs total nBalance sign vecSend r t1 t2 Hne Hwf Hnd.
  unfold prepareTransaction. fold rs.
  rewrite bool_decide_eq_false_2 by done.
  rewrite (precheck_well_formed rs checked_init Hwf). cbn.
  rewrite (right_id_L ∅ (∪)), size_list_to_set, length_fmap by done.
  rewrite bool_decide_eq_false_2 by (intros H; apply H; lia).
  by rewrite orb_false_r.
Qed.

(** C6 (as the code has it): for a request that passes the input pre-checks
    (recipients present, every address valid, every amount positive, no
    address twice) and whose amounts sum to at most [INT64_MAX], so that the
    [int64_t] total is their sum, the policy failures come back as status
    codes.  A total above the available balance gives
    [AmountExceedsBalance].  Otherwise, if creating the transaction fails, no
    recipient asks to have the fee subtracted from the amount, and total plus
    required fee, which fits [int64_t] too, exceeds the balance, the status
    is [AmountWithFeeExceedsBalance]; if creation succeeds and the required
    fee exceeds the wallet's default maximum fee, the status is
    [AbsurdFee]. *)
Theorem prepareTransaction_policy_failures (m_wallet : Wallet')
    (transaction : Transaction') (coinControl : CCoinControl) :
  let rs := recipients transaction in
  let r := createTransaction m_wallet (to_CRecipient <$> rs) coinControl
             (negb (privateKeysDisabled m_wallet)) in
  let nBalance := getAvailableBalance m_wallet coinControl in
  let code := (prepare m_wallet transaction coinControl).1.1 in
  rs ≠ [] → Forall well_formed rs → NoDup (address <$> rs) →
  total_amount rs <= INT64_MAX →
  (total_amount rs > nBalance → code = AmountExceedsBalance)
  ∧ (total_amount rs <= nBalance → newTx r = None →
     subtracts_fee rs = false →
     - 2 ^ 63 <= total_amount rs + nFeeRequired r <= INT64_MAX →
     total_amount rs + nFeeRequired r > nBalance →
     code = AmountWithFeeExceedsBalance)
  ∧ (total_amount rs <= nBalance → is_Some (newTx r) →
     nFeeRequired r > getDefaultMaxTxFee m_wallet →
     code = AbsurdFee).
Proof.
  intros rs r nBalance code Hne Hwf Hnd Hfit. subst code.
  rewrite (prepare_well_formed m_wallet transaction coinControl Hne Hwf Hnd).
  fold rs nBalance r.
  rewrite (total_after_exact 0 rs) by (done || lia). rewrite Z.add_0_l.
  split; [|split].
  - intros Hex. by rewrite bool_decide_eq_true_2.
  - intros Hbal Hnone Hsub Hfee Hover.
    rewrite bool_decide_eq_false_2 by lia. rewrite Hnone, Hsub. cbn.
    rewrite to_int64_small by done.
    by rewrite bool_decide_eq_true_2.
  - intros Hbal [ptx Hsome] Hfee.
    rewrite bool_decide_eq_false_2 by lia. rewrite Hsome.
    by rewrite bool_decide_eq_true_2.
Qed.

(** A failed creation is handed back as a failure status, after a single
    call of [createTransaction], and the transaction object holds no
    transaction. *)
Lemma creation_failure_surfaced (m_wallet : Wallet')
    (transaction : Transaction') (coinControl : CCoinControl) :
  let rs := recipients transaction in
  let r := createTransaction m_wallet (to_CRecipient <$> rs) coinControl
             (negb (privateKeysDisabled m_wallet)) in
  let run := prepare m_wallet transaction coinControl in
  rs ≠ [] → Forall well_formed rs → NoDup (address <$> rs) →
  newTx r = None →
  (run.1.1 = AmountExceedsBalance ∧ run.1.2 = transaction ∧ run.2 = []
   ∧ total_after 0 rs > getAvailableBalance m_wallet coinControl)
  ∨ ((run.1.1 = AmountWithFeeExceedsBalance
      ∨ run.1.1 = TransactionCreationFailed)
     ∧ wtx run.1.2 = None
     ∧ create_calls run.2 = 1%nat
     ∧ total_after 0 rs <= getAvailableBalance m_wallet coinControl).
Proof.
  intros rs r run Hne Hwf Hnd Hnone. subst run.
  rewrite (prepare_well_formed m_wallet transaction coinControl Hne Hwf Hnd).
  fold rs r. case_bool_decide as Hbal; [by left|]. right. rewrite Hnone.
  rewrite (bool_decide_eq_false_2 (is_Some None)) by (by intros [? ?]).
  rewrite andb_false_r.
  case_match; cbn; repeat split; auto with lia.
Qed.

Section PollFacts.

Variable balanceChanged : WalletBalances → WalletBalances → bool.

(** C9 (as the code has it): the periodic balance poll does not wait for the
    wallet's locks.  It asks through [tryGetBalances], and when that call
    fails -- the locks cannot be taken, as during a rescan -- the poll
    returns at once: no signal is emitted, and the cached balances, the
    cached block count and the flags are as before; only the poll counter
    has moved. *)
Theorem pollBalanceChanged_returns_early (m_node : Node) (m_wallet : Wallet')
    (m : WalletModel.t WalletBalances) :
  (∀ numBlocks force cached, tryGetBalances m_wallet numBlocks force cached = None) →
  pollBalanceChanged balanceChanged m_node m_wallet m
  = (WalletModel.mk (pollNum m + 1) (cachedNumBlocks m)
       (fForceCheckBalanceChanged m) (m_cached_balances m)
       (updateCoinAddresses m) (updateStakeWeight m), []).
Proof.
  intros Hbusy. unfold pollBalanceChanged.
  destruct (tryGetSyncInfo m_node) as [[numBlocks isSyncing]|]; [|done].
  cbn. rewrite Hbusy. by case_match.
Qed.

End PollFacts.

End WalletModelFacts.

(** ** Coin selection *)

Section CoinSelectionFacts.

Import CoinSelection.

Implicit Types (cs ch : list COutput) (o : COutput).

Lemma total_app cs1 cs2 : total (cs1 ++ cs2) = total cs1 + total cs2.
Proof. induction cs1 as [|o cs1 IH]; cbn; lia. Qed.

Lemma total_Permutation cs1 cs2 : cs1 ≡ₚ cs2 → total cs1 = total cs2.
Proof. induction 1; cbn; lia. Qed.

Lemma total_submseteq sub cs :
  Forall (λ o, 0 <= nValue o) cs → sub ⊆+ cs → total sub <= total cs.
Proof.
  intros Hpos Hsub. apply submseteq_Permutation in Hsub as [rest Hperm].
  rewrite (total_Permutation _ _ Hperm), total_app.
  rewrite Hperm in Hpos. apply Forall_app in Hpos as [_ Hrest].
  clear Hperm. induction Hrest; cbn in *; lia.
Qed.

(** The greedy pass answers with a front part of the list that reaches the
    target. *)
Lemma accumulate_sound cs target ch :
  accumulate cs target = Some ch → ch `sublist_of` cs ∧ target <= total ch.
Proof.
  revert target ch. induction cs as [|c cs IH]; intros target ch; cbn.
  - case_bool_decide; [|done]. intros [= <-]. by cbn.
  - case_bool_decide.
    + intros [= <-]. split; [apply sublist_nil_l | by cbn].
    + destruct (accumulate cs (target - nValue c)) as [ch'|] eqn:Hacc; [|done].
      intros [= <-]. destruct (IH _ _ Hacc) as [Hsub Htot].
      split; [by constructor | cbn; lia].
Qed.

Lemma largest_first_sound : search_sound largest_first.
Proof.
  intros cs target ch Hsel. unfold largest_first in Hsel.
  destruct (accumulate_sound _ _ _ Hsel) as [Hsub Htot]. split; [|done].
  rewrite <- (merge_sort_Permutation larger_first cs).
  by apply sublist_submseteq.
Qed.

Lemma exact_match_sound : search_sound Samples.exact_match.
Proof.
  intros cs. induction cs as [|c cs IH]; intros target ch; cbn.
  - case_bool_decide; [|done]. intros [= <-]. split; [done | cbn; lia].
  - destruct (Samples.exact_match cs (target - nValue c)) as [ch'|] eqn:Hin.
    + intros [= <-]. destruct (IH _ _ Hin) as [Hsub Htot].
      split; [by constructor | cbn; lia].
    + intros Hout. destruct (IH _ _ Hout) as [Hsub Htot].
      split; [by apply submseteq_cons | done].
Qed.

Section WithSearch.

Context {CCoinControl : Type}.
Variable pinned : CCoinControl → gset CWallet.COutPoint.
Variable allow_unsafe : CCoinControl → bool.
Variable branch_and_bound : list COutput → CAmount → option (list COutput).
Hypothesis branch_and_bound_sound : search_sound branch_and_bound.

Implicit Types (cc : CCoinControl).

Local Abbreviation is_pinned := (is_pinned pinned).
Local Abbreviation searchable := (searchable pinned allow_unsafe).
Local Abbreviation SelectCoins := (SelectCoins pinned allow_unsafe branch_and_bound).

Lemma SelectCoinsMinConf_sound target cs ch :
  SelectCoinsMinConf branch_and_bound target cs = Some ch →
  ch ⊆+ cs ∧ target <= total ch.
Proof.
  unfold SelectCoinsMinConf.
  destruct (branch_and_bound cs target) as [ch'|] eqn:Hbnb.
  - intros [= <-]. by apply branch_and_bound_sound.
  - apply largest_first_sound.
Qed.

(** Pinned and searched candidates are disjoint parts of the candidate set. *)
Lemma preset_others_submseteq cc cs :
  filter (is_pinned cc) cs ++ filter (searchable cc) cs ⊆+ cs.
Proof.
  induction cs as [|c cs IH]; [done|].
  rewrite !filter_cons.
  destruct (decide (is_pinned cc c)) as [Hp|Hp];
    destruct (decide (searchable cc c)) as [Hs|Hs].
  - by destruct Hs.
  - cbn. by constructor.
  - rewrite <- Permutation_middle. by constructor.
  - by apply submseteq_cons.
Qed.

(** What a successful selection hands back. *)
Lemma SelectCoins_Some cs target cc ch value :
  SelectCoins cs target cc = Some (ch, value) →
  pinned_at_hand pinned cc cs
  ∧ ∃ found, ch = filter (is_pinned cc) cs ++ found
             ∧ found ⊆+ filter (searchable cc) cs
             ∧ value = total ch ∧ target <= value.
Proof.
  unfold CoinSelection.SelectCoins. case_bool_decide as Hhand; [|done].
  intros Hsel. split; [done|]. revert Hsel. case_bool_decide as Hrem.
  - intros [= <- <-]. exists []. rewrite app_nil_r.
    repeat split; [apply submseteq_nil_l | lia].
  - destruct (SelectCoinsMinConf _ _ _) as [found|] eqn:Hsel; [|done].
    intros [= <- <-]. exists found.
    destruct (SelectCoinsMinConf_sound _ _ _ Hsel) as [Hsub Htot].
    rewrite total_app. repeat split; [done | lia].
Qed.


(** Selection fails when no part of the candidate set reaches the target. *)
Lemma SelectCoins_fails cs target cc :
  (∀ sub, sub ⊆+ cs → total sub < target) →
  SelectCoins cs target cc = None.
Proof.
  intros Hshort.
  destruct (SelectCoins cs target cc) as [[ch value]|] eqn:Hsel; [|done].
  destruct (SelectCoins_Some _ _ _ _ _ Hsel)
    as (_ & found & -> & Hsub & -> & Htot).
  specialize (Hshort (filter (is_pinned cc) cs ++ found)).
  assert (filter (is_pinned cc) cs ++ found ⊆+ cs) as Hall.
  { etrans; [|apply (preset_others_submseteq cc)]. by apply submseteq_skips_l. }
  specialize (Hshort Hall). lia.
Qed.

Lemma SelectCoinsMinConf_fails cs target :
  (∀ sub, sub ⊆+ cs → total sub < target) →
  SelectCoinsMinConf branch_and_bound target cs = None.
Proof.
  intros Hshort.
  destruct (SelectCoinsMinConf branch_and_bound target cs) as [ch|] eqn:Hsel;
    [|done].
  destruct (SelectCoinsMinConf_sound _ _ _ Hsel) as [Hsub Htot].
  specialize (Hshort ch Hsub). lia.
Qed.

End WithSearch.

End CoinSelectionFacts.

(** ** Failure of selection, from the selector to the sender *)

Section SelectionFailure.

Import CWallet CoinSelection WalletModel TransactionBuilder.

Context {CTransactionRef CScript CCoinControl WalletBalances : Type}.

Variable pinned : CCoinControl → gset COutPoint.
Variable allow_unsafe : CCoinControl → bool.
Variable branch_and_bound : list COutput → CAmount → option (list COutput).
Variable AvailableCoins : CCoinControl → list COutput.
Variable estimated_fee : list (CRecipient CScript) → CAmount.
Variable build :
  list COutput → list (CRecipient CScript) → bool → CTransactionRef * Z.
Variable insufficient_funds : string.
Variable IsValidDestinationString : string → bool.
Variable scriptForAddress : string → CScript.
Variable reassignAmounts :
  Z → WalletModelTransaction CTransactionRef → WalletModelTransaction CTransactionRef.

Local Abbreviation CreateTransaction' :=
  (CreateTransaction pinned allow_unsafe branch_and_bound AvailableCoins
     estimated_fee build insufficient_funds).

(** C5: when no part of the candidate set reaches the target -- the value to
    send plus the estimated fee -- [SelectCoinsMinConf] and [SelectCoins]
    fail.  The builder, their caller, asks the selector once and hands the
    failure on: no transaction, and the reason set.  And
    [prepareTransaction], on a wallet backed by the builder, answers the
    request with a failure status, having asked for the transaction at most
    once: once, with no transaction left in the request, when the total
    passes the balance check. *)
Theorem coin_selection_failure_surfaced
    (m_wallet : Wallet CTransactionRef CScript CCoinControl WalletBalances)
    (transaction : WalletModelTransaction CTransactionRef)
    (coinControl : CCoinControl) :
  let rs := recipients transaction in
  let vecSend := to_CRecipient scriptForAddress <$> rs in
  let candidates := AvailableCoins coinControl in
  let target := selection_target estimated_fee vecSend in
  let sign := negb (privateKeysDisabled m_wallet) in
  let run := prepareTransaction IsValidDestinationString scriptForAddress
               reassignAmounts m_wallet transaction coinControl in
  search_sound branch_and_bound →
  backed_by_builder pinned allow_unsafe branch_and_bound AvailableCoins
    estimated_fee build insufficient_funds m_wallet →
  (∀ sub, sub ⊆+ candidates → total sub < target) →
  rs ≠ [] → Forall (well_formed IsValidDestinationString) rs →
  NoDup (address <$> rs) →
  SelectCoinsMinConf branch_and_bound target candidates = None
  ∧ SelectCoins pinned allow_unsafe branch_and_bound candidates target
      coinControl = None
  ∧ CreateTransaction' vecSend coinControl sign
    = (mkCreated None (-1) (estimated_fee vecSend) insufficient_funds,
       [CallSelectCoins target])
  ∧ (run.1.1 = AmountExceedsBalance
     ∨ run.1.1 = AmountWithFeeExceedsBalance
     ∨ run.1.1 = TransactionCreationFailed)
  ∧ (create_calls run.2 ≤ 1)%nat
  ∧ (total_after 0 rs <= getAvailableBalance m_wallet coinControl →
     create_calls run.2 = 1%nat ∧ wtx run.1.2 = None).
Proof.
  intros rs vecSend candidates target sign run Hsound Hbacked Hshort Hne Hwf Hnd.
  pose proof (SelectCoins_fails pinned allow_unsafe _ Hsound candidates target
                coinControl Hshort) as Hselect.
  assert (CreateTransaction' vecSend coinControl sign
          = (mkCreated None (-1) (estimated_fee vecSend) insufficient_funds,
             [CallSelectCoins target])) as Hbuilt.
  { unfold CreateTransaction. fold candidates target. by rewrite Hselect. }
  split; [by apply SelectCoinsMinConf_fails|]. split; [done|].
  split; [done|].
  assert (newTx (createTransaction m_wallet vecSend coinControl sign) = None)
    as Hnone by (by rewrite Hbacked, Hbuilt).
  destruct (creation_failure_surfaced IsValidDestinationString scriptForAddress
              reassignAmounts m_wallet transaction coinControl Hne Hwf Hnd Hnone)
    as [(Hcode & _ & Hev & Hover) | (Hcode & Hwtx & Hcalls & Hbal)];
    subst run.
  - split; [by left|]. split; [rewrite Hev; cbn; lia|].
    intros Hin. subst rs. lia.
  - split; [by right|]. split; [rewrite Hcalls; lia|]. done.
Qed.

End SelectionFailure.

(** ** The properties on the sample data *)

Section Runs.

Import CWalletTx Samples.

Lemma status_hash_pairing_witness :
  confirm_paired (m_confirm (setConfirmed confirmed)) = true
  ∧ confirm_paired (m_confirm (setConflicted confirmed)) = true
  ∧ confirm_paired (m_confirm (setUnconfirmed fresh)) = true
  ∧ confirm_paired (m_confirm (Unserialize ABANDON_HASH atoi64 stored fresh)) = true.
Proof.
  destruct (status_hash_pairing ABANDON_HASH atoi64 confirmed stored)
    as (_ & Hset & _ & Hread).
  destruct (status_hash_pairing ABANDON_HASH atoi64 fresh stored)
    as (_ & _ & Hunset & _).
  destruct (Hset eq_refl) as [Hconfirmed Hconflicted].
  split; [exact Hconfirmed|]. split; [exact Hconflicted|].
  split; [exact (Hunset eq_refl)|].
  apply Hread. intros [Hnull _]. discriminate Hnull.
Defined.

(** [setConflicted] on a fresh transaction: the status is Conflicted and the
    block hash is still null. *)
Lemma setConflicted_unpairs_fresh :
  confirm_paired (m_confirm fresh) = true
  ∧ status (m_confirm (setConflicted fresh)) = CONFLICTED
  ∧ IsNull (hashBlock (m_confirm (setConflicted fresh))) = true
  ∧ confirm_paired (m_confirm (setConflicted fresh)) = false.
Proof. repeat split. Qed.

Lemma serialize_roundtrip_status_witness :
  status (m_confirm (Unserialize ABANDON_HASH atoi64
                       (Serialize ABANDON_HASH ToString ToString confirmed) fresh))
  = CONFIRMED
  ∧ status (m_confirm (Unserialize ABANDON_HASH atoi64
                         (Serialize ABANDON_HASH ToString ToString conflicted) fresh))
    = CONFLICTED.
Proof.
  split.
  - apply (serialize_roundtrip_status ABANDON_HASH ToString ToString atoi64
             confirmed fresh); [reflexivity | intros _; discriminate | discriminate].
  - apply (serialize_roundtrip_status ABANDON_HASH ToString ToString atoi64
             conflicted fresh);
      [reflexivity | intros [?|?]; discriminate | intros _; discriminate].
Defined.

(** A Confirmed transaction whose index field holds -1 is written with index
    -1 and read back as Conflicted (as Abandoned, were its block hash
    [ABANDON_HASH]), whatever the value of [ABANDON_HASH]. *)
Lemma roundtrip_confirmed_marker_index :
  confirm_paired (m_confirm confirmed_marker) = true
  ∧ status (m_confirm confirmed_marker) = CONFIRMED
  ∧ ∀ (abandon_hash : uint256) (w0 : CWalletTx.t N),
      status (m_confirm (Unserialize abandon_hash atoi64
                           (Serialize abandon_hash ToString ToString
                              confirmed_marker) w0))
      = if bool_decide (5%N = abandon_hash) then ABANDONED else CONFLICTED.
Proof.
  repeat split. intros abandon_hash w0.
  rewrite m_confirm_Unserialize, restore_status_cases. cbn.
  assert (isAbandoned confirmed_marker = false) as -> by reflexivity.
  assert (isConflicted confirmed_marker = false) as -> by reflexivity.
  cbn. by repeat case_bool_decide.
Qed.

(** *** The ledger *)

Lemma abandoned_overridden_when_seen_again_witness :
  (CWallet.AddToWalletIfInvolvingMe GetHash vin involvesMe 7%N
     (mkConfirmation CONFIRMED 121 9%N 0) false wallet).1
  = true
  ∧ ∃ wtx', CWallet.mapWallet
              (CWallet.AddToWalletIfInvolvingMe GetHash vin involvesMe 7%N
                 (mkConfirmation CONFIRMED 121 9%N 0) false wallet).2
            !! 7%N = Some wtx'
            ∧ status (m_confirm wtx') = CONFIRMED
            ∧ isAbandoned wtx' = false.
Proof.
  apply (abandoned_overridden_when_seen_again GetHash vin involvesMe 7%N
           (mkConfirmation CONFIRMED 121 9%N 0) false wallet
           (setAbandoned fresh)).
  - apply lookup_singleton_eq.
  - reflexivity.
  - right. reflexivity.
Defined.



(** *** Coin selection *)



Lemma coin_selection_failure_surfaced_witness :
  CoinSelection.SelectCoins pins unsafe Samples.exact_match candidates 505
    no_control
  = None
  ∧ (TransactionBuilder.CreateTransaction pins unsafe Samples.exact_match
       AvailableCoins estimated_fee build "Insufficient funds"
       [WalletModel.mkCRecipient "A"%string 500 false] no_control true)
    = (WalletModel.mkCreated None (-1) 5 "Insufficient funds",
       [TransactionBuilder.CallSelectCoins 505])
  ∧ ((WalletModel.prepareTransaction IsValidDestinationString scriptForAddress
        reassignAmounts built_wallet large_request no_control).1.1
     = WalletModel.AmountExceedsBalance
     ∨ (WalletModel.prepareTransaction IsValidDestinationString
          scriptForAddress reassignAmounts built_wallet large_request
          no_control).1.1
       = WalletModel.AmountWithFeeExceedsBalance
     ∨ (WalletModel.prepareTransaction IsValidDestinationString
          scriptForAddress reassignAmounts built_wallet large_request
          no_control).1.1
       = WalletModel.TransactionCreationFailed)
  ∧ WalletModel.create_calls
      (WalletModel.prepareTransaction IsValidDestinationString scriptForAddress
         reassignAmounts built_wallet large_request no_control).2
    = 1%nat.
Proof.
  destruct (coin_selection_failure_surfaced pins unsafe Samples.exact_match
              AvailableCoins estimated_fee build "Insufficient funds"
              IsValidDestinationString scriptForAddress reassignAmounts
              built_wallet large_request no_control)
    as (_ & Hselect & Hbuilt & Hcode & _ & Hcalls).
  - apply exact_match_sound.
  - intros vecSend cc sign. reflexivity.
  - intros sub Hsub.
    assert (CoinSelection.total sub <= CoinSelection.total candidates) as Hle.
    { apply total_submseteq; [|exact Hsub]. repeat constructor; cbn; lia. }
    change (CoinSelection.total candidates) with 120 in Hle.
    change (CoinSelection.total sub < 505). lia.
  - discriminate.
  - repeat constructor.
  - apply NoDup_singleton.
  - split; [exact Hselect|]. split; [exact Hbuilt|]. split; [exact Hcode|].
    apply Hcalls. vm_compute. discriminate.
Defined.

(** *** Preparing a send, polling the balance *)

Lemma prepareTransaction_policy_failures_witness :
  (WalletModel.prepareTransaction IsValidDestinationString scriptForAddress
     reassignAmounts short_wallet plain_request tt).1.1
  = WalletModel.AmountWithFeeExceedsBalance.
Proof.
  destruct (prepareTransaction_policy_failures IsValidDestinationString
              scriptForAddress reassignAmounts short_wallet plain_request tt)
    as (_ & Hfee & _).
  - discriminate.
  - repeat constructor.
  - apply NoDup_singleton.
  - vm_compute. discriminate.
  - apply Hfee.
    + cbn. lia.
    + reflexivity.
    + reflexivity.
    + split; vm_compute; discriminate.
    + cbn. lia.
Defined.

(** Creation fails, 10 + 95 exceeds the balance of 100, but the recipient has
    the fee subtracted from the amount: the status is
    [TransactionCreationFailed]. *)
Lemma prepareTransaction_fee_subtracted_failure :
  let r := WalletModel.createTransaction short_wallet
             (WalletModel.to_CRecipient scriptForAddress
                <$> WalletModel.recipients fee_subtracted_request)
             tt true in
  WalletModel.newTx r = None
  ∧ (WalletModel.total_amount (WalletModel.recipients fee_subtracted_request)
     + WalletModel.nFeeRequired r
     >? WalletModel.getAvailableBalance short_wallet tt) = true
  ∧ (WalletModel.prepareTransaction IsValidDestinationString scriptForAddress
       reassignAmounts short_wallet fee_subtracted_request tt).1.1
    = WalletModel.TransactionCreationFailed.
Proof. split; [reflexivity|]. split; [reflexivity | by vm_compute]. Qed.

Lemma pollBalanceChanged_returns_early_witness :
  WalletModel.pollBalanceChanged balanceChanged synced_node short_wallet model
  = (WalletModel.mk 5 100 true 42 false false, []).
Proof.
  apply (pollBalanceChanged_returns_early balanceChanged synced_node
           short_wallet model).
  reflexivity.
Defined.

(** The wallet's locks are taken ([tryGetBalances] fails) while a forced
    check is pending: the poll comes back without the balances, the pending
    check still set and the cached balance 42 untouched. *)
Lemma pollBalanceChanged_busy_wallet :
  WalletModel.tryGetBalances short_wallet 101 true 100 = None
  ∧ WalletModel.pollBalanceChanged balanceChanged synced_node short_wallet
      (WalletModel.mk 0 100 true 42 false false)
    = (WalletModel.mk 1 100 true 42 false false, []).
Proof. split; reflexivity. Qed.

End Runs.

(** * Further properties of the code *)

(** ** The wallet transaction record: what is stored and what is not *)

Section CWalletTxStorage.

Import CWalletTx Storage.

Context {CTransactionRef : Type}.

Variable ABANDON_HASH : uint256.
Variables ToString strprintf_u : Z → string.
Variable atoi64 : string → Z.

Implicit Types (w : CWalletTx.t CTransactionRef) (s : Stream CTransactionRef).

Local Abbreviation Serialize := (Serialize ABANDON_HASH ToString strprintf_u).
Local Abbreviation Unserialize := (Unserialize ABANDON_HASH atoi64).
Local Abbreviation restore_status := (restore_status ABANDON_HASH).

Lemma restore_status_frame (i : Z) w :
  let w' := restore_status i w in
  mapValue w' = mapValue w ∧ vOrderForm w' = vOrderForm w
  ∧ fTimeReceivedIsTxTime w' = fTimeReceivedIsTxTime w
  ∧ nTimeReceived w' = nTimeReceived w ∧ fFromMe w' = fFromMe w
  ∧ tx w' = tx w ∧ pwallet w' = pwallet w
  ∧ m_amounts w' = m_amounts w ∧ m_is_cache_empty w' = m_is_cache_empty w
  ∧ fChangeCached w' = fChangeCached w ∧ fInMempool w' = fInMempool w
  ∧ nChangeCached w' = nChangeCached w.
Proof.
  unfold CWalletTx.restore_status.
  repeat case_bool_decide; cbn; try done; by destruct (IsNull _).
Qed.

(** X1: the order position survives [WriteOrderPos] followed by
    [ReadOrderPos] when the number reads back from its text; the position -1
    is stored as the absence of the key, so it survives when the map holds no
    key "n" of its own. *)
Theorem order_pos_round_trip (pos : Z) (mv : mapValue_t) :
  (pos = -1 → mv !! "n"%string = None) →
  (pos ≠ -1 → atoi64 (ToString pos) = pos) →
  ReadOrderPos atoi64 (WriteOrderPos ToString pos mv) = pos
  ∧ (pos = -1 → WriteOrderPos ToString pos mv = mv).
Proof.
  intros Hfree Hread. unfold ReadOrderPos, WriteOrderPos.
  case_bool_decide as Hpos.
  - rewrite (Hfree Hpos). by split.
  - rewrite lookup_insert_eq. split; [by apply Hread | done].
Qed.

Lemma reserved_key_cases (k : string) :
  reserved_key k ∨ (k ≠ "fromaccount"%string ∧ k ≠ "spent"%string
                    ∧ k ≠ "n"%string ∧ k ≠ "timesmart"%string).
Proof.
  unfold reserved_key.
  destruct (decide (k = "fromaccount"%string)); [by left; left|].
  destruct (decide (k = "spent"%string)); [by left; right; left|].
  destruct (decide (k = "n"%string)); [by left; right; right; left|].
  destruct (decide (k = "timesmart"%string)); [by left; right; right; right|].
  by right.
Qed.

(** The map after the four [erase] calls of [Unserialize]. *)
Lemma lookup_erased (mv : mapValue_t) (k : string) :
  delete "timesmart"%string
    (delete "n"%string (delete "spent"%string (delete "fromaccount"%string mv)))
  !! k
  = if decide (reserved_key k) then None else mv !! k.
Proof.
  destruct (reserved_key_cases k) as [Hk | (H1 & H2 & H3 & H4)].
  - rewrite decide_True by done.
    destruct Hk as [-> | [-> | [-> | ->]]];
      repeat first [ rewrite lookup_delete_eq; reflexivity
                   | rewrite lookup_delete_ne by done ].
  - rewrite decide_False by (intros [?|[?|[?|?]]]; done).
    by rewrite !lookup_delete_ne.
Qed.

(** The copy of the map that [Serialize] writes: the unreserved entries are
    those of the transaction. *)
Lemma lookup_written w (k : string) :
  ¬ reserved_key k → s_mapValue (Serialize w) !! k = mapValue w !! k.
Proof.
  intros Hk. destruct (reserved_key_cases k) as [? | (H1 & H2 & H3 & H4)]; [done|].
  unfold CWalletTx.Serialize, WriteOrderPos. cbn.
  repeat case_bool_decide; by rewrite ?lookup_insert_ne by done.
Qed.

Lemma written_n w :
  mapValue w !! "n"%string = None →
  s_mapValue (Serialize w) !! "n"%string
  = if bool_decide (nOrderPos w = -1) then None else Some (ToString (nOrderPos w)).
Proof.
  intros Hn. unfold CWalletTx.Serialize, WriteOrderPos. cbn.
  repeat case_bool_decide;
    by rewrite ?(lookup_insert_ne _ "timesmart"%string) by done;
       rewrite ?lookup_insert_eq, ?lookup_insert_ne by done.
Qed.

Lemma written_timesmart w :
  mapValue w !! "timesmart"%string = None →
  s_mapValue (Serialize w) !! "timesmart"%string
  = if bool_decide (nTimeSmart w = 0) then None
    else Some (strprintf_u (nTimeSmart w)).
Proof.
  intros Hn. unfold CWalletTx.Serialize, WriteOrderPos. cbn.
  repeat case_bool_decide;
    by rewrite ?lookup_insert_eq, ?lookup_insert_ne by done.
Qed.

(** X2: writing a transaction out and reading it back restores the raw
    transaction, the key/value map, the order form, the two receive-time
    fields, the from-me flag, the order position and the smart time --
    provided the map holds none of the four keys the format reserves, the
    order position and the smart time read back from their text, and the
    smart time fits an unsigned int. *)
Theorem serialize_round_trip_metadata w w0 :
  (∀ k, reserved_key k → mapValue w !! k = None) →
  (nOrderPos w ≠ -1 → atoi64 (ToString (nOrderPos w)) = nOrderPos w) →
  (nTimeSmart w ≠ 0 →
   atoi64 (strprintf_u (nTimeSmart w)) = nTimeSmart w
   ∧ 0 <= nTimeSmart w < 2 ^ 32) →
  let w' := Unserialize (Serialize w) w0 in
  tx w' = tx w ∧ mapValue w' = mapValue w ∧ vOrderForm w' = vOrderForm w
  ∧ fTimeReceivedIsTxTime w' = fTimeReceivedIsTxTime w
  ∧ nTimeReceived w' = nTimeReceived w ∧ fFromMe w' = fFromMe w
  ∧ nOrderPos w' = nOrderPos w ∧ nTimeSmart w' = nTimeSmart w.
Proof.
  intros Hfree Hpos Hsmart w'. subst w'.
  set (s := Serialize w).
  destruct (restore_status_frame (s_nIndex s) (read_fields s w0))
    as (Hmv & Hof & Hft & Hnt & Hfm & Htx & _).
  assert (mapValue w !! "n"%string = None) as Hn
    by (apply Hfree; unfold reserved_key; auto).
  assert (mapValue w !! "timesmart"%string = None) as Hts
    by (apply Hfree; unfold reserved_key; auto).
  unfold CWalletTx.Unserialize. cbn [tx mapValue vOrderForm
    fTimeReceivedIsTxTime nTimeReceived fFromMe nOrderPos nTimeSmart].
  rewrite Htx, Hmv, Hof, Hft, Hnt, Hfm. cbn [read_fields tx mapValue vOrderForm
    fTimeReceivedIsTxTime nTimeReceived fFromMe].
  repeat split; try reflexivity.
  - apply map_eq. intros k. rewrite lookup_erased.
    destruct (decide (reserved_key k)) as [Hk|Hk].
    + symmetry. by apply Hfree.
    + by apply lookup_written.
  - unfold ReadOrderPos. subst s. rewrite (written_n w Hn).
    case_bool_decide as Hp; [done | by apply Hpos].
  - subst s. rewrite (written_timesmart w Hts).
    case_bool_decide as Hz; [done|].
    destruct (Hsmart Hz) as [-> Hrange]. unfold to_unsigned_int.
    by apply Z.mod_small.
Qed.

(** X3: whatever the stream holds, the map of a transaction just read has
    none of the keys "fromaccount", "spent", "n" and "timesmart"; every other
    entry of the stored map is kept. *)
Theorem unserialize_strips_reserved_keys s w (k : string) :
  mapValue (Unserialize s w) !! k
  = if decide (reserved_key k) then None else s_mapValue s !! k.
Proof.
  destruct (restore_status_frame (s_nIndex s) (read_fields s w)) as (Hmv & _).
  unfold CWalletTx.Unserialize. cbn [mapValue]. rewrite Hmv. cbn [read_fields mapValue].
  apply lookup_erased.
Qed.

(** X4: what the stream does not hold is not restored.  After [Unserialize]
    the block height is 0 whatever the status, the wallet pointer is null,
    the mempool flag and the cached change are cleared; the amount caches and
    the caches-empty flag are those the object had before. *)
Theorem unserialize_resets_local_state s w :
  let w' := Unserialize s w in
  block_height (m_confirm w') = 0
  ∧ pwallet w' = None
  ∧ fInMempool w' = false ∧ fChangeCached w' = false ∧ nChangeCached w' = 0
  ∧ m_amounts w' = m_amounts w ∧ m_is_cache_empty w' = m_is_cache_empty w.
Proof.
  intros w'. subst w'.
  destruct (restore_status_frame (s_nIndex s) (read_fields s w))
    as (_ & _ & _ & _ & _ & _ & Hpw & Ham & Hce & Hcc & Hmp & Hch).
  split.
  - rewrite m_confirm_Unserialize, restore_status_cases, m_confirm_read_fields.
    cbn. repeat case_bool_decide; cbn; try done. by destruct (IsNull _).
  - unfold CWalletTx.Unserialize. cbn [pwallet fInMempool fChangeCached
      nChangeCached m_amounts m_is_cache_empty].
    by rewrite Hpw, Ham, Hce, Hcc, Hmp, Hch.
Qed.

(** X5: for a Conflicted transaction whose block hash is not [ABANDON_HASH],
    the hash of the conflicting block survives the round trip, while the
    index in the block and the block height come back as 0; an Abandoned
    transaction comes back with an all-zero confirmation. *)
Theorem serialize_round_trip_conflicted w w0 :
  let w' := Unserialize (Serialize w) w0 in
  (status (m_confirm w) = CONFLICTED →
   hashBlock (m_confirm w) ≠ ABANDON_HASH →
   m_confirm w' = mkConfirmation CONFLICTED 0 (hashBlock (m_confirm w)) 0)
  ∧ (status (m_confirm w) = ABANDONED →
     m_confirm w' = mkConfirmation ABANDONED 0 uint256_zero 0).
Proof.
  intros w'. subst w'.
  rewrite m_confirm_Unserialize, restore_status_cases, m_confirm_read_fields.
  unfold CWalletTx.Serialize, isAbandoned, isConflicted. cbn.
  split; intros Hst; rewrite Hst; [intros Hne|];
    repeat case_bool_decide; cbn; done.
Qed.

(** X6: [MarkDirty] is idempotent, binding a wallet twice is binding the
    last one, and a bound transaction has empty caches and the confirmation it
    had. *)
Theorem MarkDirty_idempotent w (p q : option N) :
  MarkDirty (MarkDirty w) = MarkDirty w
  ∧ BindWallet p (BindWallet q w) = BindWallet p w
  ∧ MarkDirty (BindWallet p w) = BindWallet p w
  ∧ m_is_cache_empty (BindWallet p w) = true
  ∧ pwallet (BindWallet p w) = p
  ∧ m_confirm (BindWallet p w) = m_confirm w.
Proof. by destruct w. Qed.

End CWalletTxStorage.

(** ** Inline members of CWallet *)

Section CWalletInlineFacts.

Import CWalletInline.

(** X7: [LoadMinVersion] returns true, makes the loaded version the current
    one, never lowers the maximum version, and leaves the current version at
    most the maximum -- so the loaded version and every feature supported
    before are supported afterwards. *)
Theorem LoadMinVersion_keeps_versions_ordered (nVersion : Z) (v : Versions) :
  let r := LoadMinVersion nVersion v in
  r.1 = true
  ∧ GetVersion r.2 = nVersion
  ∧ nWalletVersion r.2 <= nWalletMaxVersion r.2
  ∧ nWalletMaxVersion v <= nWalletMaxVersion r.2
  ∧ CanSupportFeature nVersion r.2 = true
  ∧ (∀ wf, CanSupportFeature wf v = true → CanSupportFeature wf r.2 = true).
Proof.
  cbn. unfold CanSupportFeature. cbn.
  repeat split; try lia.
  - apply bool_decide_eq_true. lia.
  - intros wf Hwf. apply bool_decide_eq_true in Hwf.
    apply bool_decide_eq_true. lia.
Qed.

(** X8: [GetLastBlockHeight] answers exactly when the recorded height is not
    negative, and then with that height: after [SetLastBlockProcessed] with a
    non-negative height it is the height just set, while a wallet that has
    processed no block (height -1), or was set to a negative height, fails
    the assertion. *)
Theorem GetLastBlockHeight_after_set (h : Z) (hash : uint256) (t : Tip) :
  GetLastBlockHeight (SetLastBlockProcessed h hash t)
  = (if bool_decide (0 <= h) then Some h else None)
  ∧ GetLastBlockHeight Tip_initial = None
  ∧ (∀ h', GetLastBlockHeight t = Some h'
           ↔ m_last_block_processed_height t = h' ∧ 0 <= h').
Proof.
  unfold GetLastBlockHeight. cbn. split; [|split; [done|]].
  - repeat case_bool_decide; done || lia.
  - intros h'. case_bool_decide as Hh; split.
    + intros [= <-]. split; [done | lia].
    + by intros [<- _].
    + done.
    + intros [<- ?]. lia.
Qed.

(** [String.append] does not unfold under [cbn]; this exposes one step. *)
Ltac unfold_append :=
  cbv beta iota delta [String.append String.length];
  fold String.append String.length.

Lemma string_app_bracket_inj (a b : string) :
  (a +:+ "]")%string = (b +:+ "]")%string → a = b.
Proof.
  revert b. induction a as [|c a IH]; intros [|d b]; unfold_append; try done.
  - intros [= _ Hb]. destruct b; unfold_append; done.
  - intros [= _ Ha]. destruct a; unfold_append; done.
  - intros [= -> Hab]. f_equal. by apply IH.
Qed.

Lemma string_length_app (a b : string) :
  String.length (a +:+ b) = (String.length a + String.length b)%nat.
Proof.
  induction a as [|c a IH]; [done|]. unfold_append. by rewrite IH.
Qed.

(** X9: the display name is the wallet name in square brackets, the unnamed
    wallet showing as "[default wallet]".  It is never empty, and two wallets
    show the same display name only if they have the same name, or one is
    unnamed and the other is named "default wallet". *)
Theorem GetDisplayName_collisions (a b : string) :
  String.length (GetDisplayName a)
  = (if bool_decide (String.length a = 0%nat) then 16%nat
     else 2 + String.length a)%nat
  ∧ GetDisplayName EmptyString = GetDisplayName "default wallet"
  ∧ (GetDisplayName a = GetDisplayName b →
     a = b
     ∨ (a = EmptyString ∧ b = "default wallet"%string)
     ∨ (a = "default wallet"%string ∧ b = EmptyString)).
Proof.
  split; [|split; [done|]].
  - unfold GetDisplayName. cbn. rewrite !string_length_app.
    case_bool_decide; cbn; [done | lia].
  - unfold GetDisplayName. intros Heq.
    injection Heq as Heq. apply string_app_bracket_inj in Heq.
    repeat case_bool_decide.
    + left. destruct a, b; done.
    + right; left. split; [by destruct a | done].
    + right; right. split; [done | by destruct b].
    + by left.
Qed.

(** X10: an address book entry is a change entry exactly as long as no label
    was ever set on it: after any series of [SetLabel] calls, even with an
    empty label, the entry is no longer change and carries the last label;
    purpose and destination data are untouched. *)
Theorem SetLabel_ends_change (labels : list string) (d : CAddressBookData) :
  let d' := foldl (λ acc label, SetLabel label acc) d labels in
  IsChange d' = IsChange d && bool_decide (labels = [])
  ∧ GetLabel d' = default (GetLabel d) (last labels)
  ∧ purpose d' = purpose d ∧ destdata d' = destdata d
  ∧ IsChange CAddressBookData_new = true.
Proof.
  intros d'. subst d'. revert d. induction labels as [|l labels IH]; intros d.
  - cbn. by rewrite andb_true_r.
  - cbn [foldl]. destruct (IH (SetLabel l d)) as (Hc & Hl & Hp & Hd & _).
    rewrite Hc, Hl, Hp, Hd. clear. cbn. rewrite andb_false_r.
    split; [done|]. split; [|done]. rewrite last_cons. by destruct (last labels).
Qed.

Section ReservationFacts.

Context {double : Type}.
Variable double_zero : double.

Implicit Types (s : Scanning double) (r : WalletRescanReserver)
  (sys : Reservers double).

Local Abbreviation reserve := (reserve double_zero).
Local Abbreviation reserver_step := (reserver_step double_zero).
Local Abbreviation reserver_run := (reserver_run double_zero).

Lemma reserver_step_consistent sys op sys' :
  copies op = false →
  reservation_consistent sys → reserver_step sys op = Some sys' →
  reservation_consistent sys'.
Proof.
  destruct sys as [sc al]. unfold reservation_consistent. cbn.
  intros Hplain [Hone Hscan] Hstep.
  destruct op as [i | i now | i | i j | i j]; try done; cbn in Hstep.
  - destruct (al !! i) eqn:Hi; [done|]. injection Hstep as <-. split; cbn.
    + intros j k rj rk Hj Hk Hcj Hck.
      apply lookup_insert_Some in Hj as [[<- <-]|[Hne Hj]]; [done|].
      apply lookup_insert_Some in Hk as [[<- <-]|[Hne' Hk]]; [done|].
      by eapply Hone.
    + rewrite Hscan. split; intros (j & r & Hj & Hc).
      * exists j, r. split; [|done]. rewrite lookup_insert_ne; [done|].
        intros <-. by rewrite Hi in Hj.
      * apply lookup_insert_Some in Hj as [[<- <-]|[Hne Hj]]; [done|]. eauto.
  - destruct (al !! i) as [r|] eqn:Hi; [|done]. cbn in Hstep.
    unfold CWalletInline.reserve in Hstep.
    destruct (m_could_reserve r) eqn:Hr; [done|].
    destruct (fScanningWallet sc) eqn:Hs; cbn in Hstep;
      injection Hstep as <-.
    + rewrite insert_id by done. cbn. rewrite Hs. by split.
    + assert (∀ j rj, al !! j = Some rj → m_could_reserve rj = false)
        as Hnone.
      { intros j rj Hj. destruct (m_could_reserve rj) eqn:Hc; [|done].
        assert (false = true) as Habs by (apply Hscan; eauto). done. }
      split; cbn.
      * intros j k rj rk Hj Hk Hcj Hck.
        apply lookup_insert_Some in Hj as [[<- <-]|[Hne Hj]];
          apply lookup_insert_Some in Hk as [[<- <-]|[Hne' Hk]]; try done.
        -- by rewrite (Hnone _ _ Hk) in Hck.
        -- by rewrite (Hnone _ _ Hj) in Hcj.
        -- by rewrite (Hnone _ _ Hj) in Hcj.
      * split; [|done]. intros _. exists i, (mkReserver true).
        by rewrite lookup_insert_eq.
  - destruct (al !! i) as [r|] eqn:Hi; [|done]. cbn in Hstep.
    injection Hstep as <-. unfold Reserver_destroy. split; cbn.
    + intros j k rj rk Hj Hk Hcj Hck.
      apply lookup_delete_Some in Hj as [_ Hj].
      apply lookup_delete_Some in Hk as [_ Hk]. by eapply Hone.
    + destruct (m_could_reserve r) eqn:Hr; cbn.
      * split; [done|]. intros (j & rj & Hj & Hc).
        apply lookup_delete_Some in Hj as [Hne Hj].
        destruct Hne. by eapply Hone.
      * rewrite Hscan. split; intros (j & rj & Hj & Hc).
        -- exists j, rj. split; [|done]. apply lookup_delete_Some. split; [|done].
           intros <-. rewrite Hi in Hj. injection Hj as <-. by rewrite Hr in Hc.
        -- apply lookup_delete_Some in Hj as [_ Hj]. eauto.
Qed.

Lemma reserver_run_consistent ops sys sys' :
  Forall (λ op, copies op = false) ops →
  reservation_consistent sys → reserver_run sys ops = Some sys' →
  reservation_consistent sys'.
Proof.
  intros Hplain. revert sys.
  induction Hplain as [|op ops Hop _ IH]; intros sys Hinv; cbn.
  - by intros [= <-].
  - destruct (reserver_step sys op) as [sys1|] eqn:Hstep; [|done]. cbn.
    apply IH. by eapply reserver_step_consistent.
Qed.

(** X11: rescan reservations exclude one another as long as no reserver is
    copied.  Whatever reservers a program constructs, reserves through and
    destroys on a wallet that starts out not scanning, at most one reserver
    alive is reserved at any time, and the wallet reports itself as scanning
    exactly when one is.  The class can be copied, though, and the copy of a
    reserved reserver is a second one that is alive and reserved. *)
Theorem rescan_reservation_exclusive (ops : list ReserverOp) s sys :
  fScanningWallet s = false →
  (Forall (λ op, copies op = false) ops →
   reserver_run (mkReservers s ∅) ops = Some sys →
   (∀ i j ri rj,
      alive sys !! i = Some ri → alive sys !! j = Some rj →
      isReserved (scanning sys) ri = true →
      isReserved (scanning sys) rj = true → i = j)
   ∧ (IsScanning (scanning sys) = true
      ↔ ∃ i r, alive sys !! i = Some r ∧ isReserved (scanning sys) r = true))
  ∧ (∀ now, ∃ copied r0 r1,
       reserver_run (mkReservers s ∅)
         [Construct 0; Reserve 0 now; Copy 0 1] = Some copied
       ∧ alive copied !! 0%nat = Some r0 ∧ alive copied !! 1%nat = Some r1
       ∧ isReserved (scanning copied) r0 = true
       ∧ isReserved (scanning copied) r1 = true).
Proof.
  intros Hidle. split.
  - intros Hplain Hrun.
    assert (reservation_consistent (mkReservers s ∅)) as Hinit.
    { split; cbn; [intros ? ? ? ? Hi; by rewrite lookup_empty in Hi|].
      rewrite Hidle. split; [done|]. intros (i & r & Hi & _).
      by rewrite lookup_empty in Hi. }
    destruct (reserver_run_consistent _ _ _ Hplain Hinit Hrun) as [Hone Hscan].
    unfold isReserved, IsScanning. split.
    + intros i j ri rj Hi Hj Hri Hrj.
      apply andb_true_iff in Hri as [Hri _].
      apply andb_true_iff in Hrj as [Hrj _].
      by eapply Hone.
    + rewrite Hscan. split; intros (i & r & Hi & Hr).
      * exists i, r. split; [done|]. rewrite Hr. cbn. apply Hscan. eauto.
      * apply andb_true_iff in Hr as [Hr _]. eauto.
  - intros now. destruct s as [abort scan start progress].
    cbn in Hidle. subst scan.
    exists (mkReservers (mkScanning abort true now double_zero)
              (<[1%nat := mkReserver true]> {[ 0%nat := mkReserver true ]})),
      (mkReserver true), (mkReserver true).
    split; [|by repeat split]. cbn. rewrite lookup_empty. cbn.
    rewrite lookup_insert_eq. cbn. rewrite lookup_insert_eq. cbn.
    rewrite insert_insert_eq, insert_empty.
    by rewrite lookup_singleton_ne.
Qed.

(** X12: a wallet that is not scanning reports duration 0 and progress 0.  A
    successful [reserve] at time [t0] starts the scan: the duration read at
    [now] is [now - t0] and the progress is 0; [reserve] on a scanning wallet
    returns false and changes nothing; and destroying a reserver that holds
    no reservation leaves the wallet as it is.  None of these touches the
    abort flag. *)
Theorem rescan_status_after_reserve (t0 now : Z) s :
  (fScanningWallet s = false →
   ScanningDuration now s = 0 ∧ ScanningProgress double_zero s = double_zero
   ∧ ∃ s', reserve t0 s Reserver_new = Some (true, s', mkReserver true)
           ∧ IsScanning s' = true
           ∧ ScanningDuration now s' = now - t0
           ∧ ScanningProgress double_zero s' = double_zero
           ∧ IsAbortingRescan s' = IsAbortingRescan s
           ∧ Reserver_destroy s' (mkReserver true)
             = mkScanning (fAbortRescan s) false t0 double_zero)
  ∧ (fScanningWallet s = true →
     reserve t0 s Reserver_new = Some (false, s, Reserver_new))
  ∧ Reserver_destroy s Reserver_new = s.
Proof.
  unfold ScanningDuration, ScanningProgress, CWalletInline.reserve. cbn.
  split; [|split; [by intros ->|done]].
  intros ->. repeat split. eexists. repeat split.
Qed.

End ReservationFacts.

End CWalletInlineFacts.

(** ** Token, delegation and super staker records *)

Section DataRecordFacts.

Import DataStream.

(** X13: token, delegation and super staker records survive being written to
    and read from a stream that is not of hash type: reading what was written
    gives back every field, whatever the object read into held before, and
    leaves the rest of the stream in place. *)
Theorem data_records_round_trip (rest : list Item)
    (tok tok0 : CTokenInfo.t) (del del0 : CDelegationInfo.t)
    (sup sup0 : CSuperStakerInfo.t) :
  CTokenInfo.Unserialize false (CTokenInfo.Serialize false tok ++ rest) tok0
  = Some (tok, rest)
  ∧ CDelegationInfo.Unserialize false
      (CDelegationInfo.Serialize false del ++ rest) del0
    = Some (del, rest)
  ∧ CSuperStakerInfo.Unserialize false
      (CSuperStakerInfo.Serialize false sup ++ rest) sup0
    = Some (sup, rest).
Proof. by destruct tok, del, sup. Qed.

(** X14: a token transaction survives the round trip exactly when its label
    passes the 65536 limit on reading: then every field comes back; a label
    that does not pass is written all the same, and reading it fails. *)
Theorem token_tx_round_trip (accepts : Z → string → bool)
    (rest : list Item) (x x0 : CTokenTx.t) :
  CTokenTx.Unserialize accepts false (CTokenTx.Serialize false x ++ rest) x0
  = if accepts 65536 (CTokenTx.strLabel x) then Some (x, rest) else None.
Proof. destruct x. cbn. by destruct (accepts _ _). Qed.

(** X15: the hash form of a record holds its identifying fields only.  Two
    token infos have the same hash form exactly when decimals, contract
    address and sender address agree; two token transactions when contract,
    sender, receiver, value and transaction hash agree; two delegations when
    delegate, staker and staker name agree; two super stakers when staker and
    staker name agree.  Creation time, block, label, fee and configuration
    play no part. *)
Theorem hash_form_identity (tok tok' : CTokenInfo.t) (ttx ttx' : CTokenTx.t)
    (del del' : CDelegationInfo.t) (sup sup' : CSuperStakerInfo.t) :
  (CTokenInfo.Serialize true tok = CTokenInfo.Serialize true tok'
   ↔ CTokenInfo.nDecimals tok = CTokenInfo.nDecimals tok'
     ∧ CTokenInfo.strContractAddress tok = CTokenInfo.strContractAddress tok'
     ∧ CTokenInfo.strSenderAddress tok = CTokenInfo.strSenderAddress tok')
  ∧ (CTokenTx.Serialize true ttx = CTokenTx.Serialize true ttx'
     ↔ CTokenTx.strContractAddress ttx = CTokenTx.strContractAddress ttx'
       ∧ CTokenTx.strSenderAddress ttx = CTokenTx.strSenderAddress ttx'
       ∧ CTokenTx.strReceiverAddress ttx = CTokenTx.strReceiverAddress ttx'
       ∧ CTokenTx.nValue ttx = CTokenTx.nValue ttx'
       ∧ CTokenTx.transactionHash ttx = CTokenTx.transactionHash ttx')
  ∧ (CDelegationInfo.Serialize true del = CDelegationInfo.Serialize true del'
     ↔ CDelegationInfo.delegateAddress del = CDelegationInfo.delegateAddress del'
       ∧ CDelegationInfo.stakerAddress del = CDelegationInfo.stakerAddress del'
       ∧ CDelegationInfo.strStakerName del = CDelegationInfo.strStakerName del')
  ∧ (CSuperStakerInfo.Serialize true sup = CSuperStakerInfo.Serialize true sup'
     ↔ CSuperStakerInfo.stakerAddress sup = CSuperStakerInfo.stakerAddress sup'
       ∧ CSuperStakerInfo.strStakerName sup = CSuperStakerInfo.strStakerName sup').
Proof.
  unfold CTokenInfo.Serialize, CTokenTx.Serialize, CDelegationInfo.Serialize,
    CSuperStakerInfo.Serialize. cbn.
  split; [|split; [|split]]; (split; [intros Heq; by simplify_eq|]).
  - by intros (-> & -> & ->).
  - by intros (-> & -> & -> & -> & ->).
  - by intros (-> & -> & ->).
  - by intros (-> & ->).
Qed.

End DataRecordFacts.

(** ** WalletModel: what a request and a poll leave behind *)

Section WalletModelFurther.

Import WalletModel WalletModelMore.

Context {CTransactionRef CScript CCoinControl WalletBalances : Type}.

Abbreviation Wallet' :=
  (Wallet CTransactionRef CScript CCoinControl WalletBalances).
Abbreviation Transaction' := (WalletModelTransaction CTransactionRef).

Variable IsValidDestinationString : string → bool.
Variable scriptForAddress : string → CScript.
Variable reassignAmounts : Z → Transaction' → Transaction'.

Local Abbreviation prepare :=
  (prepareTransaction IsValidDestinationString scriptForAddress reassignAmounts).
Local Abbreviation precheck' :=
  (precheck IsValidDestinationString scriptForAddress).
Local Abbreviation well_formed := (well_formed IsValidDestinationString).
Local Abbreviation to_CRecipient := (to_CRecipient scriptForAddress).

(** The loop over a list in two parts is the loop over the first part and,
    unless that returned, the loop over the second. *)
Lemma precheck_app good more (st : Checked) :
  precheck' (good ++ more) st
  = match precheck' good st with
    | inl code => inl code
    | inr st' => precheck' more st'
    end.
Proof.
  revert st. induction good as [|rcp good IH]; intros st; [done|].
  cbn [app precheck].
  destruct (negb (validateAddress IsValidDestinationString (address rcp)));
    [done|].
  case_bool_decide; [done|]. apply IH.
Qed.

(** The loop returns early with one of its two codes only. *)
Lemma precheck_inl rs (st : Checked) code :
  precheck' rs st = inl code → code = InvalidAddress ∨ code = InvalidAmount.
Proof.
  revert st. induction rs as [|rcp rs IH]; intros st; [done|].
  cbn [precheck]. repeat case_match; intros Heq; simplify_eq; eauto.
Qed.

(** The loop runs to its end only over recipients that each pass. *)
Lemma precheck_inr rs (st st' : Checked) :
  precheck' rs st = inr st' → Forall well_formed rs.
Proof.
  revert st. induction rs as [|rcp rs IH]; intros st; [by constructor|].
  cbn [precheck]. unfold validateAddress.
  destruct (IsValidDestinationString (address rcp)) eqn:Hv; [|done].
  cbn [negb]. case_bool_decide as Ha; [done|].
  intros Heq. constructor; [split; [done|lia]|by eapply IH].
Qed.

Lemma size_list_to_set_le (l : list string) :
  (size (list_to_set (C := gset string) l) ≤ length l)%nat.
Proof.
  induction l as [|a l IH]; cbn [list_to_set length].
  - by rewrite size_empty.
  - rewrite size_union_alt, size_singleton.
    assert (list_to_set l ∖ {[a]} ⊆ list_to_set (C := gset string) l) as Hsub
      by apply subseteq_difference_l, reflexivity.
    apply subseteq_size in Hsub. lia.
Qed.

(** Counting the set of addresses finds the list's length only when no
    address occurs twice. *)
Lemma size_list_to_set_NoDup (l : list string) :
  size (list_to_set (C := gset string) l) = length l → NoDup l.
Proof.
  induction l as [|a l IH]; cbn [list_to_set length]; [constructor|].
  intros Hsize. destruct (decide (a ∈ l)) as [Hin|Hin].
  - pose proof (size_list_to_set_le l) as Hle.
    assert ({[a]} ∪ list_to_set l = list_to_set (C := gset string) l) as Heq.
    { apply subseteq_union_1_L, singleton_subseteq_l, elem_of_list_to_set, Hin. }
    rewrite Heq in Hsize. lia.
  - constructor; [done|]. apply IH.
    rewrite size_union, size_singleton in Hsize; [lia|].
    apply disjoint_singleton_l. by rewrite elem_of_list_to_set.
Qed.

(** X16: [prepareTransaction] asks the wallet to create a transaction at most
    once.  It does not ask at all exactly when the request is empty or is
    turned down by the input checks or the balance check; the transaction
    object is then as it was handed in and nothing has been signalled.  The
    [message] signal is emitted exactly when the answer is
    [TransactionCreationFailed]. *)
Theorem prepareTransaction_wallet_calls (m_wallet : Wallet')
    (transaction : Transaction') (coinControl : CCoinControl) :
  let run := prepare m_wallet transaction coinControl in
  let code := run.1.1 in
  (create_calls run.2 ≤ 1)%nat
  ∧ (create_calls run.2 = 0%nat ↔
     recipients transaction = [] ∨ code = InvalidAddress ∨ code = InvalidAmount
     ∨ code = DuplicateAddress ∨ code = AmountExceedsBalance)
  ∧ (create_calls run.2 = 0%nat → run.2 = [] ∧ run.1.2 = transaction)
  ∧ ((∃ title text, EmitMessage title text ∈ run.2) ↔
     code = TransactionCreationFailed).
Proof.
  intros run code. subst run code. unfold prepareTransaction.
  case_bool_decide as Hrs.
  { cbn. split; [lia|]. split; [by split; [left|]|]. split; [done|].
    split; [|done]. intros (? & ? & Hin). by apply elem_of_nil in Hin. }
  destruct (precheck' (recipients transaction) checked_init) as [c|st] eqn:Hpre.
  { apply precheck_inl in Hpre. cbn. split; [lia|]. split; [split; [tauto|done]|].
    split; [done|]. split.
    - intros (? & ? & Hin). by apply elem_of_nil in Hin.
    - by destruct Hpre as [-> | ->]. }
  set (r := createTransaction m_wallet (c_vecSend st) coinControl _).
  case_bool_decide as Hdup.
  { cbn. split; [lia|]. split; [split; [tauto|done]|]. split; [done|].
    split; [|done]. intros (? & ? & Hin). by apply elem_of_nil in Hin. }
  case_bool_decide as Hbal.
  { cbn. split; [lia|]. split; [split; [tauto|done]|]. split; [done|].
    split; [|done]. intros (? & ? & Hin). by apply elem_of_nil in Hin. }
  destruct (newTx r) as [ptx|] eqn:Hnew.
  - case_bool_decide; cbn.
    all: split; [lia|]; split;
      [split; [done|by intros [?|[?|[?|[?|?]]]]]|]; split; [done|].
    all: split; [|done]; intros (? & ? & Hin).
    all: by apply list_elem_of_singleton in Hin.
  - destruct (negb (c_fSubtractFeeFromAmount st) && _); cbn.
    all: split; [lia|]; split;
      [split; [done|by intros [?|[?|[?|[?|?]]]]]|]; split; [done|].
    + split; [|done]. intros (? & ? & Hin).
      by apply list_elem_of_singleton in Hin.
    + split; [done|]. intros _. eexists _, _.
      rewrite !elem_of_cons. by right; left.
Qed.

(** X17: an [OK] for a request that names recipients means every check has
    been passed: each address is valid, each amount positive, no address
    occurs twice, the [int64_t] total of the amounts is within the available
    balance -- and so is their sum, when it is at most [INT64_MAX] -- the
    wallet has created a transaction and its fee is within the wallet's
    maximum.  The wallet was asked once, with the recipients in their order,
    and the transaction object carries the created transaction and its
    fee. *)
Theorem prepareTransaction_OK_checked (m_wallet : Wallet')
    (transaction : Transaction') (coinControl : CCoinControl) :
  let rs := recipients transaction in
  let sign := negb (privateKeysDisabled m_wallet) in
  let vecSend := to_CRecipient <$> rs in
  let r := createTransaction m_wallet vecSend coinControl sign in
  let t1 := mkWMT rs (newTx r) (nFeeRequired r) in
  let run := prepare m_wallet transaction coinControl in
  rs ≠ [] → run.1.1 = OK →
  Forall well_formed rs
  ∧ NoDup (address <$> rs)
  ∧ total_after 0 rs <= getAvailableBalance m_wallet coinControl
  ∧ (total_amount rs <= INT64_MAX →
     total_amount rs <= getAvailableBalance m_wallet coinControl)
  ∧ is_Some (newTx r)
  ∧ nFeeRequired r <= getDefaultMaxTxFee m_wallet
  ∧ run.2 = [CallCreateTransaction vecSend sign]
  ∧ run.1.2 = (if subtracts_fee rs then reassignAmounts (nChangePosRet r) t1
               else t1).
Proof.
  intros rs sign vecSend r t1 run Hne Hok.
  assert (Forall well_formed rs ∧ NoDup (address <$> rs)) as [Hwf Hnd].
  { subst run. unfold prepareTransaction in Hok. fold rs in Hok.
    rewrite bool_decide_eq_false_2 in Hok by done.
    destruct (precheck' rs checked_init) as [c|st] eqn:Hpre.
    { apply precheck_inl in Hpre. cbn in Hok. by destruct Hpre; simplify_eq. }
    pose proof (precheck_inr _ _ _ Hpre) as Hwf. split; [done|].
    rewrite (precheck_well_formed _ _ rs checked_init Hwf) in Hpre.
    simplify_eq. cbn in Hok.
    case_bool_decide as Hdup; [done|].
    apply size_list_to_set_NoDup.
    rewrite (right_id_L ∅ (∪)) in Hdup. rewrite length_fmap.
    lia. }
  subst run.
  rewrite (prepare_well_formed _ _ _ m_wallet transaction coinControl Hne Hwf Hnd)
    in Hok |- *.
  fold rs sign vecSend r t1 in Hok |- *.
  destruct (decide (total_after 0 rs > getAvailableBalance m_wallet coinControl))
    as [Hbal|Hbal].
  { by rewrite bool_decide_eq_true_2 in Hok. }
  rewrite (bool_decide_eq_false_2 (total_after 0 rs > _)) in Hok by done.
  rewrite (bool_decide_eq_false_2 (total_after 0 rs > _)) by done.
  assert (total_amount rs <= INT64_MAX →
          total_amount rs <= getAvailableBalance m_wallet coinControl) as Hsum.
  { intros Hfit.
    rewrite (total_after_exact _ 0 rs) in Hbal by (done || lia). lia. }
  destruct (newTx r) as [ptx|] eqn:Hnew; [|by case_match].
  destruct (decide (nFeeRequired r > getDefaultMaxTxFee m_wallet)) as [Hfee|Hfee].
  { by rewrite bool_decide_eq_true_2 in Hok. }
  rewrite (bool_decide_eq_false_2 (nFeeRequired r > _)) by done. cbn.
  rewrite ?andb_true_r.
  repeat split; eauto with lia.
Qed.

(** X18: the input checks stop at the first recipient that fails one, and
    look at its address before its amount.  With recipients before it that
    all pass, an invalid address gives [InvalidAddress] and a valid address
    with an amount of zero or less gives [InvalidAmount], whatever comes
    after it and whatever the wallet holds; the wallet is not asked and the
    transaction object is as it was. *)
Theorem prepareTransaction_first_offender (m_wallet : Wallet')
    (transaction : Transaction') (coinControl : CCoinControl)
    (good rest : list SendCoinsRecipient) (bad : SendCoinsRecipient) :
  recipients transaction = good ++ bad :: rest →
  Forall well_formed good →
  (IsValidDestinationString (address bad) = false →
   prepare m_wallet transaction coinControl = (InvalidAddress, transaction, []))
  ∧ (IsValidDestinationString (address bad) = true → amount bad <= 0 →
     prepare m_wallet transaction coinControl = (InvalidAmount, transaction, [])).
Proof.
  intros Hrs Hgood. unfold prepareTransaction. rewrite Hrs.
  rewrite bool_decide_eq_false_2 by (by destruct good).
  rewrite precheck_app, (precheck_well_formed _ _ good checked_init Hgood).
  cbn [precheck]. unfold validateAddress. split.
  - by intros ->.
  - intros -> Ha. cbn [negb]. by rewrite bool_decide_eq_true_2.
Qed.

(** X19: when every recipient passes the checks on its own, the answer is
    [DuplicateAddress] exactly when some address occurs twice in the
    request; the balance is not looked at before that. *)
Theorem prepareTransaction_duplicates (m_wallet : Wallet')
    (transaction : Transaction') (coinControl : CCoinControl) :
  let rs := recipients transaction in
  rs ≠ [] → Forall well_formed rs →
  (prepare m_wallet transaction coinControl).1.1 = DuplicateAddress
  ↔ ¬ NoDup (address <$> rs).
Proof.
  intros rs Hne Hwf. split.
  - intros Hdup Hnd. revert Hdup.
    rewrite (prepare_well_formed _ _ _ m_wallet transaction coinControl Hne Hwf Hnd).
    by repeat case_match.
  - intros Hnd. unfold prepareTransaction. fold rs.
    rewrite bool_decide_eq_false_2 by done.
    rewrite (precheck_well_formed _ _ rs checked_init Hwf). cbn.
    rewrite bool_decide_eq_true_2; [done|].
    intros Hsize. apply Hnd, size_list_to_set_NoDup.
    rewrite (right_id_L ∅ (∪)) in Hsize. rewrite length_fmap. lia.
Qed.

Section PollFurther.

Variable balanceChanged : WalletBalances → WalletBalances → bool.

Local Abbreviation poll := (pollBalanceChanged balanceChanged).

(** X20: while the node reports that it is syncing, polls are skipped until
    the poll counter reaches [pollSyncSkip]: each of them only advances the
    counter, whatever the wallet would have answered, and nothing is
    signalled. *)
Theorem pollBalanceChanged_skips_while_syncing (m_node : Node)
    (m_wallet : Wallet') (m : WalletModel.t WalletBalances) (numBlocks : Z)
    (n : nat) :
  tryGetSyncInfo m_node = Some (numBlocks, true) →
  pollNum m + Z.of_nat n < pollSyncSkip →
  poll_times balanceChanged m_node m_wallet n m
  = (WalletModel.mk (pollNum m + Z.of_nat n) (cachedNumBlocks m)
       (fForceCheckBalanceChanged m) (m_cached_balances m)
       (updateCoinAddresses m) (updateStakeWeight m), []).
Proof.
  intros Hsync. revert m. induction n as [|n IH]; intros m Hn.
  - destruct m; cbn. by rewrite Z.add_0_r.
  - assert (poll m_node m_wallet m
            = (WalletModel.mk (pollNum m + 1) (cachedNumBlocks m)
                 (fForceCheckBalanceChanged m) (m_cached_balances m)
                 (updateCoinAddresses m) (updateStakeWeight m), [])) as Hone.
    { unfold pollBalanceChanged. rewrite Hsync. cbn [pollNum andb].
      by rewrite bool_decide_eq_true_2 by lia. }
    cbn [poll_times]. rewrite Hone. cbn [fst snd].
    rewrite IH by (cbn; lia). cbn. do 2 f_equal. lia.
Qed.

(** X21: what a poll does to the cache and the flags.  [balanceChanged] is
    emitted only with balances that differ from the cached ones, which then
    become the cached ones, and the address refresh is requested with it; the
    cached balances move only together with that signal.  A poll never
    withdraws a pending request for an address or stake-weight refresh,
    never raises the force-check flag, and leaves the poll counter at zero or
    one higher than before. *)
Theorem pollBalanceChanged_cache_and_signal (m_node : Node)
    (m_wallet : Wallet') (m : WalletModel.t WalletBalances) :
  let run := poll m_node m_wallet m in
  (∀ b, EmitBalanceChanged b ∈ run.2 →
        m_cached_balances run.1 = b
        ∧ balanceChanged b (m_cached_balances m) = true
        ∧ updateCoinAddresses run.1 = true)
  ∧ (m_cached_balances run.1 = m_cached_balances m
     ∨ EmitBalanceChanged (m_cached_balances run.1) ∈ run.2)
  ∧ (updateCoinAddresses m = true → updateCoinAddresses run.1 = true)
  ∧ (updateStakeWeight m = true → updateStakeWeight run.1 = true)
  ∧ (fForceCheckBalanceChanged run.1 = true →
     fForceCheckBalanceChanged m = true)
  ∧ (pollNum run.1 = 0 ∨ pollNum run.1 = pollNum m + 1).
Proof.
  intros run. subst run. unfold pollBalanceChanged, checkBalanceChanged.
  assert (∀ m0 m' : WalletModel.t WalletBalances,
            m_cached_balances m' = m_cached_balances m0 →
            updateCoinAddresses m' = updateCoinAddresses m0 →
            updateStakeWeight m' = updateStakeWeight m0 →
            fForceCheckBalanceChanged m' = fForceCheckBalanceChanged m0 →
            pollNum m' = pollNum m0 + 1 →
            (∀ b, EmitBalanceChanged b ∈ (m', @nil (PollEvent WalletBalances)).2 →
                  m_cached_balances (m', @nil (PollEvent WalletBalances)).1 = b
                  ∧ balanceChanged b (m_cached_balances m0) = true
                  ∧ updateCoinAddresses (m', @nil (PollEvent WalletBalances)).1 = true)
            ∧ (m_cached_balances m' = m_cached_balances m0
               ∨ EmitBalanceChanged (m_cached_balances m') ∈ @nil (PollEvent WalletBalances))
            ∧ (updateCoinAddresses m0 = true → updateCoinAddresses m' = true)
            ∧ (updateStakeWeight m0 = true → updateStakeWeight m' = true)
            ∧ (fForceCheckBalanceChanged m' = true →
               fForceCheckBalanceChanged m0 = true)
            ∧ (pollNum m' = 0 ∨ pollNum m' = pollNum m0 + 1)) as Hquiet.
  { intros m0 m' -> -> -> -> ->. split; [by intros ? ?%elem_of_nil|].
    by repeat split; auto. }
  destruct (tryGetSyncInfo m_node) as [[numBlocks isSyncing]|];
    [|by apply Hquiet].
  destruct (isSyncing && _); [by apply Hquiet|].
  destruct (tryGetBalances _ _ _ _) as [[new_balances numBlocks']|];
    [|by apply Hquiet].
  clear Hquiet. cbn.
  destruct (balanceChanged new_balances (m_cached_balances m)) eqn:Hchanged;
    destruct isSyncing; case_bool_decide; cbn.
  all: split; [intros b Hin; rewrite !elem_of_cons, elem_of_nil in Hin;
               repeat (destruct Hin as [Hin|Hin]; [by simplify_eq|]); done|].
  all: split; [first [by left | by right; rewrite elem_of_cons; left]|].
  all: by repeat split; auto.
Qed.

End PollFurther.

(** X22: a requested address refresh is retried until the wallet answers.
    With the request pending, every run of [checkCoinAddressesChanged] asks
    the wallet; the first answer is forwarded with [availableAddressesChanged]
    once and withdraws the request, so that later runs neither ask nor
    signal. *)
Theorem address_refresh_retried_until_answered
    (m : WalletModel.t WalletBalances) (k : nat)
    (spendable all : list string) (includeZeroValue : bool)
    (later : list (option (list string * list string * bool))) :
  updateCoinAddresses m = true →
  checkCoinAddressesChanged_each (replicate k None) m
  = (m, replicate k CallTryGetAvailableAddresses)
  ∧ checkCoinAddressesChanged_each
      (replicate k None ++ Some (spendable, all, includeZeroValue) :: later) m
    = (WalletModel.mk (pollNum m) (cachedNumBlocks m)
         (fForceCheckBalanceChanged m) (m_cached_balances m) false
         (updateStakeWeight m),
       replicate k CallTryGetAvailableAddresses
       ++ [CallTryGetAvailableAddresses;
           EmitAvailableAddressesChanged spendable all includeZeroValue]).
Proof.
  intros Hm.
  assert (∀ m' : WalletModel.t WalletBalances,
            updateCoinAddresses m' = false →
            checkCoinAddressesChanged_each later m' = (m', [])) as Hidle.
  { induction later as [|a later IH]; intros m' Hm'; [done|].
    assert (checkCoinAddressesChanged a m' = (m', [])) as Hstep
      by (unfold checkCoinAddressesChanged; by rewrite Hm').
    cbn [checkCoinAddressesChanged_each]. rewrite Hstep. cbn [fst snd].
    by rewrite IH. }
  assert (checkCoinAddressesChanged None m = (m, [CallTryGetAvailableAddresses]))
    as Hfail by (unfold checkCoinAddressesChanged; by rewrite Hm).
  induction k as [|k [IH1 IH2]].
  - split; [done|]. cbn [replicate app checkCoinAddressesChanged_each].
    unfold checkCoinAddressesChanged. rewrite Hm. cbn [fst snd].
    by rewrite Hidle.
  - cbn [replicate app checkCoinAddressesChanged_each].
    rewrite Hfail. cbn [fst snd]. by rewrite IH1, IH2.
Qed.

(** X23: a poll hands work to the worker's checks.  After a poll that
    emitted [balanceChanged] the next address check asks the wallet; after a
    poll that found the block count changed while the node was not syncing,
    the next stake-weight check asks the wallet. *)
Theorem poll_requests_refresh
    (balanceChanged : WalletBalances → WalletBalances → bool)
    (m_node : Node) (m_wallet : Wallet') (m : WalletModel.t WalletBalances)
    (answer : option (list string * list string * bool))
    (tryGetStakeWeight : Z → bool * Z) (nWeight : Z) :
  let run := pollBalanceChanged balanceChanged m_node m_wallet m in
  ((∃ b, EmitBalanceChanged b ∈ run.2) →
   CallTryGetAvailableAddresses ∈ (checkCoinAddressesChanged answer run.1).2)
  ∧ ((∃ numBlocks, tryGetSyncInfo m_node = Some (numBlocks, false)) →
     CheckTokenBalanceChanged ∈ run.2 →
     (checkStakeWeightChanged tryGetStakeWeight run.1 nWeight).2
     = [CallTryGetStakeWeight]).
Proof.
  intros run. split.
  - intros [b Hb].
    assert (updateCoinAddresses run.1 = true) as Hflag.
    { subst run. revert Hb. unfold pollBalanceChanged, checkBalanceChanged.
      destruct (tryGetSyncInfo m_node) as [[numBlocks isSyncing]|]; cbn;
        [|by intros ?%elem_of_nil].
      destruct (isSyncing && _); cbn; [by intros ?%elem_of_nil|].
      destruct (tryGetBalances _ _ _ _) as [[new_balances numBlocks']|]; cbn;
        [|by intros ?%elem_of_nil].
      destruct (balanceChanged _ _); destruct isSyncing; case_bool_decide; cbn;
        try done.
      all: intros Hin; rewrite !elem_of_cons, elem_of_nil in Hin.
      all: repeat (destruct Hin as [Hin|Hin]; [done|]); done. }
    unfold checkCoinAddressesChanged. rewrite Hflag.
    destruct answer as [[[? ?] ?]|]; cbn; rewrite elem_of_cons; by left.
  - intros [numBlocks Hsync] Hin.
    assert (updateStakeWeight run.1 = true) as Hflag.
    { subst run. revert Hin. unfold pollBalanceChanged, checkBalanceChanged.
      rewrite Hsync. cbn.
      destruct (tryGetBalances _ _ _ _) as [[new_balances numBlocks']|]; cbn;
        [|by intros ?%elem_of_nil].
      destruct (balanceChanged _ _); case_bool_decide; cbn; try done.
      intros Hin; rewrite !elem_of_cons, elem_of_nil in Hin.
      repeat (destruct Hin as [Hin|Hin]; [done|]); done. }
    unfold checkStakeWeightChanged. rewrite Hflag. by case_match.
Qed.

End WalletModelFurther.

(** ** WalletModel: status, signing and hardware slots *)

Section WalletModelSlots.

Import WalletModelMore.

Lemma updateStatus_each_from (observed : list (bool * bool))
    (cached : EncryptionStatus) (n : nat) :
  foldl (λ acc o, let r := updateStatus o.1 o.2 acc.1 in (r.1, (acc.2 + r.2)%nat))
        (cached, n) observed
  = (cached,
     (n + length (filter (λ o, getEncryptionStatus o.1 o.2 ≠ cached) observed))%nat).
Proof.
  revert n. induction observed as [|[c l] observed IH]; intros n; cbn [foldl].
  - cbn. f_equal. lia.
  - unfold updateStatus. cbn [fst snd].
    rewrite filter_cons. cbn [fst snd].
    case_bool_decide as Hne.
    + rewrite decide_True by congruence. cbn [fst snd].
      rewrite IH. cbn [length]. f_equal. lia.
    + rewrite decide_False by congruence. cbn [fst snd].
      rewrite IH. f_equal. lia.
Qed.

(** X24: [updateStatus] compares the wallet's encryption status with
    [cachedEncryptionStatus] but never stores the new status.  So over any
    sequence of calls the cached value stays what it was, and
    [encryptionStatusChanged] is emitted at every call at which the wallet's
    status differs from it, not only when the status has moved since the
    call before. *)
Theorem updateStatus_cache_never_refreshed (observed : list (bool * bool))
    (cached : EncryptionStatus) :
  (updateStatus_each observed cached).1 = cached
  ∧ (updateStatus_each observed cached).2
    = length (filter (λ o, getEncryptionStatus o.1 o.2 ≠ cached) observed).
Proof.
  unfold updateStatus_each. by rewrite updateStatus_each_from.
Qed.

(** X25: with private keys disabled a transaction is either created
    unsigned or signed with the hardware tool, and it is created unsigned
    unless hardware wallets are supported, the tool is installed and signing
    with it is switched on.  With private keys enabled neither holds.  Both
    hold together only when the tool is not installed. *)
Theorem createUnsigned_or_sign_with_tool (e : Signing) :
  (createUnsigned e = true ↔
   keysDisabled e = true
   ∧ HasHardwareWalletSupport e && hwiToolExists e && signpsbtwithhwitool e
     = false)
  ∧ (keysDisabled e = true →
     createUnsigned e = true ∨ getSignPsbtWithHwiTool e = true)
  ∧ (keysDisabled e = false →
     createUnsigned e = false ∧ getSignPsbtWithHwiTool e = false)
  ∧ (createUnsigned e = true → getSignPsbtWithHwiTool e = true →
     hwiToolExists e = false).
Proof.
  destruct e as [[] [] [] []]; cbn; intuition congruence.
Qed.

(** One import block decides [error] by whether its import goes through, and
    adds nothing but [importMulti] calls to what has happened. *)
Lemma import_block_spec (tool : HwiTool) (h : Hardware) (kind : KeyKind)
    (requested : bool) (path : string) (first error : bool) (message : string)
    (descs : list (list string)) :
  ∃ message' descs',
    import_block tool h kind requested path first
      (error, message, ImportMulti <$> descs)
    = (error || negb (import_succeeds tool h kind requested path), message',
       ImportMulti <$> (descs ++ descs')).
Proof.
  unfold import_block, import_succeeds.
  destruct requested; cbn [negb orb].
  - destruct (getKeyPool tool kind (fingerprint h) path) as [[] ds]; cbn.
    + destruct (importMulti tool ds); cbn.
      * exists message, [ds]. by rewrite orb_false_r, fmap_app.
      * eexists _, [ds]. by rewrite orb_true_r, fmap_app.
    + eexists _, []. by rewrite orb_true_r, app_nil_r.
  - exists message, []. by rewrite orb_false_r, app_nil_r.
Qed.

Lemma imports_no_rescan (descs : list (list string)) :
  RescanBlockchain ∉ ImportMulti <$> descs.
Proof. by intros (? & ? & _)%list_elem_of_fmap. Qed.

Lemma imports_no_message (descs : list (list string)) title text :
  EmitImportMessage title text ∉ ImportMulti <$> descs.
Proof. by intros (? & ? & _)%list_elem_of_fmap. Qed.

Ltac hardware_events :=
  repeat match goal with
  | H : _ ∈ _ ++ _ |- _ => apply elem_of_app in H as [H|H]
  | H : _ ∈ [_] |- _ => apply list_elem_of_singleton in H
  | H : RescanBlockchain ∈ ImportMulti <$> _ |- _ =>
      by apply imports_no_rescan in H
  | H : EmitImportMessage _ _ ∈ ImportMulti <$> _ |- _ =>
      by apply imports_no_message in H
  end.

Ltac hardware_last_event :=
  apply elem_of_app; right; by apply list_elem_of_singleton.

(** X26: the outcome of [checkHardwareWallet].  The set-up request is
    withdrawn and nothing else of the members changes.  The chain is
    rescanned exactly when set-up was requested with a rescan, the device is
    connected and every import asked for went through; the [message] signal
    is emitted exactly when set-up was requested and the device is not
    connected or an import failed, so never together with a rescan; its
    title is "Import addresses" and its text is not empty.  A check that
    follows does nothing. *)
Theorem checkHardwareWallet_outcome (tool : HwiTool) (h : Hardware) :
  let run := checkHardwareWallet tool h in
  let ready := isConnected tool (fingerprint h) false && imports_succeed tool h in
  run.1 = mkHardware false (fingerprint h) (rescan h) (importPKH h)
            (importP2SH h) (importBech32 h) (pathPKH h) (pathP2SH h)
            (pathBech32 h)
  ∧ (RescanBlockchain ∈ run.2 ↔
     hardwareWalletInitRequired h = true ∧ ready = true ∧ rescan h = true)
  ∧ ((∃ title text, EmitImportMessage title text ∈ run.2) ↔
     hardwareWalletInitRequired h = true ∧ ready = false)
  ∧ (∀ title text, EmitImportMessage title text ∈ run.2 →
       title = "Import addresses"%string ∧ String.length text ≠ 0%nat)
  ∧ (∀ tool', checkHardwareWallet tool' run.1 = (run.1, [])).
Proof.
  intros run ready. subst run ready. unfold checkHardwareWallet.
  destruct (hardwareWalletInitRequired h) eqn:Hreq.
  2:{ cbn. rewrite Hreq. split; [by destruct h; cbn in *; subst|].
      split; [split; [by intros ?%elem_of_nil|by intros [? _]]|].
      split; [split; [by intros (? & ? & ?%elem_of_nil)|by intros [? _]]|].
      split; [by intros ? ? ?%elem_of_nil|done]. }
  destruct (isConnected tool (fingerprint h) false) eqn:Hcon.
  2:{ cbn. split; [done|].
      split; [split; [|by intros (_ & ? & _)]|].
      { rewrite list_elem_of_singleton. done. }
      split; [split; [done|]|].
      { intros _. eexists _, _. by apply list_elem_of_singleton. }
      split; [|done].
      intros title text Hin%list_elem_of_singleton. by simplify_eq. }
  destruct (import_block_spec tool h PKH (importPKH h) (pathPKH h) true false
              EmptyString []) as (m1 & d1 & H1).
  destruct (import_block_spec tool h P2SH (importP2SH h) (pathP2SH h) false
              (false || negb (import_succeeds tool h PKH (importPKH h) (pathPKH h)))
              m1 ([] ++ d1)) as (m2 & d2 & H2).
  destruct (import_block_spec tool h Bech32 (importBech32 h) (pathBech32 h) false
              (false || negb (import_succeeds tool h PKH (importPKH h) (pathPKH h))
               || negb (import_succeeds tool h P2SH (importP2SH h) (pathP2SH h)))
              m2 (([] ++ d1) ++ d2)) as (m3 & d3 & H3).
  cbn [fmap list_fmap] in H1. rewrite H1, H2, H3. clear H1 H2 H3.
  unfold imports_succeed.
  generalize ((([] ++ d1) ++ d2) ++ d3). intros ds.
  destruct (import_succeeds tool h PKH (importPKH h) (pathPKH h)),
    (import_succeeds tool h P2SH (importP2SH h) (pathP2SH h)),
    (import_succeeds tool h Bech32 (importBech32 h) (pathBech32 h)),
    (rescan h); cbn.
  all: split; [done|].
  all: split;
    [split; [intros Hin; hardware_events; done
            |intros (? & ? & ?); first [done | hardware_last_event]]|].
  all: split;
    [split; [intros (? & ? & Hin); hardware_events; done
            |intros (? & ?); first [done | eexists _, _; hardware_last_event]]|].
  all: split; [|done].
  all: intros title text Hin; hardware_events; simplify_eq.
  all: split; [done|]; by case_bool_decide.
Qed.

(** X27: [checkHardwareDevice] refreshes the device list only after more
    than [DEVICE_UPDATE_DELAY] has passed since the last refresh; before
    that the list and the time stamp are kept.  A refresh stamps the time
    read at its end, and the new list holds exactly the valid devices that a
    successful enumeration reports under a fingerprint that is set: the
    staking one for the staking enumeration, the wallet's own for the
    other. *)
Theorem checkHardwareDevice_refresh {HWDevice : Type}
    (device_fingerprint : HWDevice → string) (isValid : HWDevice → bool)
    (DEVICE_UPDATE_DELAY time time_after : Z)
    (fingerprint_stake fingerprint_not_stake : string)
    (enumerate : bool → bool * list HWDevice)
    (deviceTime : Z) (devices : list HWDevice) :
  let run :=
    checkHardwareDevice device_fingerprint isValid DEVICE_UPDATE_DELAY time
      time_after fingerprint_stake fingerprint_not_stake enumerate deviceTime
      devices in
  let reported (stake : bool) (wanted : string) (d : HWDevice) :=
    String.length wanted ≠ 0%nat ∧ (enumerate stake).1 = true
    ∧ d ∈ (enumerate stake).2 ∧ device_fingerprint d = wanted in
  (time <= DEVICE_UPDATE_DELAY + deviceTime → run = (deviceTime, devices))
  ∧ (time > DEVICE_UPDATE_DELAY + deviceTime →
     run.1 = time_after
     ∧ ∀ d, d ∈ run.2 ↔
            isValid d = true
            ∧ (reported true fingerprint_stake d
               ∨ reported false fingerprint_not_stake d)).
Proof.
  intros run reported. subst run. unfold checkHardwareDevice.
  assert (∀ stake wanted d,
            d ∈ devices_for device_fingerprint isValid wanted (enumerate stake)
            ↔ isValid d = true ∧ reported stake wanted d) as Hfor.
  { intros stake wanted d. subst reported. unfold devices_for, matching_devices.
    case_bool_decide as Hlen; cbn [negb].
    { rewrite elem_of_nil. by intuition. }
    destruct (enumerate stake) as [[] found]; cbn [fst snd].
    2:{ rewrite elem_of_nil. by intuition. }
    rewrite list_elem_of_In, List.filter_In, <- list_elem_of_In.
    rewrite andb_true_iff, bool_decide_eq_true. by intuition. }
  split.
  - intros Hearly. by rewrite bool_decide_eq_false_2 by lia.
  - intros Hlate. rewrite bool_decide_eq_true_2 by lia. split; [done|].
    intros d. cbn [snd]. rewrite elem_of_app, !Hfor. tauto.
Qed.

(** X28: a receive request is kept under "rr" followed by its number, and
    two numbers never share a key: calls for the same key carry the same
    number.  An empty request text erases what is stored under the key;
    any other text is stored under it as it is. *)
Theorem saveReceiveRequest_keys (sAddress sAddress' : string) (nId nId' : Z)
    (sRequest sRequest' : string) :
  (call_key (saveReceiveRequest sAddress nId sRequest)
   = call_key (saveReceiveRequest sAddress' nId' sRequest') ↔ nId = nId')
  ∧ saveReceiveRequest sAddress nId EmptyString
    = EraseDestData sAddress (receive_request_key nId)
  ∧ (sRequest ≠ EmptyString →
     saveReceiveRequest sAddress nId sRequest
     = AddDestData sAddress (receive_request_key nId) sRequest).
Proof.
  assert (∀ a i r, call_key (saveReceiveRequest a i r) = receive_request_key i)
    as Hkey by (intros; unfold saveReceiveRequest; by case_bool_decide).
  rewrite !Hkey. split; [|split].
  - split; [|by intros ->]. unfold receive_request_key.
    intros Heq%(inj (String.app "rr")). by apply (inj pretty) in Heq.
  - done.
  - intros Hne. unfold saveReceiveRequest.
    rewrite bool_decide_eq_false_2; [done|]. by destruct sRequest.
Qed.

End WalletModelSlots.

(** ** Qt widgets *)

Section VersionCheckerFacts.

Import YuPostVersionChecker.

Lemma substring_prefix (v s : string) :
  String.substring 0 (String.length v) (v +:+ s) = v.
Proof.
  induction v as [|a v IH]; [by destruct s|].
  change (String a v +:+ s)%string with (String a (v +:+ s)).
  cbn [String.length String.substring]. by rewrite IH.
Qed.

Lemma substring_app_skip (p s : string) (n m : nat) :
  String.substring (String.length p + n) m (p +:+ s) = String.substring n m s.
Proof.
  induction p as [|a p IH]; [done|].
  change (String a p +:+ s)%string with (String a (p +:+ s)).
  cbn [String.length String.substring Nat.add]. apply IH.
Qed.

(** What [getVersions] cuts out of a match is the version with the end of
    the product name still in front of it. *)
Lemma versionString_release_name (v : string) :
  versionString (release_name v) = ("t-" +:+ v)%string.
Proof.
  unfold versionString, release_name.
  change ("yupost-" +:+ v +:+ "-")%string
    with ("yupos" +:+ (("t-" +:+ v) +:+ "-"))%string.
  generalize ("t-" +:+ v)%string. intros w. unfold mid.
  rewrite !string_length_app. cbn [String.length].
  rewrite bool_decide_eq_false_2 by lia.
  rewrite bool_decide_eq_false_2 by lia.
  replace (Z.to_nat (Z.of_nat (5 + (String.length w + 1)) - 6))
    with (String.length w) by lia.
  change (Z.to_nat 5) with (String.length "yupos" + 0)%nat.
  by rewrite substring_app_skip, substring_prefix.
Qed.

Section WithVersion.

Context {Version : Type}.
Variable Version_of_string : string → Version.
Variable Version_eq Version_lt : Version → Version → bool.
Variable Version_default : Version.

Local Abbreviation collect :=
  (λ (versions : list Version) (captured : string),
     let version := Version_of_string (versionString captured) in
     if negb (existsb (λ v, Version_eq v version) versions)
     then versions ++ [version]
     else versions).

Lemma getVersions_from (P : Version → Prop) (captures : list string)
    (versions : list Version) :
  Forall (λ captured, P (Version_of_string (versionString captured))) captures →
  Forall P versions →
  Forall P (foldl collect versions captures).
Proof.
  intros Hcaptures. revert versions.
  induction Hcaptures as [|captured captures Hc _ IH]; intros versions Hv;
    [done|].
  cbn [foldl]. apply IH. case_match; [|done].
  apply Forall_app. by split; [|constructor].
Qed.

Lemma getVersions_keeps (captures : list string) (versions : list Version) :
  versions ≠ [] → foldl collect versions captures ≠ [].
Proof.
  revert versions. induction captures as [|captured captures IH];
    intros versions Hne; [done|].
  cbn [foldl]. apply IH. case_match; [|done]. by destruct versions.
Qed.

Hypothesis Version_lt_irrefl : ∀ a, Version_lt a a = false.
Hypothesis Version_lt_trans :
  ∀ a b c, Version_lt a b = true → Version_lt b c = true → Version_lt a c = true.

Lemma max_element_from_largest (largest : Version) (seen rest : list Version) :
  largest ∈ seen →
  (∀ e, e ∈ seen → Version_lt largest e = false) →
  let m := max_element_from Version_lt largest rest in
  m ∈ seen ++ rest ∧ ∀ e, e ∈ seen ++ rest → Version_lt m e = false.
Proof.
  revert largest seen. induction rest as [|first rest IH];
    intros largest seen Hin Hub; cbn [max_element_from].
  - by rewrite app_nil_r.
  - rewrite (cons_middle first seen rest), app_assoc.
    destruct (Version_lt largest first) eqn:Hlt; apply IH.
    + apply elem_of_app. right. by apply list_elem_of_singleton.
    + intros e [He| ->%list_elem_of_singleton]%elem_of_app; [|done].
      destruct (Version_lt first e) eqn:Hfe; [|done].
      pose proof (Hub e He) as Hle.
      by rewrite (Version_lt_trans _ _ _ Hlt Hfe) in Hle.
    + apply elem_of_app. by left.
    + by intros e [He| ->%list_elem_of_singleton]%elem_of_app; [apply Hub|].
Qed.

(** X29: the release versions are read from text that still carries the end
    of the product name.  From a match "yupost-v-" the checker cuts "t-v",
    not "v", and builds every version of its list from such a text.  With
    [operator<] a strict order, [getMaxReleaseVersion] gives the
    default-constructed version when the page names no release, and
    otherwise a version of the list that is smaller than none of them. *)
Theorem release_versions_from_prefixed_text (vs : list string) :
  let captures := release_name <$> vs in
  let versions := getVersions Version_of_string Version_eq captures in
  let m :=
    getMaxReleaseVersion Version_of_string Version_eq Version_lt
      Version_default captures in
  (∀ v, versionString (release_name v) = ("t-" +:+ v)%string)
  ∧ Forall (λ e, ∃ v, v ∈ vs ∧ e = Version_of_string ("t-" +:+ v)) versions
  ∧ (vs = [] → m = Version_default)
  ∧ (vs ≠ [] → m ∈ versions ∧ ∀ e, e ∈ versions → Version_lt m e = false).
Proof.
  intros captures versions m. split; [|split; [|split]].
  - apply versionString_release_name.
  - subst versions captures. unfold getVersions.
    apply getVersions_from; [|done].
    apply Forall_fmap, Forall_forall. intros v Hv. cbn.
    rewrite versionString_release_name. eauto.
  - intros ->. done.
  - intros Hne. subst m. unfold getMaxReleaseVersion. fold captures versions.
    destruct versions as [|first rest] eqn:Hversions.
    { exfalso. subst versions captures. destruct vs as [|v vs]; [done|].
      revert Hversions. unfold getVersions. cbn [fmap list_fmap foldl existsb negb].
      by apply getVersions_keeps. }
    apply (max_element_from_largest first [first] rest).
    + by apply list_elem_of_singleton.
    + by intros e ->%list_elem_of_singleton.
Qed.

End WithVersion.

End VersionCheckerFacts.

Section PushButtonFacts.

Import YuPostPushButton.

Context {QIcon QSize : Type}.
Variable isNull : QIcon → bool.
Variable selected_icon : QIcon → QSize → QIcon.

Local Abbreviation paint_each := (paint_each isNull selected_icon).
Local Abbreviation sunken := (sunken isNull).
Local Abbreviation drawn_with := (drawn_with isNull).

Lemma paint_each_cached (paints : list (bool * QStyleOptionButton QIcon QSize))
    (b : t QIcon) :
  m_iconCached b = true →
  paint_each paints b = (b, drawn_with (m_downIcon b) <$> paints).
Proof.
  intros Hb. induction paints as [|[isDown option] paints IH]; [done|].
  assert (updateIcon isNull selected_icon isDown b option
          = (b, drawn_with (m_downIcon b) (isDown, option))) as Hone.
  { unfold updateIcon, YuPostPushButton.drawn_with, YuPostPushButton.sunken. rewrite Hb. cbn.
    by repeat case_match. }
  cbn [YuPostPushButton.paint_each]. rewrite Hone. cbn [fst snd].
  by rewrite IH.
Qed.

(** X30: the sunken icon is made once.  The first paint that shows the
    button enabled, with an icon and held down makes it from the icon and
    icon size of that paint; paints before it draw the option as it is.
    From then on the members stay as they are, and every sunken paint draws
    that icon (unless it is null), whatever icon and size the button has by
    then. *)
Theorem down_icon_made_once (b : t QIcon)
    (before later : list (bool * QStyleOptionButton QIcon QSize))
    (first : bool * QStyleOptionButton QIcon QSize) :
  m_iconCached b = false →
  Forall (λ paint, sunken paint = false) before →
  sunken first = true →
  let down := selected_icon (icon first.2) (iconSize first.2) in
  paint_each (before ++ first :: later) b
  = (mk true down,
     (snd <$> before) ++ (drawn_with down <$> first :: later)).
Proof.
  intros Hb Hbefore Hfirst down.
  induction Hbefore as [|[isDown option] before Hp _ IH].
  - destruct first as [isDown option]. cbn [app].
    assert (updateIcon isNull selected_icon isDown b option
            = (mk true down, drawn_with down (isDown, option))) as Hone.
    { unfold updateIcon, YuPostPushButton.drawn_with. rewrite Hfirst.
      unfold YuPostPushButton.sunken in Hfirst. cbn in Hfirst.
      rewrite Hfirst, Hb. subst down. cbn. by case_match. }
    cbn [YuPostPushButton.paint_each]. rewrite Hone. cbn [fst snd].
    by rewrite paint_each_cached.
  - assert (updateIcon isNull selected_icon isDown b option = (b, option)) as Hone.
    { unfold updateIcon. unfold YuPostPushButton.sunken in Hp. cbn in Hp.
      by rewrite Hp. }
    cbn [app YuPostPushButton.paint_each]. rewrite Hone. cbn [fst snd].
    by rewrite IH.
Qed.

End PushButtonFacts.

(** * Further runs on sample data *)

Section MoreRuns.

Import Samples MoreSamples.

Lemma order_pos_round_trip_witness :
  CWalletTx.ReadOrderPos read_decimal (CWalletTx.WriteOrderPos pretty 12 ∅) = 12.
Proof.
  apply (order_pos_round_trip pretty read_decimal 12 ∅).
  - intros H. discriminate H.
  - intros _. vm_compute. reflexivity.
Defined.

Lemma serialize_round_trip_metadata_witness :
  CWalletTx.mapValue
    (CWalletTx.Unserialize ABANDON_HASH read_decimal
       (CWalletTx.Serialize ABANDON_HASH pretty pretty ordered) fresh)
  = {[ "comment"%string := "rent"%string ]}
  ∧ CWalletTx.nOrderPos
      (CWalletTx.Unserialize ABANDON_HASH read_decimal
         (CWalletTx.Serialize ABANDON_HASH pretty pretty ordered) fresh)
    = 12
  ∧ CWalletTx.nTimeSmart
      (CWalletTx.Unserialize ABANDON_HASH read_decimal
         (CWalletTx.Serialize ABANDON_HASH pretty pretty ordered) fresh)
    = 1700000000.
Proof.
  destruct (serialize_round_trip_metadata ABANDON_HASH pretty pretty read_decimal
              ordered fresh)
    as (_ & Hmap & _ & _ & _ & _ & Hpos & Hsmart).
  - intros k [-> | [-> | [-> | ->]]]; vm_compute; reflexivity.
  - intros _. vm_compute. reflexivity.
  - intros _. split; [vm_compute; reflexivity | cbn; lia].
  - split; [exact Hmap | split; [exact Hpos | exact Hsmart]].
Defined.

Lemma serialize_round_trip_conflicted_witness :
  CWalletTx.m_confirm
    (CWalletTx.Unserialize ABANDON_HASH atoi64
       (CWalletTx.Serialize ABANDON_HASH ToString ToString conflicted) fresh)
  = CWalletTx.mkConfirmation CWalletTx.CONFLICTED 0 9%N 0.
Proof.
  apply (proj1 (serialize_round_trip_conflicted ABANDON_HASH ToString ToString
                  atoi64 conflicted fresh)).
  - reflexivity.
  - intros H. discriminate H.
Defined.

Lemma rescan_reservation_exclusive_witness :
  ∃ sys,
    CWalletInline.reserver_run 0
      (CWalletInline.mkReservers (CWalletInline.Scanning_initial 0) ∅)
      two_reservers
    = Some sys
    ∧ (CWalletInline.IsScanning (CWalletInline.scanning sys) = true
       ↔ ∃ i r, CWalletInline.alive sys !! i = Some r
                ∧ CWalletInline.isReserved (CWalletInline.scanning sys) r = true).
Proof.
  eexists. split; [vm_compute; reflexivity|].
  apply (proj1 (rescan_reservation_exclusive 0 two_reservers
                  (CWalletInline.Scanning_initial 0) _ eq_refl)).
  - repeat constructor.
  - vm_compute. reflexivity.
Defined.

Lemma rescan_status_after_reserve_witness :
  CWalletInline.ScanningDuration 500 (CWalletInline.Scanning_initial 0) = 0
  ∧ CWalletInline.ScanningProgress 0 (CWalletInline.Scanning_initial 0) = 0.
Proof.
  destruct (proj1 (rescan_status_after_reserve 0 100 500
                     (CWalletInline.Scanning_initial 0)) eq_refl)
    as (Hduration & Hprogress & _).
  split; [exact Hduration | exact Hprogress].
Defined.

Lemma prepareTransaction_OK_checked_witness :
  (WalletModel.prepareTransaction one_letter scriptForAddress reassignAmounts
     funded_wallet two_request tt).1.1
  = WalletModel.OK
  ∧ Forall (WalletModel.well_formed one_letter) [alice; bob]
  ∧ NoDup ["A"; "B"]%string.
Proof.
  assert ((WalletModel.prepareTransaction one_letter scriptForAddress
             reassignAmounts funded_wallet two_request tt).1.1
          = WalletModel.OK) as Hok by (vm_compute; reflexivity).
  split; [exact Hok|].
  destruct (prepareTransaction_OK_checked one_letter scriptForAddress
              reassignAmounts funded_wallet two_request tt)
    as (Hwf & Hnd & _).
  - intros H. discriminate H.
  - exact Hok.
  - split; [exact Hwf | exact Hnd].
Defined.

(** The amounts [INT64_MAX] and 1 sum to a total that wraps to [-2^63]: it
    passes the balance check of a wallet that holds 100, and the request is
    answered [OK]. *)
Lemma prepareTransaction_total_wraps :
  WalletModel.total_amount (WalletModel.recipients overflowing_request)
  = 2 ^ 63
  ∧ WalletModel.total_after 0 (WalletModel.recipients overflowing_request)
    = - 2 ^ 63
  ∧ WalletModel.getAvailableBalance funded_wallet tt = 100
  ∧ (WalletModel.prepareTransaction one_letter scriptForAddress reassignAmounts
       funded_wallet overflowing_request tt).1.1
    = WalletModel.OK.
Proof. repeat split; vm_compute; reflexivity. Qed.

Lemma prepareTransaction_first_offender_witness :
  WalletModel.prepareTransaction one_letter scriptForAddress reassignAmounts
    funded_wallet bad_address_request tt
  = (WalletModel.InvalidAddress, bad_address_request, [])
  ∧ WalletModel.prepareTransaction one_letter scriptForAddress reassignAmounts
      funded_wallet bad_amount_request tt
    = (WalletModel.InvalidAmount, bad_amount_request, []).
Proof.
  assert (Forall (WalletModel.well_formed one_letter) [alice]) as Hgood.
  { constructor; [split; [reflexivity | reflexivity] | constructor]. }
  split.
  - apply (proj1 (prepareTransaction_first_offender one_letter scriptForAddress
                    reassignAmounts funded_wallet bad_address_request tt
                    [alice] [bob] nobody eq_refl Hgood)).
    reflexivity.
  - apply (proj2 (prepareTransaction_first_offender one_letter scriptForAddress
                    reassignAmounts funded_wallet bad_amount_request tt
                    [alice] [nobody] carol eq_refl Hgood)).
    + reflexivity.
    + cbn. lia.
Defined.

Lemma prepareTransaction_duplicates_witness :
  (WalletModel.prepareTransaction one_letter scriptForAddress reassignAmounts
     funded_wallet twice_request tt).1.1
  = WalletModel.DuplicateAddress.
Proof.
  apply (prepareTransaction_duplicates one_letter scriptForAddress
           reassignAmounts funded_wallet twice_request tt).
  - intros H. discriminate H.
  - repeat constructor.
  - intros Hnd. cbn in Hnd. apply NoDup_cons in Hnd as [Hin _].
    apply Hin. repeat constructor.
Defined.

Lemma pollBalanceChanged_skips_while_syncing_witness :
  WalletModelMore.poll_times balanceChanged syncing_node funded_wallet 29
    idle_model
  = (WalletModel.mk 29 100 false 42 false false, []).
Proof.
  apply (pollBalanceChanged_skips_while_syncing balanceChanged syncing_node
           funded_wallet idle_model 101 29).
  - reflexivity.
  - cbn. unfold WalletModel.pollSyncSkip. lia.
Defined.

Lemma address_refresh_retried_until_answered_witness :
  WalletModelMore.checkCoinAddressesChanged_each
    [None; None; Some (["A"], ["A"; "B"], false); Some ([], [], true)]%string
    (WalletModelMore.checkCoinAddresses idle_model)
  = (idle_model,
     [WalletModelMore.CallTryGetAvailableAddresses;
      WalletModelMore.CallTryGetAvailableAddresses;
      WalletModelMore.CallTryGetAvailableAddresses;
      WalletModelMore.EmitAvailableAddressesChanged ["A"] ["A"; "B"] false]%string).
Proof.
  apply (proj2 (address_refresh_retried_until_answered
                  (WalletModelMore.checkCoinAddresses idle_model) 2
                  ["A"] ["A"; "B"] false [Some ([], [], true)] eq_refl))%string.
Defined.

Lemma poll_requests_refresh_witness :
  WalletModelMore.CallTryGetAvailableAddresses
  ∈ (WalletModelMore.checkCoinAddressesChanged None
       (WalletModel.pollBalanceChanged balanceChanged synced_node funded_wallet
          model).1).2
  ∧ (WalletModelMore.checkStakeWeightChanged (λ _, (true, 7))
       (WalletModel.pollBalanceChanged balanceChanged synced_node funded_wallet
          model).1 0).2
    = [WalletModelMore.CallTryGetStakeWeight].
Proof.
  destruct (poll_requests_refresh balanceChanged synced_node funded_wallet model
              None (λ _, (true, 7)) 0) as [Haddresses Hweight].
  split.
  - apply Haddresses. exists 90. vm_compute. repeat constructor.
  - apply Hweight.
    + exists 101. reflexivity.
    + vm_compute. repeat constructor.
Defined.

Lemma checkHardwareDevice_refresh_witness :
  (WalletModelMore.checkHardwareDevice fst snd 1000 5000 5002 EmptyString "abcd"
     enumerate 0 []).1
  = 5002
  ∧ ∀ d, d ∈ (WalletModelMore.checkHardwareDevice fst snd 1000 5000 5002
                EmptyString "abcd" enumerate 0 []).2
         → d.2 = true.
Proof.
  destruct (proj2 (checkHardwareDevice_refresh fst snd 1000 5000 5002 EmptyString
                     "abcd" enumerate 0 [])) as [Htime Hdevices].
  - lia.
  - split; [exact Htime|]. intros d Hd. apply Hdevices in Hd as [Hvalid _].
    exact Hvalid.
Defined.

Lemma release_versions_from_prefixed_text_witness :
  YuPostVersionChecker.getMaxReleaseVersion String.length Nat.eqb Nat.ltb 0%nat
    (YuPostVersionChecker.release_name <$> ["1.2.3"; "10.0.21"; "2.0"]%string)
  ∈ YuPostVersionChecker.getVersions String.length Nat.eqb
      (YuPostVersionChecker.release_name <$> ["1.2.3"; "10.0.21"; "2.0"]%string).
Proof.
  destruct (release_versions_from_prefixed_text String.length Nat.eqb Nat.ltb
              0%nat Nat.ltb_irrefl
              (λ a b c Hab Hbc,
                 proj2 (Nat.ltb_lt a c)
                   (Nat.lt_trans a b c (proj1 (Nat.ltb_lt a b) Hab)
                      (proj1 (Nat.ltb_lt b c) Hbc)))
              ["1.2.3"; "10.0.21"; "2.0"]%string)
    as (_ & _ & _ & Hmax).
  apply Hmax. intros H. discriminate H.
Defined.

Lemma down_icon_made_once_witness :
  YuPostPushButton.paint_each icon_isNull icon_selected
    ([(false, YuPostPushButton.mkOption true 5 16)]
     ++ (true, YuPostPushButton.mkOption true 5 16)
        :: [(true, YuPostPushButton.mkOption true 9 32);
            (false, YuPostPushButton.mkOption true 9 32)])%nat
    plain_button
  = (YuPostPushButton.mk true 21%nat,
     [YuPostPushButton.mkOption true 5 16; YuPostPushButton.mkOption true 21 16;
      YuPostPushButton.mkOption true 21 32; YuPostPushButton.mkOption true 9 32]%nat).
Proof.
  apply (down_icon_made_once icon_isNull icon_selected plain_button
           [(false, YuPostPushButton.mkOption true 5 16)]
           [(true, YuPostPushButton.mkOption true 9 32);
            (false, YuPostPushButton.mkOption true 9 32)]
           (true, YuPostPushButton.mkOption true 5 16))%nat.
  - reflexivity.
  - repeat constructor.
  - reflexivity.
Defined.

End MoreRuns.
